(** * Offline-first task synchronisation: the sync engine of
      [src/services/syncService.ts], with the parts of
      [src/services/taskService.ts], [src/db/database.ts] and
      [src/types/index.ts] it relies on.

    The TypeScript code is embedded shallowly:
    - JavaScript objects ([Task], [Partial<Task>]) are finite maps from
      property names to values, so that object spread is map union;
    - the SQLite store is a record of tables (lists of rows) together with
      the column list of [sync_queue], and each SQL statement of the code
      is a function on it, refused where SQLite refuses it (unknown column,
      primary key taken, NULL in a NOT NULL column);
    - asynchronous methods are computations in a state-and-exception monad
      over the world (store, count of calls to the outside, requests sent);
      [try]/[catch] keeps the state reached when the exception was thrown;
    - the outside world (clock, random source, remote authority, MD5 and the
      Date text codec) is a record of oracles, [Runtime].

    Numbers are integers.  A timestamp of the queue is kept as the instant
    (epoch milliseconds) whose ISO text the store holds; where the store
    compares the column, it compares that text.  Logging is left out. *)

From Stdlib Require Import ZArith List Ascii String Sorted Permutation Lia Bool.
From Stdlib Require Import DecimalString.
From Stdlib Require OrderedTypeEx.
From stdpp Require Import base option gmap strings list.

Local Open Scope string_scope.
Local Open Scope list_scope.
Local Open Scope Z_scope.

(* ================================================================== *)
(** * JavaScript values and objects *)
(* ================================================================== *)

Module Js.

(** The values a [Task] property can hold.  [JDate None] is an Invalid Date
    (time value NaN); numbers are restricted to integers. *)
Inductive jsval : Type :=
| JUndefined
| JNull
| JBool (b : bool)
| JNum (n : Z)
| JStr (s : string)
| JDate (t : option Z).

(** What [JSON.parse] yields for the members of a stored object. *)
Inductive json : Type :=
| JsonNull
| JsonBool (b : bool)
| JsonNum (n : Z)
| JsonStr (s : string).

#[global] Instance jsval_eq_dec : EqDecision jsval.
Proof. solve_decision. Defined.

#[global] Instance json_eq_dec : EqDecision json.
Proof. solve_decision. Defined.

(** Property read [o.k]: [undefined] when the object has no such property. *)
Definition prop (o : gmap string jsval) (k : string) : jsval :=
  default JUndefined (o !! k).

(** [{...lo, ...hi}]: own properties of [hi] override those of [lo]. *)
Definition spread (lo hi : gmap string jsval) : gmap string jsval := hi ∪ lo.

(** ToBoolean. *)
Definition truthy (v : jsval) : bool :=
  match v with
  | JUndefined | JNull => false
  | JBool b => b
  | JNum n => negb (n =? 0)
  | JStr s => negb (String.eqb s EmptyString)
  | JDate _ => true
  end.

(** [String(n)] for an integer number: decimal digits with a leading minus
    sign for negatives. *)
Definition string_of_Z (n : Z) : string :=
  NilZero.string_of_int (Z.to_int n).

(** [JSON.parse]: members of the stored text become values. *)
Definition of_json (j : json) : jsval :=
  match j with
  | JsonNull => JNull
  | JsonBool b => JBool b
  | JsonNum n => JNum n
  | JsonStr s => JStr s
  end.

Definition JSON_parse (o : gmap string json) : gmap string jsval :=
  of_json <$> o.

(** TimeClip: a time value more than 8.64e15 milliseconds from the epoch is
    NaN, so the Date is an Invalid Date. *)
Definition TimeClip (t : Z) : option Z :=
  if Z.abs t <=? 8640000000000000 then Some t else None.

Section Codec.
(** [Date.prototype.toISOString] on a valid time value. *)
Variable Date_toISOString : Z → string.
(** Parsing of a date string by [new Date(s)]; [None] is NaN. *)
Variable Date_parse : string → option Z.

(** [JSON.stringify] of one member: [undefined] members are dropped, a
    Date is written through [toJSON] (its ISO text, or [null] when
    invalid). *)
Definition to_json (v : jsval) : option json :=
  match v with
  | JUndefined => None
  | JNull => Some JsonNull
  | JBool b => Some (JsonBool b)
  | JNum n => Some (JsonNum n)
  | JStr s => Some (JsonStr s)
  | JDate (Some t) => Some (JsonStr (Date_toISOString t))
  | JDate None => Some JsonNull
  end.

Definition JSON_stringify (o : gmap string jsval) : gmap string json :=
  omap to_json o.

(** The time value of [new Date(v)]: a number or a Date gives its own
    time value, clipped; a string is parsed. *)
Definition newDate (v : jsval) : option Z :=
  match v with
  | JUndefined => None
  | JNull => Some 0
  | JBool b => Some (if b then 1 else 0)
  | JNum n => TimeClip n
  | JStr s => Date_parse s
  | JDate None => None
  | JDate (Some t) => TimeClip t
  end.
End Codec.

End Js.

Import Js.

(* ================================================================== *)
(** * Types of [src/types/index.ts] *)
(* ================================================================== *)

Inductive Operation : Type := create | update | delete.

#[global] Instance Operation_eq_dec : EqDecision Operation.
Proof. solve_decision. Defined.

Definition Operation_text (o : Operation) : string :=
  match o with
  | create => "create"
  | update => "update"
  | delete => "delete"
  end.

(** [created_at] is the time value (epoch milliseconds) of the Date. *)
Record SyncQueueItem : Type := mkItem {
  it_id : string;
  it_task_id : string;
  it_operation : Operation;
  it_data : gmap string jsval;
  it_created_at : Z;
  it_retry_count : Z;
  it_error_message : option string
}.

Record SyncError : Type := mkSyncError {
  se_task_id : string;
  se_operation : string;
  se_error : string;
  se_timestamp : Z
}.

Record SyncResult : Type := mkSyncResult {
  success : bool;
  synced_items : Z;
  failed_items : Z;
  errors : list SyncError
}.

Record BatchSyncRequest : Type := mkBatchSyncRequest {
  items : list SyncQueueItem;
  client_timestamp : Z
}.

Inductive Status : Type := status_success | status_conflict | status_error.

Record ProcessedItem : Type := mkProcessed {
  client_id : string;
  server_id : option string;
  status : Status;
  resolved_data : option (gmap string jsval);
  error : option string
}.

(** The body of a resolved POST: [processed_items] may be missing from a
    body that does not follow [BatchSyncResponse], and an array slot may hold
    [null]. *)
Record BatchSyncResponse : Type := mkBatchSyncResponse {
  processed_items : option (list (option ProcessedItem))
}.

Inductive PostReply : Type :=
| PostRejected (message : string)
| PostResolved (body : BatchSyncResponse).

(* ================================================================== *)
(** * The store of [src/db/database.ts] *)
(* ================================================================== *)

Module Db.

Inductive sqlval : Type := SqlNull | SqlInt (n : Z) | SqlText (s : string).

#[global] Instance sqlval_eq_dec : EqDecision sqlval.
Proof. solve_decision. Defined.

(** Binding of a JavaScript value to a statement parameter. *)
Definition bind_param (v : jsval) : sqlval :=
  match v with
  | JUndefined | JNull => SqlNull
  | JBool b => SqlInt (if b then 1 else 0)
  | JNum n => SqlInt n
  | JStr s => SqlText s
  | JDate (Some t) => SqlInt t
  | JDate None => SqlNull
  end.

(** What a TEXT column keeps of a bound value: an integer is stored as its
    decimal text. *)
Definition text_affinity (v : sqlval) : sqlval :=
  match v with
  | SqlInt n => SqlText (string_of_Z n)
  | _ => v
  end.

(** A row of [tasks]. *)
Record TaskRow : Type := mkTaskRow {
  t_id : string;
  t_title : sqlval;
  t_description : sqlval;
  t_completed : sqlval;
  t_created_at : sqlval;
  t_updated_at : sqlval;
  t_is_deleted : sqlval;
  t_sync_status : sqlval;
  t_server_id : sqlval;
  t_last_synced_at : sqlval
}.

(** A row of [sync_queue].  The DATETIME column [created_at] holds the text
    [toISOString] gave when the row was written; the model keeps the
    instant, and the store compares the text of it.
    [data] holds JSON text, kept as the object it parses to.
    [q_sync_status] is the value of a [sync_status] column, for a store
    whose [sync_queue] has one. *)
Record QueueRow : Type := mkQueueRow {
  q_id : string;
  q_task_id : string;
  q_operation : Operation;
  q_data : gmap string json;
  q_created_at : Z;
  q_retry_count : Z;
  q_error_message : option string;
  q_sync_status : option string
}.

(** A row of [sync_dead_letter_queue]. *)
Record DeadLetterRow : Type := mkDeadLetterRow {
  d_id : string;
  d_task_id : string;
  d_operation : Operation;
  d_data : gmap string json;
  d_created_at : Z;
  d_retry_count : Z;
  d_error_message : string;
  d_failed_at : Z;
  d_original_sync_queue_id : string
}.

Record Database : Type := mkDatabase {
  tasks : list TaskRow;
  sync_queue : list QueueRow;
  sync_dead_letter_queue : list DeadLetterRow;
  sync_queue_columns : list string
}.

(** [createTables] on a new file: the three tables are empty and
    [sync_queue] has exactly the columns of its CREATE TABLE statement. *)
Definition createTables : Database :=
  {| tasks := [];
     sync_queue := [];
     sync_dead_letter_queue := [];
     sync_queue_columns :=
       ["id"; "task_id"; "operation"; "data"; "created_at"; "retry_count";
        "error_message"] |}.

Definition set_tasks (ts : list TaskRow) (d : Database) : Database :=
  {| tasks := ts; sync_queue := sync_queue d;
     sync_dead_letter_queue := sync_dead_letter_queue d;
     sync_queue_columns := sync_queue_columns d |}.

Definition set_sync_queue (q : list QueueRow) (d : Database) : Database :=
  {| tasks := tasks d; sync_queue := q;
     sync_dead_letter_queue := sync_dead_letter_queue d;
     sync_queue_columns := sync_queue_columns d |}.

Definition set_dead_letter (l : list DeadLetterRow) (d : Database) : Database :=
  {| tasks := tasks d; sync_queue := sync_queue d;
     sync_dead_letter_queue := l;
     sync_queue_columns := sync_queue_columns d |}.

(** ORDER BY task_id, created_at ASC.  Both columns hold text and compare
    bytewise; the text of [created_at] is [toISO] of the instant kept. *)
Definition order_leb (toISO : Z → string) (a b : QueueRow) : bool :=
  match String.compare (q_task_id a) (q_task_id b) with
  | Lt => true
  | Gt => false
  | Eq => String.leb (toISO (q_created_at a)) (toISO (q_created_at b))
  end.

Fixpoint order_insert (toISO : Z → string) (x : QueueRow) (l : list QueueRow)
    : list QueueRow :=
  match l with
  | [] => [x]
  | y :: l' =>
      if order_leb toISO x y then x :: l else y :: order_insert toISO x l'
  end.

(** Rows with equal keys keep their table order. *)
Fixpoint order_by (toISO : Z → string) (l : list QueueRow) : list QueueRow :=
  match l with
  | [] => []
  | x :: l' => order_insert toISO x (order_by toISO l')
  end.

(** SELECT * FROM sync_queue WHERE retry_count < ? ORDER BY task_id,
    created_at ASC *)
Definition select_pending (toISO : Z → string) (max : Z) (d : Database)
    : list QueueRow :=
  order_by toISO
    (List.filter (fun r => q_retry_count r <? max) (sync_queue d)).

(** SELECT COUNT( * ) FROM sync_queue WHERE retry_count < ? *)
Definition count_pending (max : Z) (d : Database) : Z :=
  Z.of_nat (length (List.filter (fun r => q_retry_count r <? max) (sync_queue d))).

(** SELECT COUNT( * ) FROM sync_dead_letter_queue *)
Definition count_dead_letter (d : Database) : Z :=
  Z.of_nat (length (sync_dead_letter_queue d)).

(** DELETE FROM sync_queue WHERE id = ? *)
Definition delete_queue (id : string) (d : Database) : Database :=
  set_sync_queue
    (List.filter (fun r => negb (String.eqb (q_id r) id)) (sync_queue d)) d.

(** UPDATE sync_queue SET retry_count = ?, error_message = ? WHERE id = ? *)
Definition update_queue_retry (n : Z) (msg : string) (id : string)
    (d : Database) : Database :=
  set_sync_queue
    (List.map
       (fun r =>
          if String.eqb (q_id r) id then
            {| q_id := q_id r; q_task_id := q_task_id r;
               q_operation := q_operation r; q_data := q_data r;
               q_created_at := q_created_at r; q_retry_count := n;
               q_error_message := Some msg;
               q_sync_status := q_sync_status r |}
          else r)
       (sync_queue d)) d.

(** UPDATE sync_queue SET sync_status = 'in-progress' WHERE id = ?
    The statement names a column; the store refuses it when [sync_queue] has
    no such column, whatever the rows are. *)
Definition update_queue_in_progress (id : string) (d : Database)
    : Database + string :=
  if bool_decide ("sync_status" ∈ sync_queue_columns d) then
    inl (set_sync_queue
           (List.map
              (fun r =>
                 if String.eqb (q_id r) id then
                   {| q_id := q_id r; q_task_id := q_task_id r;
                      q_operation := q_operation r; q_data := q_data r;
                      q_created_at := q_created_at r;
                      q_retry_count := q_retry_count r;
                      q_error_message := q_error_message r;
                      q_sync_status := Some "in-progress" |}
                 else r)
              (sync_queue d)) d)
  else inr "SQLITE_ERROR: no such column: sync_status".

(** INSERT INTO sync_queue (id, task_id, operation, data, created_at,
    retry_count): [id] is the primary key. *)
Definition insert_queue (r : QueueRow) (d : Database) : Database + string :=
  if existsb (fun r' => String.eqb (q_id r') (q_id r)) (sync_queue d) then
    inr "SQLITE_CONSTRAINT: UNIQUE constraint failed: sync_queue.id"
  else inl (set_sync_queue (sync_queue d ++ [r]) d).

(** INSERT INTO sync_dead_letter_queue (...): [id] is the primary key. *)
Definition insert_dead_letter (r : DeadLetterRow) (d : Database)
    : Database + string :=
  if existsb (fun r' => String.eqb (d_id r') (d_id r))
       (sync_dead_letter_queue d) then
    inr "SQLITE_CONSTRAINT: UNIQUE constraint failed: sync_dead_letter_queue.id"
  else inl (set_dead_letter (sync_dead_letter_queue d ++ [r]) d).

(** UPDATE tasks SET ... WHERE id = ? with the new row given by [f]. *)
Definition update_tasks (f : TaskRow → TaskRow) (id : string) (d : Database)
    : Database :=
  set_tasks
    (List.map (fun r => if String.eqb (t_id r) id then f r else r) (tasks d)) d.

End Db.

Import Db.

(* ================================================================== *)
(** * The outside world and the monad of asynchronous methods *)
(* ================================================================== *)

(** Oracles for everything the service obtains from outside.  The ones that
    vary between calls are indexed by the number of outside calls made so
    far. *)
Record Runtime : Type := mkRuntime {
  (** [new Date()] / [Date.now()] *)
  Date_now : nat → Z;
  (** [Math.random().toString(36).substr(2, 9)] *)
  Math_random : nat → string;
  (** [d.toISOString()] for the Date of a time value *)
  Date_toISOString : Z → string;
  (** the time value of [new Date(s)] for a string, [None] for NaN *)
  Date_parse : string → option Z;
  (** [createHash('md5').update(s).digest('hex')] *)
  md5_hex : string → string;
  (** whether GET /health resolves *)
  axios_get : nat → bool;
  (** the reply to POST /batch with the X-Batch-Checksum header *)
  axios_post : nat → BatchSyncRequest → string → PostReply
}.

Record World : Type := mkWorld {
  db : Database;
  calls : nat;
  (** the batch requests sent so far, oldest first *)
  outbox : list (BatchSyncRequest * string)
}.

Definition set_db (d : Database) (w : World) : World :=
  {| db := d; calls := calls w; outbox := outbox w |}.

Definition tick (w : World) : World :=
  {| db := db w; calls := S (calls w); outbox := outbox w |}.

Inductive outcome (A : Type) : Type :=
| Returned (a : A)
| Thrown (message : string).
Arguments Returned {A} a.
Arguments Thrown {A} message.

(** A computation over a state [S] that returns or throws; the state
    survives a throw (the store has no transactions). *)
Definition M (S A : Type) : Type := S → S * outcome A.

Definition ret {S A} (a : A) : M S A := fun s => (s, Returned a).

Definition throw {S A} (message : string) : M S A :=
  fun s => (s, Thrown message).

Definition bind {S A B} (m : M S A) (k : A → M S B) : M S B :=
  fun s =>
    match m s with
    | (s', Returned a) => k a s'
    | (s', Thrown e) => (s', Thrown e)
    end.

Definition try_catch {S A} (m : M S A) (handler : string → M S A) : M S A :=
  fun s =>
    match m s with
    | (s', Returned a) => (s', Returned a)
    | (s', Thrown e) => handler e s'
    end.

Notation "'let*' x ':=' m 'in' k" := (bind m (fun x => k))
  (at level 10, x name, m at level 100, k at level 200).
Notation "'do*' m 'in' k" := (bind m (fun _ => k))
  (at level 10, m at level 100, k at level 200).

(** [for (const x of l) { await body(x) }] *)
Fixpoint for_of {S A} (l : list A) (body : A → M S unit) : M S unit :=
  match l with
  | [] => ret tt
  | x :: l' => do* body x in for_of l' body
  end.

(** Methods of the world lifted to a method that also holds a local result
    object. *)
Definition lift {R A} (m : M World A) : M (World * R) A :=
  fun s => match m (fst s) with (w, o) => ((w, snd s), o) end.

Definition update_local {R} (f : R → R) : M (World * R) unit :=
  fun s => ((fst s, f (snd s)), Returned tt).

(** Runs [m] on a new local object [r0] and returns the object. *)
Definition with_local {R} (r0 : R) (m : M (World * R) unit) : M World R :=
  fun w =>
    match m (w, r0) with
    | ((w', r), Returned _) => (w', Returned r)
    | ((w', _), Thrown e) => (w', Thrown e)
    end.

(** [await this.db.run(...)] for a statement that cannot be refused. *)
Definition db_run (f : Database → Database) : M World unit :=
  fun w => (set_db (f (db w)) w, Returned tt).

(** [await this.db.run(...)] for a statement the store may refuse. *)
Definition db_run_checked (f : Database → Database + string) : M World unit :=
  fun w =>
    match f (db w) with
    | inl d => (set_db d w, Returned tt)
    | inr e => (w, Thrown e)
    end.

Definition db_query {A} (f : Database → A) : M World A :=
  fun w => (w, Returned (f (db w))).

(** The object [getSyncStatus] returns.  [lastSync] is [None] for [null]
    and [Some t] for a Date of time value [t]. *)
Module SyncStatus.
Record t : Type := mk {
  pending : Z;
  inProgress : Z;
  errors : Z;
  deadLetter : Z;
  lastSync : option (option Z)
}.
End SyncStatus.

Section Service.
Variable rt : Runtime.

(** [new Date()], [Date.now()] *)
Definition new_Date : M World Z :=
  fun w => (tick w, Returned (Date_now rt (calls w))).

Definition random_suffix : M World string :=
  fun w => (tick w, Returned (Math_random rt (calls w))).

(** [await axios.get(`${apiUrl}/health`, ...)] *)
Definition get_health : M World unit :=
  fun w =>
    if axios_get rt (calls w) then (tick w, Returned tt)
    else (tick w, Thrown "Network Error").

(** [await axios.post(`${apiUrl}/batch`, request, ...)] *)
Definition post_batch (request : BatchSyncRequest) (checksum : string)
    : M World BatchSyncResponse :=
  fun w =>
    let w' :=
      {| db := db w; calls := S (calls w);
         outbox := outbox w ++ [(request, checksum)] |} in
    match axios_post rt (calls w) request checksum with
    | PostResolved body => (w', Returned body)
    | PostRejected e => (w', Thrown e)
    end.

(* ================================================================ *)
(** ** [TaskService] *)
(* ================================================================ *)

Definition is_null (v : sqlval) : bool :=
  match v with SqlNull => true | _ => false end.

Definition updateTaskFromSync (id : string) (updates : gmap string jsval)
    : M World unit :=
  let* now := new_Date in
  let title := bind_param (prop updates "title") in
  db_run_checked
    (fun d =>
       if is_null title
          && existsb (fun r => String.eqb (t_id r) id) (tasks d)
       then inr "SQLITE_CONSTRAINT: NOT NULL constraint failed: tasks.title"
       else
         inl (update_tasks
                (fun r =>
                   {| t_id := t_id r;
                      t_title := text_affinity title;
                      t_description :=
                        text_affinity (bind_param (prop updates "description"));
                      t_completed :=
                        SqlInt (if truthy (prop updates "completed")
                                then 1 else 0);
                      t_created_at := t_created_at r;
                      t_updated_at := SqlText (Date_toISOString rt now);
                      t_is_deleted := t_is_deleted r;
                      t_sync_status := SqlText "synced";
                      t_server_id :=
                        text_affinity (bind_param (prop updates "server_id"));
                      t_last_synced_at :=
                        SqlText (Date_toISOString rt now) |})
                id d)).

Definition markAsSynced (taskId : string) (serverId : option string)
    : M World unit :=
  let* now := new_Date in
  db_run
    (update_tasks
       (fun r =>
          {| t_id := t_id r; t_title := t_title r;
             t_description := t_description r;
             t_completed := t_completed r;
             t_created_at := t_created_at r;
             t_updated_at := SqlText (Date_toISOString rt now);
             t_is_deleted := t_is_deleted r;
             t_sync_status := SqlText "synced";
             t_server_id :=
               match serverId with
               | Some s => SqlText s
               | None => SqlNull
               end;
             t_last_synced_at := SqlText (Date_toISOString rt now) |})
       taskId).

Definition set_sync_status (st : string) (now : Z) (r : TaskRow) : TaskRow :=
  {| t_id := t_id r; t_title := t_title r;
     t_description := t_description r; t_completed := t_completed r;
     t_created_at := t_created_at r;
     t_updated_at := SqlText (Date_toISOString rt now);
     t_is_deleted := t_is_deleted r;
     t_sync_status := SqlText st;
     t_server_id := t_server_id r;
     t_last_synced_at := t_last_synced_at r |}.

Definition markSyncError (taskId : string) : M World unit :=
  let* now := new_Date in
  db_run (update_tasks (set_sync_status "error" now) taskId).

Definition markSyncFailed (taskId : string) : M World unit :=
  let* now := new_Date in
  db_run (update_tasks (set_sync_status "failed" now) taskId).


(* ================================================================ *)
(** ** [SyncService] *)
(* ================================================================ *)

(** The fields of the service.  [batchSize] is the result of [parseInt],
    [None] standing for NaN. *)
Record SyncService : Type := mkSyncService {
  maxRetries : Z;
  batchSize : option Z
}.

(** The constructor with SYNC_BATCH_SIZE unset. *)
Definition new_SyncService : SyncService :=
  {| maxRetries := 3; batchSize := Some 50 |}.

Variable this : SyncService.

Definition empty_result : SyncResult :=
  {| success := true; synced_items := 0; failed_items := 0; errors := [] |}.

Definition set_success (b : bool) (r : SyncResult) : SyncResult :=
  {| success := b; synced_items := synced_items r;
     failed_items := failed_items r; errors := errors r |}.

Definition set_synced_items (n : Z) (r : SyncResult) : SyncResult :=
  {| success := success r; synced_items := n;
     failed_items := failed_items r; errors := errors r |}.

Definition set_failed_items (n : Z) (r : SyncResult) : SyncResult :=
  {| success := success r; synced_items := synced_items r;
     failed_items := n; errors := errors r |}.

Definition push_errors (es : list SyncError) (r : SyncResult) : SyncResult :=
  {| success := success r; synced_items := synced_items r;
     failed_items := failed_items r; errors := errors r ++ es |}.

Definition row_to_item (row : QueueRow) : SyncQueueItem :=
  {| it_id := q_id row;
     it_task_id := q_task_id row;
     it_operation := q_operation row;
     it_data := JSON_parse (q_data row);
     it_created_at := q_created_at row;
     it_retry_count := q_retry_count row;
     it_error_message := q_error_message row |}.

Definition getPendingSyncItemsChronological : M World (list SyncQueueItem) :=
  let* rows :=
    db_query (select_pending (Date_toISOString rt) (maxRetries this)) in
  ret (List.map row_to_item rows).

Definition markItemsAsInProgress (items : list SyncQueueItem) : M World unit :=
  for_of items
    (fun item => db_run_checked (update_queue_in_progress (it_id item))).

(** [currentBatch.length >= this.batchSize]; false when the size is NaN. *)
Definition length_ge (n : nat) (size : option Z) : bool :=
  match size with
  | Some k => k <=? Z.of_nat n
  | None => false
  end.

(** The loop of [createChronologicalBatches], on its two variables. *)
Fixpoint batches_loop (items : list SyncQueueItem)
    (batches : list (list SyncQueueItem)) (currentBatch : list SyncQueueItem)
    : list (list SyncQueueItem) * list SyncQueueItem :=
  match items with
  | [] => (batches, currentBatch)
  | item :: rest =>
      if length_ge (length currentBatch) (batchSize this)
      then batches_loop rest (batches ++ [currentBatch]) [item]
      else batches_loop rest batches (currentBatch ++ [item])
  end.

Definition createChronologicalBatches (items : list SyncQueueItem)
    : list (list SyncQueueItem) :=
  match batches_loop items [] [] with
  | (batches, currentBatch) =>
      if (0 <? Z.of_nat (length currentBatch))
      then batches ++ [currentBatch]
      else batches
  end.

(** [`${item.id}-${item.task_id}-${item.operation}-${item.created_at.getTime()}`] *)
Definition item_text (item : SyncQueueItem) : string :=
  it_id item +:+ "-" +:+ it_task_id item +:+ "-"
    +:+ Operation_text (it_operation item) +:+ "-"
    +:+ string_of_Z (it_created_at item).

(** [Array.prototype.join] *)
Fixpoint join (sep : string) (l : list string) : string :=
  match l with
  | [] => EmptyString
  | [s] => s
  | s :: l' => s +:+ sep +:+ join sep l'
  end.

Definition batch_text (items : list SyncQueueItem) : string :=
  join "|" (List.map item_text items).

Definition createBatchChecksum (items : list SyncQueueItem) : string :=
  md5_hex rt (batch_text items).

Inductive WinnerSource : Type := client | server.

Definition mergeTasks (winner loser : gmap string jsval)
    (winnerSource : WinnerSource) : M World (gmap string jsval) :=
  let* last_synced_at := new_Date in
  let* updated_at := new_Date in
  ret (<["updated_at" := JDate (Some updated_at)]>
       (<["last_synced_at" := JDate (Some last_synced_at)]>
        (<["sync_status" := JStr "synced"]>
         (<["server_id" := prop winner "server_id"]>
          (<["id" := match winnerSource with
                     | server => prop winner "id"
                     | client => prop loser "id"
                     end]>
           (spread loser winner)))))).

(** [a === b] and [a > b] on the time values of two Dates, NaN comparing
    false. *)
Definition time_eq (a b : option Z) : bool :=
  match a, b with
  | Some x, Some y => x =? y
  | _, _ => false
  end.

Definition time_gt (a b : option Z) : bool :=
  match a, b with
  | Some x, Some y => y <? x
  | _, _ => false
  end.

Definition resolveConflictWithPriority (localTask : gmap string jsval)
    (serverTask : option (gmap string jsval)) : M World (gmap string jsval) :=
  match serverTask with
  | None =>
      throw "Cannot read properties of undefined (reading 'updated_at')"
  | Some serverTask =>
      let localTime :=
        newDate (Date_parse rt) (prop localTask "updated_at") in
      let serverTime :=
        newDate (Date_parse rt) (prop serverTask "updated_at") in
      if time_eq localTime serverTime then
        mergeTasks localTask serverTask client
      else if time_gt localTime serverTime then
        mergeTasks localTask serverTask client
      else
        mergeTasks serverTask localTask server
  end.

Definition removeFromSyncQueue (syncId : string) : M World unit :=
  db_run (delete_queue syncId).

Definition nonempty (s : option string) : bool :=
  match s with
  | Some x => negb (String.eqb x EmptyString)
  | None => false
  end.

Definition handleSyncSuccess (item : SyncQueueItem)
    (serverId : option string) (resolvedTask : option (gmap string jsval))
    : M World unit :=
  do* match resolvedTask with
      | Some task => updateTaskFromSync (it_task_id item) task
      | None =>
          if nonempty serverId
          then markAsSynced (it_task_id item) serverId
          else ret tt
      end in
  removeFromSyncQueue (it_id item).

(** [failed_at] is not in the INSERT: the column defaults to
    CURRENT_TIMESTAMP, one more reading of the clock. *)
Definition moveToDeadLetterQueue (item : SyncQueueItem) (message : string)
    : M World unit :=
  let* failed_at := new_Date in
  do* db_run_checked
        (insert_dead_letter
           {| d_id := "dlq_" +:+ it_id item;
              d_task_id := it_task_id item;
              d_operation := it_operation item;
              d_data := JSON_stringify (Date_toISOString rt) (it_data item);
              d_created_at := it_created_at item;
              d_retry_count := it_retry_count item;
              d_error_message := message;
              d_failed_at := failed_at;
              d_original_sync_queue_id := it_id item |}) in
  removeFromSyncQueue (it_id item).

Definition handleSyncError (item : SyncQueueItem) (message : string)
    : M World unit :=
  let newRetryCount := it_retry_count item + 1 in
  if maxRetries this <=? newRetryCount then
    do* moveToDeadLetterQueue item message in
    markSyncFailed (it_task_id item)
  else
    do* db_run (update_queue_retry newRetryCount message (it_id item)) in
    markSyncError (it_task_id item).

(** [e || 'Unknown error'] *)
Definition or_unknown (e : option string) : string :=
  match e with
  | Some s => if String.eqb s EmptyString then "Unknown error" else s
  | None => "Unknown error"
  end.

Definition count_synced (r : SyncResult) : SyncResult :=
  set_synced_items (synced_items r + 1) r.

Definition count_failed (r : SyncResult) : SyncResult :=
  set_failed_items (failed_items r + 1) r.

Definition item_error (item : SyncQueueItem) (message : string) (ts : Z)
    : SyncError :=
  {| se_task_id := it_task_id item;
     se_operation := Operation_text (it_operation item);
     se_error := message;
     se_timestamp := ts |}.

(** [for (let i = 0; i < l.length; i++) { await body(i, l[i]) }] *)
Fixpoint for_index {St A} (i : nat) (l : list A)
    (body : nat → A → M St unit) : M St unit :=
  match l with
  | [] => ret tt
  | x :: l' => do* body i x in for_index (S i) l' body
  end.

(** One turn of the loop over the items of an answered batch. *)
Definition reconcile_item (serverResponse : BatchSyncResponse) (i : nat)
    (item : SyncQueueItem) : M (World * SyncResult) unit :=
  match processed_items serverResponse with
  | None =>
      throw ("Cannot read properties of undefined (reading '"
               +:+ string_of_Z (Z.of_nat i) +:+ "')")
  | Some processed =>
      match mjoin (processed !! i) with
      | None =>
          do* lift (handleSyncError item "No response from server") in
          update_local count_failed
      | Some processedItem =>
          match status processedItem with
          | status_success =>
              do* lift (handleSyncSuccess item (server_id processedItem)
                          (resolved_data processedItem)) in
              update_local count_synced
          | status_conflict =>
              let* resolvedTask :=
                lift (resolveConflictWithPriority (it_data item)
                        (resolved_data processedItem)) in
              do* lift (handleSyncSuccess item (server_id processedItem)
                          (Some resolvedTask)) in
              do* update_local count_synced in
              let* ts := lift new_Date in
              update_local
                (push_errors
                   [item_error item
                      "Conflict resolved using last-write-wins" ts])
          | status_error =>
              let message := or_unknown (error processedItem) in
              do* lift (handleSyncError item message) in
              do* update_local count_failed in
              let* ts := lift new_Date in
              update_local (push_errors [item_error item message ts])
          end
      end
  end.

Definition processBatchWithChecksum (items : list SyncQueueItem)
    : M World SyncResult :=
  let checksum := createBatchChecksum items in
  let* client_timestamp := new_Date in
  let batchRequest :=
    {| items := items; client_timestamp := client_timestamp |} in
  with_local empty_result
    (do* try_catch
           (let* serverResponse := lift (post_batch batchRequest checksum) in
            for_index 0 items (reconcile_item serverResponse))
           (fun message =>
              for_of items
                (fun item =>
                   do* lift (handleSyncError item message) in
                   do* update_local count_failed in
                   let* ts := lift new_Date in
                   update_local (push_errors [item_error item message ts]))) in
     update_local (fun r => set_success (failed_items r =? 0) r)).

Definition checkConnectivity : M World bool :=
  try_catch (do* get_health in ret true) (fun _ => ret false).

(** The [try] block of [sync], on the world and the [result] object. *)
Definition sync_try : M (World * SyncResult) unit :=
  let* online := lift checkConnectivity in
  if negb online then throw "No network connectivity"
  else
    let* pendingItems := lift getPendingSyncItemsChronological in
    do* update_local (set_synced_items (Z.of_nat (length pendingItems))) in
    if Z.of_nat (length pendingItems) =? 0 then ret tt
    else
      do* lift (markItemsAsInProgress pendingItems) in
      let batches := createChronologicalBatches pendingItems in
      do* for_of batches
            (fun batch =>
               let* batchResult := lift (processBatchWithChecksum batch) in
               do* update_local
                     (fun r =>
                        set_synced_items
                          (synced_items r + synced_items batchResult) r) in
               do* update_local
                     (fun r =>
                        set_failed_items
                          (failed_items r + failed_items batchResult) r) in
               if 0 <? Z.of_nat (length (errors batchResult))
               then update_local (push_errors (errors batchResult))
               else ret tt) in
      update_local (fun r => set_success (failed_items r =? 0) r).

Definition sync_catch (message : string) : M (World * SyncResult) unit :=
  do* update_local (set_success false) in
  let* ts := lift new_Date in
  update_local
    (push_errors
       [{| se_task_id := "global"; se_operation := "sync";
           se_error := message; se_timestamp := ts |}]).

Definition sync : M World SyncResult :=
  with_local empty_result (try_catch sync_try sync_catch).

Definition addToSyncQueue (taskId : string) (operation : Operation)
    (data : gmap string jsval) : M World unit :=
  let* now_ms := new_Date in
  let* suffix := random_suffix in
  let* created_at := new_Date in
  db_run_checked
    (insert_queue
       {| q_id := "sync_" +:+ string_of_Z now_ms +:+ "_" +:+ suffix;
          q_task_id := taskId;
          q_operation := operation;
          q_data := JSON_stringify (Date_toISOString rt) data;
          q_created_at := created_at;
          q_retry_count := 0;
          q_error_message := None;
          q_sync_status := None |}).

(** SQLite's order on stored values: NULL, then numbers, then text. *)
Definition sql_leb (a b : sqlval) : bool :=
  match a, b with
  | SqlNull, _ => true
  | _, SqlNull => false
  | SqlInt x, SqlInt y => x <=? y
  | SqlInt _, SqlText _ => true
  | SqlText _, SqlInt _ => false
  | SqlText x, SqlText y => String.leb x y
  end.

(** SELECT MAX(last_synced_at) as last_sync FROM tasks
    WHERE last_synced_at IS NOT NULL *)
Definition max_last_synced_at (d : Database) : sqlval :=
  fold_left (fun acc v => if sql_leb acc v then v else acc)
    (List.map t_last_synced_at (tasks d)) SqlNull.

Definition sql_to_js (v : sqlval) : jsval :=
  match v with
  | SqlNull => JNull
  | SqlInt n => JNum n
  | SqlText s => JStr s
  end.

Definition getSyncStatus : M World SyncStatus.t :=
  let* pending := db_query (count_pending (maxRetries this)) in
  let* deadLetter := db_query count_dead_letter in
  let* last_sync := db_query max_last_synced_at in
  ret {| SyncStatus.pending := pending;
         SyncStatus.inProgress := 0;
         SyncStatus.errors := 0;
         SyncStatus.deadLetter := deadLetter;
         SyncStatus.lastSync :=
           if truthy (sql_to_js last_sync)
           then Some (newDate (Date_parse rt) (sql_to_js last_sync))
           else None |}.

End Service.


(* ================================================================== *)
(** * Vocabulary of the statements *)
(* ================================================================== *)

(** ** Draining *)

(** The order of ORDER BY task_id, created_at ASC on the stored columns:
    [task_id] bytewise, then the text of [created_at] bytewise. *)
Definition stored_before (toISO : Z → string) (a b : QueueRow) : Prop :=
  String.compare (q_task_id a) (q_task_id b) = Lt
  ∨ (q_task_id a = q_task_id b
     ∧ String.leb (toISO (q_created_at a)) (toISO (q_created_at b)) = true).

Definition row_before (toISO : Z → string) (a b : QueueRow) : Prop :=
  order_leb toISO a b = true.

(** The texts of the instants of [l] compare as the instants do.  The ISO
    text of [toISOString] does so between the years 0000 and 9999, where
    it has a fixed width. *)
Definition text_order_agrees (toISO : Z → string) (l : list Z) : Prop :=
  Forall
    (fun a =>
       Forall (fun b => String.compare (toISO a) (toISO b) = (a ?= b)) l)
    l.

(** The items a pass started in [w] drains. *)
Definition drained (rt : Runtime) (this : SyncService) (w : World)
    : list SyncQueueItem :=
  List.map row_to_item
    (select_pending (Date_toISOString rt) (maxRetries this) (db w)).

(** ** Conflict resolution *)

(** The properties [mergeTasks] writes itself, after the two spreads. *)
Definition written_keys : list string :=
  ["id"; "server_id"; "sync_status"; "last_synced_at"; "updated_at"].

(** What a merge won by the client holds: the local value of every property
    the local version has, the remote value of the properties only the
    remote version has, the remote [id] and the local [server_id]. *)
Definition client_wins (localTask serverTask merged : gmap string jsval)
    : Prop :=
  (∀ k, k ∉ written_keys → is_Some (localTask !! k) →
     merged !! k = localTask !! k)
  ∧ (∀ k, k ∉ written_keys → localTask !! k = None →
     merged !! k = serverTask !! k)
  ∧ merged !! "id" = Some (prop serverTask "id")
  ∧ merged !! "server_id" = Some (prop localTask "server_id").

(** ** Retry and escalation *)

(** The dead-letter row written for a queue entry. *)
Definition dead_letter_of (row : QueueRow) (message : string)
    (failed_at : Z) : DeadLetterRow :=
  {| d_id := "dlq_" +:+ q_id row;
     d_task_id := q_task_id row;
     d_operation := q_operation row;
     d_data := q_data row;
     d_created_at := q_created_at row;
     d_retry_count := q_retry_count row;
     d_error_message := message;
     d_failed_at := failed_at;
     d_original_sync_queue_id := q_id row |}.

(** The world after an escalation of [row] started in [w]. *)
Definition escalated (rt : Runtime) (row : QueueRow) (message : string)
    (w : World) : World :=
  {| db :=
       update_tasks
         (set_sync_status rt "failed" (Date_now rt (S (calls w))))
         (q_task_id row)
         (delete_queue (q_id row)
            (set_dead_letter
               (sync_dead_letter_queue (db w)
                  ++ [dead_letter_of row message (Date_now rt (calls w))])
               (db w)));
     calls := S (S (calls w));
     outbox := outbox w |}.

(** The world after a failure of [row] that leaves it in the queue. *)
Definition retried (rt : Runtime) (row : QueueRow) (message : string)
    (w : World) : World :=
  {| db :=
       update_tasks (set_sync_status rt "error" (Date_now rt (calls w)))
         (q_task_id row)
         (update_queue_retry (q_retry_count row + 1) message (q_id row)
            (db w));
     calls := S (calls w);
     outbox := outbox w |}.

(** No dead-letter row already has the id the escalation of [id] uses. *)
Definition dead_letter_free (id : string) (w : World) : Prop :=
  existsb (fun r => String.eqb (d_id r) ("dlq_" +:+ id))
    (sync_dead_letter_queue (db w)) = false.

(** ** The pass *)

(** The error entry the [catch] block of [sync] adds. *)
Definition global_error (message : string) (ts : Z) : SyncError :=
  {| se_task_id := "global"; se_operation := "sync";
     se_error := message; se_timestamp := ts |}.

Definition no_status_column (w : World) : Prop :=
  "sync_status" ∉ sync_queue_columns (db w).

Definition refusal : string := "SQLITE_ERROR: no such column: sync_status".

(** [k] passes in a row, whatever each returns. *)
Fixpoint sync_times (rt : Runtime) (this : SyncService) (k : nat) (w : World)
    : World :=
  match k with
  | O => w
  | S k' => sync_times rt this k' (fst (sync rt this w))
  end.

(** The world of a new store: [createTables] has run, nothing else. *)
Definition new_world : World :=
  {| db := createTables; calls := 0; outbox := [] |}.

(** The queue entry [addToSyncQueue] writes into the new store. *)
Definition enqueued (rt : Runtime) (taskId : string) (operation : Operation)
    (data : gmap string jsval) : QueueRow :=
  {| q_id := "sync_" +:+ string_of_Z (Date_now rt 0) +:+ "_"
             +:+ Math_random rt 1;
     q_task_id := taskId;
     q_operation := operation;
     q_data := JSON_stringify (Date_toISOString rt) data;
     q_created_at := Date_now rt 2;
     q_retry_count := 0;
     q_error_message := None;
     q_sync_status := None |}.

Definition after_enqueue (rt : Runtime) (taskId : string)
    (operation : Operation) (data : gmap string jsval) : World :=
  {| db := set_sync_queue [enqueued rt taskId operation data] createTables;
     calls := 3; outbox := [] |}.

(** The queue entry once a pass has marked it. *)
Definition marked (row : QueueRow) : QueueRow :=
  {| q_id := q_id row; q_task_id := q_task_id row;
     q_operation := q_operation row; q_data := q_data row;
     q_created_at := q_created_at row; q_retry_count := q_retry_count row;
     q_error_message := q_error_message row;
     q_sync_status := Some "in-progress" |}.

(** The world in which the outcome of a rejected one-item batch is handled:
    the probe has answered, the entry is marked, the batch is sent. *)
Definition dispatched (rt : Runtime) (row : QueueRow) (w : World) : World :=
  {| db := set_sync_queue [marked row] (db w);
     calls := S (S (S (calls w)));
     outbox :=
       outbox w
         ++ [({| items := [row_to_item row];
                 client_timestamp := Date_now rt (S (calls w)) |},
              createBatchChecksum rt [row_to_item row])] |}.

(** The queue entry after [k] rejected dispatches. *)
Definition row_at (message : string) (row : QueueRow) (k : nat) : QueueRow :=
  match k with
  | O => row
  | S _ =>
      {| q_id := q_id row; q_task_id := q_task_id row;
         q_operation := q_operation row; q_data := q_data row;
         q_created_at := q_created_at row; q_retry_count := Z.of_nat k;
         q_error_message := Some message;
         q_sync_status := Some "in-progress" |}
  end.

(** ** The checksum *)





(* ================================================================== *)
(** * Data of the concrete runs *)
(* ================================================================== *)

Module Data.

(** A runtime whose clock advances one millisecond per outside call and
    whose remote answers every batch with [reply]; [reachable] is the
    answer of the health probe.  Only two date texts are known to the
    parser, and the digest of a text is the text. *)
Definition runtime (reachable : bool) (reply : PostReply) : Runtime :=
  {| Date_now := fun n => 1700000000000 + Z.of_nat n;
     Math_random := fun _ => "k3j9x0ab1";
     Date_toISOString := string_of_Z;
     Date_parse := fun s =>
       if String.eqb s "2024-05-01T10:00:00.010Z" then Some 1714557600010
       else if String.eqb s "2024-05-01T10:00:00.000Z" then Some 1714557600000
       else None;
     md5_hex := fun s => s;
     axios_get := fun _ => reachable;
     axios_post := fun _ _ _ => reply |}.

Definition accepted : PostReply :=
  PostResolved
    {| processed_items :=
         Some [Some {| client_id := "task-1"; server_id := Some "srv_1";
                       status := status_success; resolved_data := None;
                       error := None |}] |}.

Definition item (id task : string) (created_at : Z) : SyncQueueItem :=
  {| it_id := id; it_task_id := task; it_operation := update;
     it_data := ∅; it_created_at := created_at; it_retry_count := 0;
     it_error_message := None |}.

Definition three_items : list SyncQueueItem :=
  [item "q1" "task-1" 10; item "q2" "task-1" 20; item "q3" "task-2" 5].


(** A store whose [sync_queue] also has a [sync_status] column. *)
Definition store_with_status_column : Database :=
  {| tasks := []; sync_queue := []; sync_dead_letter_queue := [];
     sync_queue_columns := "sync_status" :: sync_queue_columns createTables |}.

Definition local_version : gmap string jsval :=
  {[ "id" := JStr "task-1"; "title" := JStr "Local title";
     "completed" := JBool true;
     "updated_at" := JStr "2024-05-01T10:00:00.010Z" ]}.

Definition remote_version : gmap string jsval :=
  {[ "id" := JStr "srv_77"; "title" := JStr "Server title";
     "description" := JStr "kept on the server";
     "server_id" := JStr "srv_77";
     "updated_at" := JStr "2024-05-01T10:00:00.000Z" ]}.

Definition exhausted_row : QueueRow :=
  {| q_id := "sync_1_a"; q_task_id := "task-1"; q_operation := update;
     q_data := {[ "title" := JsonStr "Updated Title" ]};
     q_created_at := 1700000000000; q_retry_count := 2;
     q_error_message := Some "Network Error"; q_sync_status := None |}.

Definition task_row (id status : string) : TaskRow :=
  {| t_id := id; t_title := SqlText "Task"; t_description := SqlText EmptyString;
     t_completed := SqlInt 0; t_created_at := SqlText "1700000000000";
     t_updated_at := SqlText "1700000000000"; t_is_deleted := SqlInt 0;
     t_sync_status := SqlText status; t_server_id := SqlNull;
     t_last_synced_at := SqlNull |}.

Definition world_with_exhausted_row : World :=
  {| db := {| tasks := [task_row "task-1" "error"; task_row "task-2" "pending"];
              sync_queue := [exhausted_row];
              sync_dead_letter_queue := [];
              sync_queue_columns := sync_queue_columns createTables |};
     calls := 0; outbox := [] |}.

Definition new_row : QueueRow :=
  {| q_id := "sync_1_a"; q_task_id := "task-1"; q_operation := update;
     q_data := {[ "title" := JsonStr "Updated Title" ]};
     q_created_at := 1700000000000; q_retry_count := 0;
     q_error_message := None; q_sync_status := None |}.

Definition world_with_status_column : World :=
  {| db := {| tasks := [task_row "task-1" "pending"];
              sync_queue := [new_row];
              sync_dead_letter_queue := [];
              sync_queue_columns :=
                "sync_status" :: sync_queue_columns createTables |};
     calls := 0; outbox := [] |}.

(** The text [toISOString] gives for four instants: two in 2024, the last
    millisecond of the year 9999 and the first of the year 10000, which
    takes the expanded form with a sign and six digits.  Other instants get
    their decimal text. *)
Definition iso_text (t : Z) : string :=
  if t =? 1714557600000 then "2024-05-01T10:00:00.000Z"
  else if t =? 1714557600010 then "2024-05-01T10:00:00.010Z"
  else if t =? 253402300799999 then "9999-12-31T23:59:59.999Z"
  else if t =? 253402300800000 then "+010000-01-01T00:00:00.000Z"
  else string_of_Z t.

(** [runtime true accepted] with these texts. *)
Definition runtime_with_iso_text : Runtime :=
  {| Date_now := fun n => 1700000000000 + Z.of_nat n;
     Math_random := fun _ => "k3j9x0ab1";
     Date_toISOString := iso_text;
     Date_parse := fun s =>
       if String.eqb s "2024-05-01T10:00:00.010Z" then Some 1714557600010
       else if String.eqb s "2024-05-01T10:00:00.000Z" then Some 1714557600000
       else None;
     md5_hex := fun s => s;
     axios_get := fun _ => true;
     axios_post := fun _ _ _ => accepted |}.

Definition queued (id task : string) (created_at retries : Z) : QueueRow :=
  {| q_id := id; q_task_id := task; q_operation := update; q_data := ∅;
     q_created_at := created_at; q_retry_count := retries;
     q_error_message := None; q_sync_status := None |}.

(** A queue of four entries written in 2024, one of them out of retries. *)
Definition world_of_2024 : World :=
  {| db := set_sync_queue
             [queued "q1" "task-2" 1714557600010 0;
              queued "q2" "task-1" 1714557600010 0;
              queued "q3" "task-1" 1714557600000 3;
              queued "q4" "task-1" 1714557600000 1] createTables;
     calls := 0; outbox := [] |}.

(** Two entries of one task, written one millisecond apart across the end
    of the year 9999, the earlier first. *)
Definition world_of_9999 : World :=
  {| db := set_sync_queue
             [queued "q1" "task-1" 253402300799999 0;
              queued "q2" "task-1" 253402300800000 0] createTables;
     calls := 0; outbox := [] |}.

(** A remote version with the [updated_at] of [local_version]. *)
Definition tied_version : gmap string jsval :=
  {[ "id" := JStr "srv_77"; "title" := JStr "Server title";
     "server_id" := JStr "srv_77";
     "updated_at" := JStr "2024-05-01T10:00:00.010Z" ]}.

(** A store in which the exhausted entry is queued while a dead-letter row
    already has the id its escalation would use. *)
Definition world_with_stale_dead_letter : World :=
  {| db := {| tasks := [task_row "task-1" "error"];
              sync_queue := [exhausted_row];
              sync_dead_letter_queue :=
                [{| d_id := "dlq_sync_1_a"; d_task_id := "task-1";
                    d_operation := update;
                    d_data := {[ "title" := JsonStr "Updated Title" ]};
                    d_created_at := 1700000000000; d_retry_count := 2;
                    d_error_message := "Network Error";
                    d_failed_at := 1699999999000;
                    d_original_sync_queue_id := "sync_1_a" |}];
              sync_queue_columns := sync_queue_columns createTables |};
     calls := 0; outbox := [] |}.

End Data.


(* ================================================================== *)
(** * More of the services *)
(* ================================================================== *)

(** ORDER BY with the order [leb]; rows that compare equal keep their table
    order. *)
Fixpoint insert_with {A} (leb : A → A → bool) (x : A) (l : list A) : list A :=
  match l with
  | [] => [x]
  | y :: l' => if leb x y then x :: l else y :: insert_with leb x l'
  end.

Fixpoint sort_with {A} (leb : A → A → bool) (l : list A) : list A :=
  match l with
  | [] => []
  | x :: l' => insert_with leb x (sort_with leb l')
  end.

(** SELECT * FROM sync_dead_letter_queue ORDER BY failed_at DESC *)
Definition newer_first (a b : DeadLetterRow) : bool :=
  d_failed_at b <=? d_failed_at a.

Definition select_dead_letters (d : Database) : list DeadLetterRow :=
  sort_with newer_first (sync_dead_letter_queue d).

Definition dead_letter_to_item (row : DeadLetterRow) : SyncQueueItem :=
  {| it_id := d_id row;
     it_task_id := d_task_id row;
     it_operation := d_operation row;
     it_data := JSON_parse (d_data row);
     it_created_at := d_created_at row;
     it_retry_count := d_retry_count row;
     it_error_message := Some (d_error_message row) |}.

(** [SyncService.getDeadLetterQueue] *)
Definition getDeadLetterQueue : M World (list SyncQueueItem) :=
  let* rows := db_query select_dead_letters in
  ret (List.map dead_letter_to_item rows).

(** INSERT INTO tasks (...): [id] is the primary key. *)
Definition insert_task (r : TaskRow) (d : Database) : Database + string :=
  if existsb (fun r' => String.eqb (t_id r') (t_id r)) (tasks d) then
    inr "SQLITE_CONSTRAINT: UNIQUE constraint failed: tasks.id"
  else inl (set_tasks (tasks d ++ [r]) d).

(** [is_deleted = 0] *)
Definition not_deleted (r : TaskRow) : bool :=
  match t_is_deleted r with
  | SqlInt n => n =? 0
  | _ => false
  end.

(** SELECT * FROM tasks WHERE id = ? AND is_deleted = 0, first row *)
Definition select_task (id : string) (d : Database) : option TaskRow :=
  List.find (fun r => String.eqb (t_id r) id && not_deleted r) (tasks d).

(** ORDER BY created_at DESC *)
Definition created_later_first (a b : TaskRow) : bool :=
  sql_leb (t_created_at b) (t_created_at a).

(** SELECT * FROM tasks WHERE is_deleted = 0 ORDER BY created_at DESC *)
Definition select_all_tasks (d : Database) : list TaskRow :=
  sort_with created_later_first (List.filter not_deleted (tasks d)).

(** The argument of [createTask]. *)
Record TaskData : Type := mkTaskData {
  td_title : string;
  td_description : option string
}.

Section TaskService.
Variable rt : Runtime.
(** [uuidv4()], by the number of outside calls made so far. *)
Variable uuidv4 : nat → string.

Definition new_uuid : M World string :=
  fun w => (tick w, Returned (uuidv4 (calls w))).

(** The Date [new Date(v)] of a column value. *)
Definition column_Date (v : sqlval) : jsval :=
  JDate (newDate (Date_parse rt) (sql_to_js v)).

Definition mapRowToTask (row : TaskRow) : gmap string jsval :=
  {[ "id" := JStr (t_id row);
     "title" := sql_to_js (t_title row);
     "description" := sql_to_js (t_description row);
     "completed" := JBool (truthy (sql_to_js (t_completed row)));
     "created_at" := column_Date (t_created_at row);
     "updated_at" := column_Date (t_updated_at row);
     "is_deleted" := JBool (truthy (sql_to_js (t_is_deleted row)));
     "sync_status" := sql_to_js (t_sync_status row);
     "server_id" := sql_to_js (t_server_id row);
     "last_synced_at" :=
       if truthy (sql_to_js (t_last_synced_at row))
       then column_Date (t_last_synced_at row)
       else JNull ]}.

(** The [task] object [createTask] builds. *)
Definition new_task (taskId : string) (taskData : TaskData) (now : Z)
    : gmap string jsval :=
  {[ "id" := JStr taskId;
     "title" := JStr (td_title taskData);
     "description" := JStr (default EmptyString (td_description taskData));
     "completed" := JBool false;
     "created_at" := JDate (Some now);
     "updated_at" := JDate (Some now);
     "is_deleted" := JBool false;
     "sync_status" := JStr "pending";
     "server_id" := JNull;
     "last_synced_at" := JNull ]}.

(** The row [createTask] inserts. *)
Definition new_task_row (taskId : string) (taskData : TaskData) (now : Z)
    : TaskRow :=
  {| t_id := taskId;
     t_title := SqlText (td_title taskData);
     t_description := SqlText (default EmptyString (td_description taskData));
     t_completed := SqlInt 0;
     t_created_at := SqlText (Date_toISOString rt now);
     t_updated_at := SqlText (Date_toISOString rt now);
     t_is_deleted := SqlInt 0;
     t_sync_status := SqlText "pending";
     t_server_id := SqlNull;
     t_last_synced_at := SqlNull |}.

Definition createTask (taskData : TaskData) : M World (gmap string jsval) :=
  let* taskId := new_uuid in
  let* now := new_Date rt in
  do* db_run_checked (insert_task (new_task_row taskId taskData now)) in
  ret (new_task taskId taskData now).

Definition getTask (id : string) : M World (option (gmap string jsval)) :=
  let* row := db_query (select_task id) in
  ret (option_map mapRowToTask row).

Definition getAllTasks : M World (list (gmap string jsval)) :=
  let* rows := db_query select_all_tasks in
  ret (List.map mapRowToTask rows).

(** [{...existingTask, ...updates, updated_at: now, sync_status: 'pending'}] *)
Definition updated_task (existingTask updates : gmap string jsval) (now : Z)
    : gmap string jsval :=
  <["sync_status" := JStr "pending"]>
    (<["updated_at" := JDate (Some now)]> (spread existingTask updates)).

(** UPDATE tasks SET title = ?, description = ?, completed = ?,
    updated_at = ?, sync_status = ? WHERE id = ? *)
Definition update_task_row (updatedTask : gmap string jsval) (now : Z)
    (r : TaskRow) : TaskRow :=
  {| t_id := t_id r;
     t_title := text_affinity (bind_param (prop updatedTask "title"));
     t_description :=
       text_affinity (bind_param (prop updatedTask "description"));
     t_completed :=
       SqlInt (if truthy (prop updatedTask "completed") then 1 else 0);
     t_created_at := t_created_at r;
     t_updated_at := SqlText (Date_toISOString rt now);
     t_is_deleted := t_is_deleted r;
     t_sync_status :=
       text_affinity (bind_param (prop updatedTask "sync_status"));
     t_server_id := t_server_id r;
     t_last_synced_at := t_last_synced_at r |}.

Definition updateTask (id : string) (updates : gmap string jsval)
    : M World (option (gmap string jsval)) :=
  let* existingTask := getTask id in
  match existingTask with
  | None => ret None
  | Some existingTask =>
      let* now := new_Date rt in
      let updatedTask := updated_task existingTask updates now in
      do* db_run_checked
            (fun d =>
               if is_null (bind_param (prop updatedTask "title"))
                  && existsb (fun r => String.eqb (t_id r) id) (tasks d)
               then
                 inr "SQLITE_CONSTRAINT: NOT NULL constraint failed: tasks.title"
               else inl (update_tasks (update_task_row updatedTask now) id d)) in
      ret (Some updatedTask)
  end.

(** UPDATE tasks SET is_deleted = 1, updated_at = ?, sync_status = 'pending'
    WHERE id = ? *)
Definition delete_task_row (now : Z) (r : TaskRow) : TaskRow :=
  {| t_id := t_id r; t_title := t_title r;
     t_description := t_description r; t_completed := t_completed r;
     t_created_at := t_created_at r;
     t_updated_at := SqlText (Date_toISOString rt now);
     t_is_deleted := SqlInt 1;
     t_sync_status := SqlText "pending";
     t_server_id := t_server_id r;
     t_last_synced_at := t_last_synced_at r |}.

Definition deleteTask (id : string) : M World bool :=
  let* existingTask := getTask id in
  match existingTask with
  | None => ret false
  | Some _ =>
      let* now := new_Date rt in
      do* db_run (update_tasks (delete_task_row now) id) in
      ret true
  end.

End TaskService.

(* ================================================================== *)
(** * The DELETE route of [src/routes/tasks.ts] *)
(* ================================================================== *)

(** What a handler sends: [res.status(204).send()], or an error body with
    its status. *)
Inductive Reply : Type :=
| NoContent
| ErrorReply (status : Z) (error : string) (timestamp : string).

Section Routes.
Variable rt : Runtime.

(** [res.status(status).json({ error, timestamp: new Date().toISOString(),
    path: req.path })] *)
Definition error_reply (status : Z) (error : string) : M World Reply :=
  let* now := new_Date rt in
  ret (ErrorReply status error (Date_toISOString rt now)).

(** [router.delete('/:id', ...)] with [req.params.id = id]. *)
Definition delete_route (id : string) : M World Reply :=
  try_catch
    (let* existingTask := getTask rt id in
     match existingTask with
     | None => error_reply 404 "Task not found"
     | Some existingTask =>
         let* success := deleteTask rt id in
         if negb success then error_reply 404 "Task not found"
         else
           do* addToSyncQueue rt id delete existingTask in
           ret NoContent
     end)
    (fun _ => error_reply 500 "Failed to delete task").

End Routes.

(* ================================================================== *)
(** * The reference endpoint [POST /batch] of [src/routes/sync.ts] *)
(* ================================================================== *)

(** A value found in a request body, as far as the handler can tell values
    apart: it copies them, tests whether they are truthy, compares the
    operation with three strings and puts them into template literals.
    [VUndefined] is what reading a missing member gives; [VOther] is any
    number, object or array, with its truthiness and its text in a
    template literal. *)
Inductive received : Type :=
| VUndefined
| VNull
| VBool (b : bool)
| VStr (s : string)
| VOther (truthy : bool) (text : string).

(** ToBoolean. *)
Definition is_truthy (v : received) : bool :=
  match v with
  | VUndefined | VNull => false
  | VBool b => b
  | VStr s => negb (String.eqb s EmptyString)
  | VOther t _ => t
  end.

(** [`${v}`] *)
Definition template_text (v : received) : string :=
  match v with
  | VUndefined => "undefined"
  | VNull => "null"
  | VBool true => "true"
  | VBool false => "false"
  | VStr s => s
  | VOther _ text => text
  end.

(** [a || b] *)
Definition or_else (a b : received) : received :=
  if is_truthy a then a else b.

(** [item.data]: reading a member of [undefined] or [null] throws; any
    other value has the members of [data_members], a missing one reading
    as [undefined]. *)
Inductive ReceivedData : Type :=
| data_undefined
| data_null
| data_members (members : gmap string received).

(** What the handler reads of an item that is not [null]. *)
Record ItemMembers : Type := mkItemMembers {
  r_task_id : received;
  r_operation : received;
  r_data : ReceivedData
}.

(** An element of the [items] array of a request body. *)
Inductive ReceivedItem : Type :=
| item_null
| item_value (members : ItemMembers).

(** A value of a reply: one taken from the request, or a Date made by the
    handler. *)
Inductive replied : Type :=
| RGiven (v : received)
| RDate (t : Z).

(** The [resolved_data] member of an outcome. *)
Inductive Resolved : Type :=
| resolved_absent
| resolved_null
| resolved_task (task : gmap string replied).

(** An element of [processed_items], as the handler builds it. *)
Record Outcome : Type := mkOutcome {
  o_client_id : received;
  o_server_id : received;
  o_status : Status;
  o_resolved_data : Resolved;
  o_error : option string
}.

(** What the handler sends: [res.json({ processed_items })], or an error
    body with its status. *)
Inductive BatchReply : Type :=
| BatchOk (processed : list Outcome)
| BatchError (status : Z) (error : string) (timestamp : string).

(** The operation a [case] of the [switch] matches. *)
Definition operation_of (v : received) : option Operation :=
  match v with
  | VStr s =>
      if String.eqb s "create" then Some create
      else if String.eqb s "update" then Some update
      else if String.eqb s "delete" then Some delete
      else None
  | _ => None
  end.

Section BatchRoute.
Variable rt : Runtime.
(** [Math.random() < 0.1], by the number of outside calls made so far. *)
Variable random_below_tenth : nat → bool.
(** The message of the TypeError for reading the member [name] of
    [undefined] ([false]) or of [null] ([true]). *)
Variable TypeError_message : bool → string → string.

Definition draw_conflict : M World bool :=
  fun w => (tick w, Returned (random_below_tenth (calls w))).

(** [`srv_${Date.now()}_${Math.random().toString(36).substr(2, 9)}`] *)
Definition new_server_id : M World string :=
  let* now_ms := new_Date rt in
  let* suffix := random_suffix rt in
  ret ("srv_" +:+ string_of_Z now_ms +:+ "_" +:+ suffix).

(** [item.data.name] *)
Definition read_data (item : ItemMembers) (name : string) : M World received :=
  match r_data item with
  | data_undefined => throw (TypeError_message false name)
  | data_null => throw (TypeError_message true name)
  | data_members members => ret (default VUndefined (members !! name))
  end.

Definition processCreateOperation (item : ItemMembers) : M World Outcome :=
  let* serverId := new_server_id in
  let* now := new_Date rt in
  let* title := read_data item "title" in
  let* description := read_data item "description" in
  ret {| o_client_id := r_task_id item;
         o_server_id := VStr serverId;
         o_status := status_success;
         o_resolved_data :=
           resolved_task
             {[ "id" := RGiven (VStr serverId);
                "title" := RGiven title;
                "description" :=
                  RGiven (or_else description (VStr EmptyString));
                "completed" := RGiven (VBool false);
                "created_at" := RDate now;
                "updated_at" := RDate now;
                "is_deleted" := RGiven (VBool false);
                "sync_status" := RGiven (VStr "synced");
                "server_id" := RGiven (VStr serverId);
                "last_synced_at" := RDate now ]};
         o_error := None |}.

Definition processUpdateOperation (item : ItemMembers) : M World Outcome :=
  let* given_id := read_data item "server_id" in
  let* serverId :=
    if is_truthy given_id then ret given_id
    else let* fresh := new_server_id in ret (VStr fresh) in
  let* now := new_Date rt in
  let* hasConflict := draw_conflict in
  let* title := read_data item "title" in
  let* description := read_data item "description" in
  let* completed := read_data item "completed" in
  let* created_at := read_data item "created_at" in
  if hasConflict then
    let* now_ms := new_Date rt in
    ret {| o_client_id := r_task_id item;
           o_server_id := serverId;
           o_status := status_conflict;
           o_resolved_data :=
             resolved_task
               {[ "id" := RGiven serverId;
                  "title" := RGiven (VStr ("Server " +:+ template_text title));
                  "description" :=
                    RGiven
                      (if is_truthy description
                       then VStr ("Server " +:+ template_text description)
                       else VStr EmptyString);
                  "completed" := RGiven (VBool (negb (is_truthy completed)));
                  "created_at" := RGiven created_at;
                  "updated_at" := RDate (now_ms - 1000 * 60 * 5);
                  "is_deleted" := RGiven (VBool false);
                  "sync_status" := RGiven (VStr "synced");
                  "server_id" := RGiven serverId;
                  "last_synced_at" := RDate now ]};
           o_error := None |}
  else
    ret {| o_client_id := r_task_id item;
           o_server_id := serverId;
           o_status := status_success;
           o_resolved_data :=
             resolved_task
               {[ "id" := RGiven serverId;
                  "title" := RGiven title;
                  "description" :=
                    RGiven (or_else description (VStr EmptyString));
                  "completed" := RGiven (or_else completed (VBool false));
                  "created_at" := RGiven created_at;
                  "updated_at" := RDate now;
                  "is_deleted" := RGiven (VBool false);
                  "sync_status" := RGiven (VStr "synced");
                  "server_id" := RGiven serverId;
                  "last_synced_at" := RDate now ]};
           o_error := None |}.

Definition processDeleteOperation (item : ItemMembers) : M World Outcome :=
  let* given_id := read_data item "server_id" in
  ret {| o_client_id := r_task_id item;
         o_server_id := or_else given_id VNull;
         o_status := status_success;
         o_resolved_data := resolved_null;
         o_error := None |}.

(** The [switch] on [item.operation]. *)
Definition dispatch_operation (item : ItemMembers) : M World Outcome :=
  match operation_of (r_operation item) with
  | Some create => processCreateOperation item
  | Some update => processUpdateOperation item
  | Some delete => processDeleteOperation item
  | None =>
      throw ("Unknown operation: " +:+ template_text (r_operation item))
  end.

(** The inner [try] and its [catch].  For an item that is [null] the read
    of [item.operation] throws, and so does the read of [item.task_id] in
    the [catch] block, whose TypeError leaves the loop. *)
Definition outcome_of (item : ReceivedItem) : M World Outcome :=
  match item with
  | item_null => throw (TypeError_message true "task_id")
  | item_value members =>
      try_catch (dispatch_operation members)
        (fun message =>
           ret {| o_client_id := r_task_id members;
                  o_server_id := VNull;
                  o_status := status_error;
                  o_resolved_data := resolved_absent;
                  o_error := Some message |})
  end.

(** One turn of the loop over the items, on the world and
    [processedItems]. *)
Definition answer_item (item : ReceivedItem)
    : M (World * list Outcome) unit :=
  let* result := lift (outcome_of item) in
  update_local (fun processedItems => processedItems ++ [result]).

(** [router.post('/batch', ...)] on a body that is an object or an array;
    [items] is [None] when the member is missing, falsy or not an array. *)
Definition batch_route (items : option (list ReceivedItem))
    : M World BatchReply :=
  try_catch
    (match items with
     | None =>
         let* now := new_Date rt in
         ret (BatchError 400 "Invalid batch request: items array is required"
                (Date_toISOString rt now))
     | Some items =>
         let* processedItems := with_local [] (for_of items answer_item) in
         ret (BatchOk processedItems)
     end)
    (fun _ =>
       let* now := new_Date rt in
       ret (BatchError 500 "Batch sync failed" (Date_toISOString rt now))).

End BatchRoute.

(* ================================================================== *)
(** * Vocabulary of the further statements *)
(* ================================================================== *)

(** [m] takes every state to a state related to it by [R], whether it
    returns or throws. *)
Definition keeps {St A} (R : St → St → Prop) (m : M St A) : Prop :=
  ∀ s, R s (fst (m s)).

Definition on_world {L} (R : World → World → Prop)
    : World * L → World * L → Prop :=
  fun s s' => R (fst s) (fst s').

Definition on_local {L} (R : L → L → Prop) : World * L → World * L → Prop :=
  fun s s' => R (snd s) (snd s').

Definition same_outbox (w w' : World) : Prop := outbox w' = outbox w.

(** The same mutation, up to its retry bookkeeping. *)
Definition same_mutation (a b : QueueRow) : Prop :=
  q_id a = q_id b ∧ q_task_id a = q_task_id b
  ∧ q_operation a = q_operation b ∧ q_data a = q_data b
  ∧ q_created_at a = q_created_at b.


Definition counts_grow (r r' : SyncResult) : Prop :=
  synced_items r <= synced_items r' ∧ failed_items r <= failed_items r'.

(** The request [processBatchWithChecksum] sends for a batch at [w]. *)
Definition request_of (rt : Runtime) (batch : list SyncQueueItem) (w : World)
    : BatchSyncRequest * string :=
  ({| items := batch; client_timestamp := Date_now rt (calls w) |},
   createBatchChecksum rt batch).

(** The requests sent for [batches] from [w] on: the first batch is sent,
    and the ones after it only if its handling returned, from the world it
    left. *)
Fixpoint sent_batches (rt : Runtime) (this : SyncService)
    (batches : list (list SyncQueueItem)) (w : World)
    : list (BatchSyncRequest * string) :=
  match batches with
  | [] => []
  | batch :: rest =>
      request_of rt batch w
        :: match processBatchWithChecksum rt this batch w with
           | (w', Returned _) => sent_batches rt this rest w'
           | (_, Thrown _) => []
           end
  end.

(** A request that carries the checksum of its own items. *)
Definition well_summed (rt : Runtime) (sent : BatchSyncRequest * string)
    : Prop :=
  snd sent = createBatchChecksum rt (items (fst sent)).

(** The store after error outcomes with [message] for the items [l], in
    order, as far as the queue goes. *)
Definition queue_after_errors (message : string) (l : list SyncQueueItem)
    (d : Database) : Database :=
  fold_left
    (fun d x => update_queue_retry (it_retry_count x + 1) message (it_id x) d)
    l d.

(** The queue entry [r] after an error outcome with [message] for the item
    [x] drained from it. *)
Definition requeued (message : string) (x : SyncQueueItem) (r : QueueRow)
    : QueueRow :=
  {| q_id := q_id r; q_task_id := q_task_id r;
     q_operation := q_operation r; q_data := q_data r;
     q_created_at := q_created_at r;
     q_retry_count := it_retry_count x + 1;
     q_error_message := Some message;
     q_sync_status := q_sync_status r |}.

(** An error entry without its timestamp. *)
Definition error_text (e : SyncError) : string * string * string :=
  (se_task_id e, se_operation e, se_error e).

(** What a merge won by the server holds: the remote value of every
    property the remote version has, the local value of the properties
    only the local version has, and the remote [id] and [server_id]. *)
Definition server_wins (localTask serverTask merged : gmap string jsval)
    : Prop :=
  (∀ k, k ∉ written_keys → is_Some (serverTask !! k) →
     merged !! k = serverTask !! k)
  ∧ (∀ k, k ∉ written_keys → serverTask !! k = None →
     merged !! k = localTask !! k)
  ∧ merged !! "id" = Some (prop serverTask "id")
  ∧ merged !! "server_id" = Some (prop serverTask "server_id").

(** The columns of a task row that [updateTask] does not write. *)
Definition unwritten_columns (r : TaskRow)
    : string * sqlval * sqlval * sqlval * sqlval :=
  (t_id r, t_created_at r, t_is_deleted r, t_server_id r, t_last_synced_at r).



(* ================================================================== *)
(** * Further sample data *)
(* ================================================================== *)

Module Samples.

Import Data.

(** A remote that refuses every batch. *)
Definition refused : PostReply := PostRejected "Network Error".

(** A remote that answers every batch with an empty list of outcomes. *)
Definition unanswered : PostReply :=
  PostResolved {| processed_items := Some [] |}.

(** A remote that answers every batch with one conflict, its own version
    being [remote_version]. *)
Definition conflicting : PostReply :=
  PostResolved
    {| processed_items :=
         Some [Some {| client_id := "task-1"; server_id := Some "srv_77";
                       status := status_conflict;
                       resolved_data := Some remote_version;
                       error := None |}] |}.

(** The store after the escalation of [exhausted_row], with the entry put
    back in the queue. *)
Definition world_with_dead_letter : World :=
  {| db := {| tasks := [task_row "task-1" "failed"];
              sync_queue := [exhausted_row];
              sync_dead_letter_queue :=
                [dead_letter_of exhausted_row "Network Error" 1700000000000];
              sync_queue_columns := sync_queue_columns createTables |};
     calls := 0; outbox := [] |}.

(** A store whose queue holds an entry under the id the next enqueue
    draws. *)
Definition world_with_drawn_id : World :=
  {| db := {| tasks := [task_row "task-1" "pending"];
              sync_queue :=
                [{| q_id := "sync_1700000000000_k3j9x0ab1";
                    q_task_id := "task-1"; q_operation := create;
                    q_data := ∅; q_created_at := 1700000000000;
                    q_retry_count := 0; q_error_message := None;
                    q_sync_status := None |}];
              sync_dead_letter_queue := [];
              sync_queue_columns := sync_queue_columns createTables |};
     calls := 0; outbox := [] |}.

(** A service whose batch size was read from a text that is no number. *)
Definition service_without_size : SyncService :=
  {| maxRetries := 3; batchSize := None |}.

(** A service configured with a batch size of zero. *)
Definition service_with_size_zero : SyncService :=
  {| maxRetries := 3; batchSize := Some 0 |}.

(** A runtime like [runtime] whose parser reads back the text the clock's
    second reading is stored as. *)
Definition runtime_reading_back : Runtime :=
  {| Date_now := fun n => 1700000000000 + Z.of_nat n;
     Math_random := fun _ => "k3j9x0ab1";
     Date_toISOString := string_of_Z;
     Date_parse := fun s =>
       if String.eqb s "1700000000001" then Some 1700000000001 else None;
     md5_hex := fun s => s;
     axios_get := fun _ => true;
     axios_post := fun _ _ _ => accepted |}.

Definition uuid (n : nat) : string := "0b3c1f0e-6a54-4c1e-9d27-5f8a2e4b7c10".

Definition task_data : TaskData :=
  {| td_title := "Write the report"; td_description := None |}.

(** The items of a request body: a create, an operation the endpoint does
    not know, a delete without data and an update that names its server
    id. *)
Definition received_items : list ReceivedItem :=
  [ item_value
      {| r_task_id := VStr "task-1"; r_operation := VStr "create";
         r_data := data_members {[ "title" := VStr "Write the report" ]} |};
    item_value
      {| r_task_id := VStr "task-2"; r_operation := VStr "archive";
         r_data := data_members ∅ |};
    item_value
      {| r_task_id := VStr "task-3"; r_operation := VStr "delete";
         r_data := data_undefined |};
    item_value
      {| r_task_id := VStr "task-4"; r_operation := VStr "update";
         r_data :=
           data_members {[ "title" := VStr "Review";
                           "server_id" := VStr "srv_9" ]} |} ].

(** The message of a TypeError, as recent versions of Node word it. *)
Definition type_error (of_null : bool) (name : string) : string :=
  "Cannot read properties of "
    +:+ (if of_null then "null" else "undefined")
    +:+ " (reading '" +:+ name +:+ "')".

(** A service that sends one item per batch. *)
Definition service_with_size_one : SyncService :=
  {| maxRetries := 3; batchSize := Some 1 |}.

(** A store that accepts the in-progress marking, with two entries of two
    tasks; the first is out of retries after one more failure, and a
    dead-letter row already has the id its escalation would use. *)
Definition world_with_two_entries : World :=
  {| db := {| tasks := [task_row "task-1" "error";
                        task_row "task-2" "pending"];
              sync_queue :=
                [exhausted_row; queued "sync_2_b" "task-2" 1700000000001 0];
              sync_dead_letter_queue :=
                [dead_letter_of exhausted_row "Network Error" 1699999999000];
              sync_queue_columns :=
                "sync_status" :: sync_queue_columns createTables |};
     calls := 0; outbox := [] |}.

End Samples.

(* ================================================================== *)
(** * Theorems: batching *)
(* ================================================================== *)

Section Batches.
Variable this : SyncService.
Variable n : Z.
Hypothesis size_is : batchSize this = Some n.
Hypothesis size_pos : 0 < n.

(** The loop keeps every closed batch full and the open batch within the
    size, and loses or reorders nothing. *)
Lemma batches_loop_spec items batches currentBatch :
  Forall (fun b => Z.of_nat (length b) = n) batches →
  Z.of_nat (length currentBatch) <= n →
  match batches_loop this items batches currentBatch with
  | (batches', current') =>
      Forall (fun b => Z.of_nat (length b) = n) batches'
      ∧ Z.of_nat (length current') <= n
      ∧ concat batches' ++ current'
        = concat batches ++ currentBatch ++ items
      ∧ (0 < Z.of_nat (length currentBatch) ∨ items ≠ [] →
         0 < Z.of_nat (length current'))
      ∧ (currentBatch = [] → items = [] → batches' = batches)
  end.
Proof.
  revert batches currentBatch.
  induction items as [|item rest IH]; intros batches currentBatch Hb Hc.
  - cbn. rewrite app_nil_r. repeat split; auto. intros [?|?]; [lia|congruence].
  - cbn [batches_loop]. rewrite size_is. cbn [length_ge].
    destruct (n <=? Z.of_nat (length currentBatch)) eqn:Hfull.
    + apply Z.leb_le in Hfull.
      assert (Hfullb : Z.of_nat (length currentBatch) = n) by lia.
      specialize (IH (batches ++ [currentBatch]) [item]).
      destruct (batches_loop this rest (batches ++ [currentBatch]) [item])
        as [batches' current'].
      destruct IH as (H1 & H2 & H3 & H4 & H5).
      * apply Forall_app; split; auto.
      * cbn. lia.
      * repeat split; auto.
        -- rewrite H3, concat_app. cbn. rewrite app_nil_r, <- app_assoc.
           reflexivity.
        -- intros _. apply H4. left. cbn. lia.
        -- discriminate.
    + apply Z.leb_gt in Hfull.
      specialize (IH batches (currentBatch ++ [item])).
      destruct (batches_loop this rest batches (currentBatch ++ [item]))
        as [batches' current'].
      destruct IH as (H1 & H2 & H3 & H4 & H5).
      * exact Hb.
      * rewrite length_app. cbn. lia.
      * repeat split; auto.
        -- rewrite H3, <- app_assoc. reflexivity.
        -- intros _. apply H4. left. rewrite length_app. cbn. lia.
        -- discriminate.
Qed.

(** C8.  For a positive batch size [n], [createChronologicalBatches] cuts
    the items into consecutive chunks: their concatenation is the input,
    every chunk holds between one and [n] items, and every chunk before
    the last holds exactly [n]. *)
Theorem createChronologicalBatches_partition (items : list SyncQueueItem) :
  let batches := createChronologicalBatches this items in
  concat batches = items
  ∧ Forall (fun b => 0 < Z.of_nat (length b) <= n) batches
  ∧ (∀ i b, batches !! i = Some b → (S i < length batches)%nat →
       Z.of_nat (length b) = n).
Proof.
  unfold createChronologicalBatches.
  pose proof (batches_loop_spec items [] []) as H.
  destruct (batches_loop this items [] []) as [batches' current'].
  destruct H as (H1 & H2 & H3 & H4 & H5); [constructor | cbn; lia |].
  cbn in H3.
  assert (Hfull : Forall (fun b => 0 < Z.of_nat (length b) <= n) batches').
  { eapply Forall_impl; [exact H1|]. intros b Hb. cbv beta in Hb. lia. }
  destruct (0 <? Z.of_nat (length current')) eqn:Hlast; cbn zeta.
  - apply Z.ltb_lt in Hlast. repeat split.
    + rewrite concat_app. cbn. rewrite app_nil_r. exact H3.
    + apply Forall_app; split; auto.
    + intros i b Hi Hlt. rewrite length_app in Hlt. cbn in Hlt.
      rewrite lookup_app_l in Hi by lia.
      rewrite Forall_lookup in H1. exact (H1 i b Hi).
  - apply Z.ltb_ge in Hlast.
    assert (current' = []) as -> by (destruct current'; [auto | cbn in Hlast; lia]).
    rewrite app_nil_r in H3. repeat split; auto.
    intros i b Hi _. rewrite Forall_lookup in H1. exact (H1 i b Hi).
Qed.
End Batches.

(* ================================================================== *)
(** * Theorems: draining the queue *)
(* ================================================================== *)

Module Drain.

Lemma compare_Lt_trans (x y z : string) :
  String.compare x y = Lt → String.compare y z = Lt → String.compare x z = Lt.
Proof.
  intros H1 H2.
  apply OrderedTypeEx.String_as_OT.cmp_lt in H1, H2.
  apply OrderedTypeEx.String_as_OT.cmp_lt.
  eapply OrderedTypeEx.String_as_OT.lt_trans; eauto.
Qed.

Lemma compare_refl (x : string) : String.compare x x = Eq.
Proof. apply OrderedTypeEx.String_as_OT.cmp_eq. reflexivity. Qed.

Lemma string_leb_iff (x y : string) :
  String.leb x y = true ↔ String.compare x y ≠ Gt.
Proof.
  unfold String.leb. destruct (String.compare x y); split;
    congruence.
Qed.

Lemma string_leb_trans (x y z : string) :
  String.leb x y = true → String.leb y z = true → String.leb x z = true.
Proof.
  unfold String.leb. intros H1 H2.
  destruct (String.compare x y) eqn:Exy; try discriminate.
  - apply String.compare_eq_iff in Exy. subst y. exact H2.
  - destruct (String.compare y z) eqn:Eyz; try discriminate.
    + apply String.compare_eq_iff in Eyz. subst z. rewrite Exy. reflexivity.
    + rewrite (compare_Lt_trans _ _ _ Exy Eyz). reflexivity.
Qed.

Section Order.
Variable toISO : Z → string.

Lemma row_before_iff (a b : QueueRow) :
  row_before toISO a b ↔ stored_before toISO a b.
Proof.
  unfold row_before, order_leb, stored_before.
  destruct (String.compare (q_task_id a) (q_task_id b)) eqn:Hc.
  - apply String.compare_eq_iff in Hc.
    split; [auto | intros [H|[_ H]]; [discriminate | exact H]].
  - split; auto.
  - split; [discriminate|].
    intros [H|[H _]]; [discriminate|].
    rewrite H, compare_refl in Hc. discriminate.
Qed.

Lemma row_before_total (a b : QueueRow) :
  row_before toISO a b ∨ row_before toISO b a.
Proof.
  unfold row_before, order_leb.
  rewrite (String.compare_antisym (q_task_id b) (q_task_id a)).
  destruct (String.compare (q_task_id a) (q_task_id b)); cbn; auto.
  apply String.leb_total.
Qed.

Lemma row_before_trans (a b c : QueueRow) :
  row_before toISO a b → row_before toISO b c → row_before toISO a c.
Proof.
  unfold row_before, order_leb.
  destruct (String.compare (q_task_id a) (q_task_id b)) eqn:Hab;
    destruct (String.compare (q_task_id b) (q_task_id c)) eqn:Hbc;
    try discriminate; intros H1 H2.
  - apply String.compare_eq_iff in Hab, Hbc. rewrite Hab, Hbc, compare_refl.
    exact (string_leb_trans _ _ _ H1 H2).
  - apply String.compare_eq_iff in Hab. rewrite Hab, Hbc. reflexivity.
  - apply String.compare_eq_iff in Hbc. rewrite <- Hbc, Hab. reflexivity.
  - rewrite (compare_Lt_trans _ _ _ Hab Hbc). reflexivity.
Qed.

Lemma order_insert_perm (x : QueueRow) (l : list QueueRow) :
  Permutation (order_insert toISO x l) (x :: l).
Proof.
  induction l as [|y l IH]; cbn; [reflexivity|].
  destruct (order_leb toISO x y); [reflexivity|].
  rewrite IH. apply perm_swap.
Qed.

Lemma order_by_perm (l : list QueueRow) : Permutation (order_by toISO l) l.
Proof.
  induction l as [|x l IH]; cbn; [reflexivity|].
  rewrite order_insert_perm, IH. reflexivity.
Qed.

Lemma order_insert_sorted (x : QueueRow) (l : list QueueRow) :
  StronglySorted (row_before toISO) l →
  StronglySorted (row_before toISO) (order_insert toISO x l).
Proof.
  induction 1 as [|y l Hs IH Hy]; cbn.
  - repeat constructor.
  - destruct (order_leb toISO x y) eqn:Hxy.
    + constructor; [constructor; assumption|].
      constructor; [exact Hxy|].
      eapply Forall_impl; [exact Hy|].
      intros z Hz. exact (row_before_trans _ _ _ Hxy Hz).
    + constructor; [exact IH|].
      assert (Hyx : row_before toISO y x).
      { destruct (row_before_total x y) as [H|H]; [|exact H].
        unfold row_before in H. congruence. }
      rewrite (Forall_forall (row_before toISO y)). intros z Hz.
      rewrite order_insert_perm in Hz.
      apply elem_of_cons in Hz as [->|Hz]; [exact Hyx|].
      rewrite (Forall_forall (row_before toISO y)) in Hy. auto.
Qed.

Lemma order_by_sorted (l : list QueueRow) :
  StronglySorted (row_before toISO) (order_by toISO l).
Proof.
  induction l as [|x l IH]; cbn; [constructor|].
  apply order_insert_sorted, IH.
Qed.

End Order.

(** In a strongly sorted list, an earlier element is related to every later
    one. *)
Lemma StronglySorted_lookup {A} (R : A → A → Prop) (l : list A) i j a b :
  StronglySorted R l → (i < j)%nat →
  l !! i = Some a → l !! j = Some b → R a b.
Proof.
  intros Hs. revert i j.
  induction Hs as [|x l Hs IH Hx]; intros i j Hij Hi Hj; [discriminate|].
  destruct j as [|j]; [lia|]. cbn in Hj.
  destruct i as [|i]; cbn in Hi.
  - injection Hi as ->. rewrite (Forall_forall (R a)) in Hx. apply Hx.
    eapply list_elem_of_lookup_2; eauto.
  - apply (IH i j); auto. lia.
Qed.

Lemma StronglySorted_impl {A} (R R' : A → A → Prop) (l : list A) :
  (∀ x y, R x y → R' x y) → StronglySorted R l → StronglySorted R' l.
Proof.
  intros HR. induction 1 as [|x l Hs IH Hx]; constructor; auto.
  eapply Forall_impl; [exact Hx|]. intros y. apply HR.
Qed.

(** C6.  For every store and every [maxRetries], the drain changes nothing
    and returns one item per queue entry with [retry_count < maxRetries]
    and no other (the rows behind the items are a permutation of those
    entries), each item carrying the entry's id, task id, operation, parsed
    payload, [created_at], retry count and error message.  The rows come
    in the order of the stored columns: ascending [task_id], and within a
    task ascending text of [created_at]; so the items of one task are
    contiguous.  Where the text of [created_at] compares as the instants
    do on the eligible entries, the items of one task are in chronological
    order. *)
Theorem getPendingSyncItemsChronological_spec (rt : Runtime)
    (this : SyncService) (w : World) :
  ∃ rows,
    getPendingSyncItemsChronological rt this w
    = (w,
       Returned
         (List.map
            (fun r =>
               {| it_id := q_id r;
                  it_task_id := q_task_id r;
                  it_operation := q_operation r;
                  it_data := JSON_parse (q_data r);
                  it_created_at := q_created_at r;
                  it_retry_count := q_retry_count r;
                  it_error_message := q_error_message r |})
            rows))
    ∧ Permutation rows
        (List.filter (fun r => q_retry_count r <? maxRetries this)
           (sync_queue (db w)))
    ∧ StronglySorted (stored_before (Date_toISOString rt)) rows
    ∧ (∀ i j k a b c, (i < j < k)%nat →
         rows !! i = Some a → rows !! j = Some b → rows !! k = Some c →
         q_task_id a = q_task_id c → q_task_id b = q_task_id a)
    ∧ (text_order_agrees (Date_toISOString rt)
         (List.map q_created_at
            (List.filter (fun r => q_retry_count r <? maxRetries this)
               (sync_queue (db w)))) →
       ∀ i j a b, (i < j)%nat →
         rows !! i = Some a → rows !! j = Some b →
         q_task_id a = q_task_id b → q_created_at a <= q_created_at b).
Proof.
  unfold getPendingSyncItemsChronological, bind, db_query, ret, select_pending.
  cbn [fst snd].
  set (eligible := List.filter _ _).
  exists (order_by (Date_toISOString rt) eligible).
  assert (Hs : StronglySorted (stored_before (Date_toISOString rt))
                 (order_by (Date_toISOString rt) eligible)).
  { eapply StronglySorted_impl; [|apply order_by_sorted].
    intros x y. apply row_before_iff. }
  split; [reflexivity|].
  split; [apply order_by_perm|].
  split; [exact Hs|].
  split.
  - intros i j k a b c [Hij Hjk] Ha Hb Hc Hac.
    pose proof (StronglySorted_lookup _ _ _ _ _ _ Hs Hij Ha Hb) as Hab.
    pose proof (StronglySorted_lookup _ _ _ _ _ _ Hs Hjk Hb Hc) as Hbc.
    destruct Hab as [Hab|[Hab _]]; [|congruence].
    exfalso. destruct Hbc as [Hbc|[Hbc _]].
    + pose proof (compare_Lt_trans _ _ _ Hab Hbc) as H.
      rewrite Hac, compare_refl in H. discriminate.
    + rewrite Hbc, <- Hac, compare_refl in Hab. discriminate.
  - intros Hagree i j a b Hij Ha Hb Hab.
    assert (Hin : ∀ r, r ∈ order_by (Date_toISOString rt) eligible →
                       q_created_at r ∈ List.map q_created_at eligible).
    { intros r Hr. rewrite order_by_perm in Hr.
      apply list_elem_of_fmap. eauto. }
    unfold text_order_agrees in Hagree.
    rewrite Forall_forall in Hagree.
    specialize (Hagree _ (Hin a (list_elem_of_lookup_2 _ _ _ Ha))).
    rewrite Forall_forall in Hagree.
    specialize (Hagree _ (Hin b (list_elem_of_lookup_2 _ _ _ Hb))).
    destruct (StronglySorted_lookup _ _ _ _ _ _ Hs Hij Ha Hb) as [H|[_ H]].
    + rewrite Hab, compare_refl in H. discriminate.
    + apply string_leb_iff in H. rewrite Hagree in H.
      apply Z.compare_le_iff. exact H.
Qed.

End Drain.

(* ================================================================== *)
(** * Theorems: conflict resolution *)
(* ================================================================== *)

Module Resolver.

Section Merge.
Variable rt : Runtime.

(** [mergeTasks] reads the clock twice and returns. *)
Lemma mergeTasks_eq winner loser source w :
  mergeTasks rt winner loser source w
  = (tick (tick w),
     Returned
       (<["updated_at" := JDate (Some (Date_now rt (S (calls w))))]>
        (<["last_synced_at" := JDate (Some (Date_now rt (calls w)))]>
         (<["sync_status" := JStr "synced"]>
          (<["server_id" := prop winner "server_id"]>
           (<["id" := match source with
                      | server => prop winner "id"
                      | client => prop loser "id"
                      end]>
            (spread loser winner))))))).
Proof. reflexivity. Qed.

Lemma merged_other_key winner loser source w merged k :
  mergeTasks rt winner loser source w = (tick (tick w), Returned merged) →
  k ∉ written_keys →
  merged !! k = (spread loser winner) !! k.
Proof.
  rewrite mergeTasks_eq. intros [= <-] Hk.
  unfold written_keys in Hk.
  rewrite !lookup_insert_ne; [reflexivity|..]; intros <-; apply Hk;
    repeat (first [left; reflexivity | right]).
Qed.

Lemma spread_winner (winner loser : gmap string jsval) k :
  is_Some (winner !! k) → spread loser winner !! k = winner !! k.
Proof.
  intros [v Hv]. unfold spread. rewrite Hv.
  apply lookup_union_Some_l. exact Hv.
Qed.

Lemma spread_loser (winner loser : gmap string jsval) k :
  winner !! k = None → spread loser winner !! k = loser !! k.
Proof. intros Hv. unfold spread. apply lookup_union_r. exact Hv. Qed.

Lemma mergeTasks_client localTask serverTask w merged :
  mergeTasks rt localTask serverTask client w
    = (tick (tick w), Returned merged) →
  client_wins localTask serverTask merged.
Proof.
  intros H. repeat split.
  - intros k Hk Hl.
    rewrite (merged_other_key _ _ _ _ _ _ H Hk). apply spread_winner, Hl.
  - intros k Hk Hl.
    rewrite (merged_other_key _ _ _ _ _ _ H Hk). apply spread_loser, Hl.
  - rewrite mergeTasks_eq in H. injection H as <-.
    rewrite !lookup_insert_ne by discriminate. apply lookup_insert_eq.
  - rewrite mergeTasks_eq in H. injection H as <-.
    rewrite !lookup_insert_ne by discriminate. apply lookup_insert_eq.
Qed.

(** C3.  When the local version is the later one, the resolver returns a
    merge in which every property the local version has (other than the
    ones the merge writes itself) keeps the local value, and [id] is the
    identifier of the remote version; [server_id] is the local one. *)
Theorem resolve_local_newer localTask serverTask w tl ts :
  newDate (Date_parse rt) (prop localTask "updated_at") = Some tl →
  newDate (Date_parse rt) (prop serverTask "updated_at") = Some ts →
  ts < tl →
  ∃ merged,
    resolveConflictWithPriority rt localTask (Some serverTask) w
      = (tick (tick w), Returned merged)
    ∧ client_wins localTask serverTask merged
    ∧ (∀ v, serverTask !! "id" = Some v → merged !! "id" = Some v).
Proof.
  intros Hl Hs Hlt. unfold resolveConflictWithPriority.
  rewrite Hl, Hs. cbn [time_eq time_gt].
  replace (tl =? ts) with false by (symmetry; apply Z.eqb_neq; lia).
  replace (ts <? tl) with true by (symmetry; apply Z.ltb_lt; lia).
  eexists. split; [apply mergeTasks_eq|].
  pose proof (mergeTasks_client _ _ _ _ (mergeTasks_eq localTask serverTask client w))
    as Hc.
  split; [exact Hc|].
  intros v Hv. destruct Hc as (_ & _ & Hid & _).
  rewrite Hid. unfold prop. rewrite Hv. reflexivity.
Qed.

(** C7.  Whatever the two versions are, the resolver returns a merge whose
    [sync_status] is synced and whose [last_synced_at] and [updated_at] are
    Dates read from the clock during the resolution; and when the two
    [updated_at] are the same instant the merge is the one won by the
    local version. *)
Theorem resolve_tie_and_stamps localTask serverTask w :
  ∃ merged,
    resolveConflictWithPriority rt localTask (Some serverTask) w
      = (tick (tick w), Returned merged)
    ∧ merged !! "sync_status" = Some (JStr "synced")
    ∧ merged !! "last_synced_at" = Some (JDate (Some (Date_now rt (calls w))))
    ∧ merged !! "updated_at"
      = Some (JDate (Some (Date_now rt (S (calls w)))))
    ∧ (∀ t,
         newDate (Date_parse rt) (prop localTask "updated_at") = Some t →
         newDate (Date_parse rt) (prop serverTask "updated_at") = Some t →
         mergeTasks rt localTask serverTask client w
           = (tick (tick w), Returned merged)
         ∧ client_wins localTask serverTask merged).
Proof.
  unfold resolveConflictWithPriority.
  destruct (time_eq _ _) eqn:Heq; [|destruct (time_gt _ _) eqn:Hgt];
    (eexists; split; [apply mergeTasks_eq|]);
    (split; [rewrite !lookup_insert_ne by discriminate; apply lookup_insert_eq|]);
    (split; [rewrite !lookup_insert_ne by discriminate; apply lookup_insert_eq|]);
    (split; [apply lookup_insert_eq|]);
    intros t Hl Hs.
  - split; [apply mergeTasks_eq|].
    apply (mergeTasks_client _ _ w), mergeTasks_eq.
  - split; [apply mergeTasks_eq|].
    apply (mergeTasks_client _ _ w), mergeTasks_eq.
  - rewrite Hl, Hs in Heq. cbn in Heq. rewrite Z.eqb_refl in Heq.
    discriminate.
Qed.

End Merge.

End Resolver.

(* ================================================================== *)
(** * Theorems: retry and escalation *)
(* ================================================================== *)

Module Escalation.

(** Writing back what was parsed gives the stored object again. *)
Lemma JSON_stringify_parse (toISO : Z → string) (d : gmap string json) :
  JSON_stringify toISO (JSON_parse d) = d.
Proof.
  apply map_eq. intros k. unfold JSON_stringify, JSON_parse.
  rewrite lookup_omap, lookup_fmap.
  destruct (d !! k) as [[]|]; reflexivity.
Qed.

Lemma delete_queue_no_entry (id : string) (d : Database) :
  Forall (fun r => q_id r ≠ id) (sync_queue (delete_queue id d)).
Proof.
  unfold delete_queue. cbn. apply Forall_forall. intros r Hr.
  apply list_elem_of_In, filter_In in Hr as [_ Hr].
  apply negb_true_iff, String.eqb_neq in Hr. exact Hr.
Qed.

Section Policy.
Variable rt : Runtime.
Variable this : SyncService.

Lemma handleSyncError_escalates_eq row message w :
  maxRetries this <= q_retry_count row + 1 →
  dead_letter_free (q_id row) w →
  handleSyncError rt this (row_to_item row) message w
  = (escalated rt row message w, Returned tt).
Proof.
  intros Hmax Hfree. unfold handleSyncError.
  replace (maxRetries this <=? _) with true
    by (symmetry; apply Z.leb_le; exact Hmax).
  unfold bind, moveToDeadLetterQueue, bind, new_Date, db_run_checked,
    insert_dead_letter.
  cbn [tick db calls outbox row_to_item it_id it_task_id it_operation
       it_data it_created_at it_retry_count d_id].
  unfold dead_letter_free in Hfree. rewrite Hfree.
  rewrite JSON_stringify_parse. reflexivity.
Qed.

Lemma handleSyncError_retries_eq row message w :
  q_retry_count row + 1 < maxRetries this →
  handleSyncError rt this (row_to_item row) message w
  = (retried rt row message w, Returned tt).
Proof.
  intros Hmax. unfold handleSyncError.
  replace (maxRetries this <=? _) with false
    by (symmetry; apply Z.leb_gt; exact Hmax).
  reflexivity.
Qed.

(** C5.  When an error outcome brings the retry count of a queue entry to
    the maximum and no dead-letter row has the id ["dlq_"] followed by the
    entry's id, [handleSyncError] returns and leaves a store in which
    - the dead-letter table has one more row, holding the entry's id (in
      [original_sync_queue_id], the row's own id being ["dlq_"] followed
      by it), task id, operation, payload, [created_at] and
      [retry_count] as they were in the queue, the message of the error,
      and the instant of the failure;
    - the queue is the old one without the entries of that id, so no queue
      entry has it;
    - every task row of the owning task has [sync_status] failed, the
      other task rows being as before. *)
Theorem handleSyncError_dead_letters row message w :
  maxRetries this <= q_retry_count row + 1 →
  dead_letter_free (q_id row) w →
  ∃ w',
    handleSyncError rt this (row_to_item row) message w = (w', Returned tt)
    ∧ sync_dead_letter_queue (db w')
      = sync_dead_letter_queue (db w)
          ++ [{| d_id := "dlq_" +:+ q_id row;
                 d_task_id := q_task_id row;
                 d_operation := q_operation row;
                 d_data := q_data row;
                 d_created_at := q_created_at row;
                 d_retry_count := q_retry_count row;
                 d_error_message := message;
                 d_failed_at := Date_now rt (calls w);
                 d_original_sync_queue_id := q_id row |}]
    ∧ sync_queue (db w')
      = List.filter (fun r => negb (String.eqb (q_id r) (q_id row)))
          (sync_queue (db w))
    ∧ Forall (fun r => q_id r ≠ q_id row) (sync_queue (db w'))
    ∧ Forall2
        (fun old new =>
           if String.eqb (t_id old) (q_task_id row)
           then t_sync_status new = SqlText "failed" ∧ t_id new = t_id old
           else new = old)
        (tasks (db w)) (tasks (db w')).
Proof.
  intros Hmax Hfree. eexists.
  split; [apply handleSyncError_escalates_eq; assumption|].
  split; [reflexivity|].
  split; [reflexivity|].
  split; [apply delete_queue_no_entry|].
  cbn. induction (tasks (db w)) as [|t ts IH]; cbn; constructor; auto.
  destruct (String.eqb (t_id t) (q_task_id row)); cbn; auto.
Qed.

End Policy.

End Escalation.

(* ================================================================== *)
(** * Theorems: the sync pass *)
(* ================================================================== *)

Module Pass.

Section Sync.
Variable rt : Runtime.
Variable this : SyncService.

Lemma checkConnectivity_eq w :
  checkConnectivity rt w = (tick w, Returned (axios_get rt (calls w))).
Proof.
  unfold checkConnectivity, try_catch, bind, get_health.
  destruct (axios_get rt (calls w)); reflexivity.
Qed.

(** [sync] returns the [result] object: as the [try] block left it when
    the block completed, and marked failed with one more error entry when
    the block threw. *)
Lemma sync_eq w :
  sync rt this w
  = match sync_try rt this (w, empty_result) with
    | ((w1, r1), Returned _) => (w1, Returned r1)
    | ((w1, r1), Thrown e) =>
        (tick w1,
         Returned
           (push_errors [global_error e (Date_now rt (calls w1))]
              (set_success false r1)))
    end.
Proof.
  unfold sync, with_local, try_catch.
  destruct (sync_try rt this (w, empty_result)) as [[w1 r1] [u|e]];
    reflexivity.
Qed.

(** A [try] block that completes leaves [success] equal to
    [failed_items === 0]. *)
Lemma sync_try_completed w w1 r1 u :
  sync_try rt this (w, empty_result) = ((w1, r1), Returned u) →
  success r1 = (failed_items r1 =? 0).
Proof.
  unfold sync_try, bind at 1. unfold lift at 1.
  rewrite checkConnectivity_eq. cbn [fst snd].
  destruct (axios_get rt (calls w)); cbn [negb]; [|discriminate].
  unfold bind at 1. unfold lift at 1. cbn [fst snd].
  unfold getPendingSyncItemsChronological, bind at 1, db_query, ret.
  cbn [fst snd].
  set (pendingItems := List.map row_to_item _).
  unfold bind at 1, update_local at 1. cbn [fst snd].
  destruct (Z.of_nat (length pendingItems) =? 0).
  - intros [= <- <- <-]. reflexivity.
  - unfold bind at 1.
    destruct (lift (markItemsAsInProgress pendingItems) _)
      as [[w2 r2] [u2|e2]]; [|discriminate].
    unfold bind at 1.
    destruct (for_of _ _ (w2, r2)) as [[w3 r3] [u3|e3]]; [|discriminate].
    unfold update_local. cbn [fst snd].
    intros [= <- <- <-]. reflexivity.
Qed.

(** C1, as the code has it.  Every pass returns a result, and its
    [success] is true exactly when the [try] block of [sync] ran to its
    end and [failed_items] is 0.  A pass that finds the remote unreachable
    at the probe returns [success = false] with [failed_items = 0],
    [synced_items = 0] and the single error entry of task ["global"], and
    leaves the store and the list of requests sent as they were. *)
Theorem sync_success_iff w :
  ∃ w' r,
    sync rt this w = (w', Returned r)
    ∧ (success r = true ↔
       (∃ u, snd (sync_try rt this (w, empty_result)) = Returned u)
       ∧ failed_items r = 0)
    ∧ (axios_get rt (calls w) = false →
       r = {| success := false; synced_items := 0; failed_items := 0;
              errors :=
                [global_error "No network connectivity"
                   (Date_now rt (S (calls w)))] |}
       ∧ db w' = db w ∧ outbox w' = outbox w).
Proof.
  rewrite sync_eq.
  destruct (sync_try rt this (w, empty_result)) as [[w1 r1] [u|e]] eqn:Htry.
  - exists w1, r1. split; [reflexivity|]. split.
    + rewrite (sync_try_completed _ _ _ _ Htry). cbn [snd].
      rewrite Z.eqb_eq. split; [eauto|tauto].
    + intros Hget. revert Htry.
      unfold sync_try, bind at 1. unfold lift at 1.
      rewrite checkConnectivity_eq. cbn [fst snd]. rewrite Hget.
      discriminate.
  - eexists _, _. split; [reflexivity|]. split.
    + cbn. split; [discriminate|]. intros [[u Hu] _]. discriminate.
    + intros Hget. revert Htry.
      unfold sync_try, bind at 1. unfold lift at 1.
      rewrite checkConnectivity_eq. cbn [fst snd]. rewrite Hget. cbn.
      intros [= <- <- <-]. auto.
Qed.

(* ---------------------------------------------------------------- *)
(** ** A store whose [sync_queue] has no [sync_status] column *)

Lemma markItemsAsInProgress_refused item rest w :
  no_status_column w →
  markItemsAsInProgress (item :: rest) w = (w, Thrown refusal).
Proof.
  intros Hcol. unfold markItemsAsInProgress. cbn [for_of].
  unfold bind, db_run_checked, update_queue_in_progress.
  rewrite bool_decide_eq_false_2 by exact Hcol. reflexivity.
Qed.

(** On such a store a pass never changes the store and never sends a
    batch: it stops at the probe, or finds nothing to drain, or is
    refused the in-progress marking of the first drained item. *)
Lemma sync_without_status_column w :
  no_status_column w →
  ∃ w' r,
    sync rt this w = (w', Returned r)
    ∧ db w' = db w ∧ outbox w' = outbox w
    ∧ failed_items r = 0
    ∧ (drained rt this w ≠ [] → success r = false)
    ∧ (drained rt this w ≠ [] → axios_get rt (calls w) = true →
       r = {| success := false;
              synced_items := Z.of_nat (length (drained rt this w));
              failed_items := 0;
              errors :=
                [global_error refusal (Date_now rt (S (calls w)))] |}).
Proof.
  intros Hcol. rewrite sync_eq.
  unfold sync_try, bind at 1. unfold lift at 1.
  rewrite checkConnectivity_eq. cbn [fst snd].
  destruct (axios_get rt (calls w)); cbn [negb].
  - unfold bind at 1. unfold lift at 1. cbn [fst snd].
    unfold getPendingSyncItemsChronological, bind at 1, db_query, ret.
    cbn [fst snd tick db].
    fold (drained rt this w). destruct (drained rt this w) as [|item rest] eqn:Hd.
    + cbn. eexists _, _. repeat split; try reflexivity; congruence.
    + unfold bind at 1, update_local at 1. cbn [fst snd].
      replace (Z.of_nat (length (item :: rest)) =? 0) with false
        by (symmetry; apply Z.eqb_neq; cbn [length]; lia).
      unfold bind at 1. unfold lift at 1. cbn [fst snd].
      rewrite markItemsAsInProgress_refused by exact Hcol.
      cbn. eexists _, _. repeat split; reflexivity.
  - cbn. eexists _, _. repeat split; try reflexivity; discriminate.
Qed.

Lemma sync_times_without_status_column k w :
  no_status_column w →
  db (sync_times rt this k w) = db w ∧ outbox (sync_times rt this k w) = outbox w.
Proof.
  revert w. induction k as [|k IH]; intros w Hcol; [auto|].
  cbn [sync_times].
  destruct (sync_without_status_column w Hcol)
    as (w' & r & Hs & Hdb & Hout & _).
  rewrite Hs. cbn [fst].
  destruct (IH w') as [H1 H2].
  - unfold no_status_column. rewrite Hdb. exact Hcol.
  - rewrite H1, H2. auto.
Qed.

End Sync.

Lemma new_world_no_status_column : no_status_column new_world.
Proof. unfold no_status_column. apply (bool_decide_unpack _). reflexivity. Qed.

Lemma addToSyncQueue_new_world rt taskId operation data :
  addToSyncQueue rt taskId operation data new_world
  = (after_enqueue rt taskId operation data, Returned tt).
Proof. reflexivity. Qed.

(** C2, on the store the code creates.  One mutation is enqueued in a new
    store and a pass is run.  Whatever the remote would answer, the pass
    returns [success = false], sends no batch, and the entry is still in the
    queue; when the probe succeeds the result counts [synced_items = 1] and
    [failed_items = 0] and carries the store's refusal of the in-progress
    marking as its one error. *)
Theorem sync_after_enqueue_keeps_entry rt taskId operation data :
  ∃ w1 w2 r,
    addToSyncQueue rt taskId operation data new_world = (w1, Returned tt)
    ∧ sync_queue (db w1) = [enqueued rt taskId operation data]
    ∧ sync rt new_SyncService w1 = (w2, Returned r)
    ∧ sync_queue (db w2) = [enqueued rt taskId operation data]
    ∧ outbox w2 = []
    ∧ success r = false
    ∧ (axios_get rt 3 = true →
       synced_items r = 1 ∧ failed_items r = 0
       ∧ errors r = [global_error refusal (Date_now rt 4)]).
Proof.
  destruct (sync_without_status_column rt new_SyncService
              (after_enqueue rt taskId operation data))
    as (w' & r & Hs & Hdb & Hout & Hf & Hsucc & Hres).
  { apply new_world_no_status_column. }
  exists (after_enqueue rt taskId operation data), w', r.
  split; [apply addToSyncQueue_new_world|].
  split; [reflexivity|].
  split; [exact Hs|].
  split; [rewrite Hdb; reflexivity|].
  split; [rewrite Hout; reflexivity|].
  split; [apply Hsucc; discriminate|].
  intros Hget. rewrite (Hres ltac:(discriminate) Hget). auto.
Qed.

(** C4, on the store the code creates.  One mutation is enqueued in a new
    store; then any number of passes is run, against any remote.  The entry
    stays in the queue with [retry_count = 0], the dead-letter table stays
    empty and no batch is ever sent. *)
Theorem sync_never_dispatches rt taskId operation data :
  ∃ w1,
    addToSyncQueue rt taskId operation data new_world = (w1, Returned tt)
    ∧ ∀ k,
        let w := sync_times rt new_SyncService k w1 in
        sync_queue (db w) = [enqueued rt taskId operation data]
        ∧ q_retry_count (enqueued rt taskId operation data) = 0
        ∧ sync_dead_letter_queue (db w) = []
        ∧ outbox w = [].
Proof.
  exists (after_enqueue rt taskId operation data).
  split; [apply addToSyncQueue_new_world|].
  intros k.
  destruct (sync_times_without_status_column rt new_SyncService k
              (after_enqueue rt taskId operation data)) as [Hdb Hout].
  { apply new_world_no_status_column. }
  cbn zeta. rewrite Hdb, Hout. auto.
Qed.

End Pass.

(* ================================================================== *)
(** * Theorems: the batch checksum *)
(* ================================================================== *)

Module Checksum.











Section Hash.
Variable rt : Runtime.


End Hash.

End Checksum.

(* ================================================================== *)
(** * Theorems: rounds of rejected dispatches *)
(* ================================================================== *)

Module Retry.

Section Rounds.
Variable rt : Runtime.
Variable this : SyncService.
Variable n : Z.
Variable message : string.
Hypothesis size_is : batchSize this = Some n.
Hypothesis size_pos : 0 < n.
Hypothesis reachable : ∀ c, axios_get rt c = true.
Hypothesis rejected : ∀ c req sum, axios_post rt c req sum = PostRejected message.

Lemma single_batch item : createChronologicalBatches this [item] = [[item]].
Proof.
  unfold createChronologicalBatches. cbn [batches_loop length].
  rewrite size_is. cbn [length_ge].
  replace (n <=? Z.of_nat 0) with false by (symmetry; apply Z.leb_gt; lia).
  reflexivity.
Qed.

Lemma drain_single w row :
  sync_queue (db w) = [row] → q_retry_count row < maxRetries this →
  select_pending (Date_toISOString rt) (maxRetries this) (db w) = [row].
Proof.
  intros Hq Hlt. unfold select_pending. rewrite Hq. cbn [List.filter].
  replace (q_retry_count row <? maxRetries this) with true
    by (symmetry; apply Z.ltb_lt; exact Hlt).
  reflexivity.
Qed.

Lemma processBatch_rejected item w w3 :
  handleSyncError rt this item message
    {| db := db w; calls := S (S (calls w));
       outbox :=
         outbox w
           ++ [({| items := [item];
                   client_timestamp := Date_now rt (calls w) |},
                createBatchChecksum rt [item])] |}
    = (w3, Returned tt) →
  processBatchWithChecksum rt this [item] w
  = (tick w3,
     Returned
       {| success := false; synced_items := 0; failed_items := 1;
          errors := [item_error item message (Date_now rt (calls w3))] |}).
Proof.
  intros H.
  unfold processBatchWithChecksum, bind at 1, new_Date at 1.
  unfold with_local, bind at 1, try_catch, bind at 1, lift at 1, post_batch.
  cbn [fst snd tick db calls outbox]. rewrite rejected.
  cbn [for_of]. unfold bind at 1, bind at 1, lift at 1. cbn [fst snd].
  rewrite H. reflexivity.
Qed.

Lemma sync_failing_pass w row w3 :
  "sync_status" ∈ sync_queue_columns (db w) →
  sync_queue (db w) = [row] →
  q_retry_count row < maxRetries this →
  handleSyncError rt this (row_to_item row) message (dispatched rt row w)
    = (w3, Returned tt) →
  sync rt this w
  = (tick w3,
     Returned
       {| success := false; synced_items := 1; failed_items := 1;
          errors :=
            [item_error (row_to_item row) message (Date_now rt (calls w3))] |}).
Proof.
  intros Hcol Hq Hlt Hh.
  rewrite Pass.sync_eq.
  unfold sync_try, bind at 1. unfold lift at 1.
  rewrite Pass.checkConnectivity_eq, reachable. cbn [fst snd negb].
  unfold bind at 1. unfold lift at 1. cbn [fst snd].
  unfold getPendingSyncItemsChronological, bind at 1, db_query, ret.
  cbn [fst snd tick db].
  rewrite (drain_single w row Hq Hlt). cbn [List.map length].
  unfold bind at 1, update_local at 1. cbn [fst snd].
  change (Z.of_nat 1 =? 0) with false. cbn iota.
  unfold bind at 1. unfold lift at 1. cbn [fst snd].
  unfold markItemsAsInProgress. cbn [for_of].
  unfold bind at 1, db_run_checked, update_queue_in_progress.
  cbn [tick db calls outbox].
  rewrite bool_decide_eq_true_2 by exact Hcol.
  rewrite Hq. cbn [List.map it_id row_to_item].
  rewrite String.eqb_refl. fold (marked row).
  cbn [for_of set_db db calls outbox].
  rewrite single_batch. cbn [for_of].
  unfold ret, bind, lift. cbn [fst snd].
  erewrite processBatch_rejected; [|exact Hh].
  reflexivity.
Qed.

Lemma sync_retries w row :
  "sync_status" ∈ sync_queue_columns (db w) →
  sync_queue (db w) = [row] →
  q_retry_count row + 1 < maxRetries this →
  let w' := fst (sync rt this w) in
  sync_queue (db w')
  = [{| q_id := q_id row; q_task_id := q_task_id row;
        q_operation := q_operation row; q_data := q_data row;
        q_created_at := q_created_at row;
        q_retry_count := q_retry_count row + 1;
        q_error_message := Some message;
        q_sync_status := Some "in-progress" |}]
  ∧ sync_dead_letter_queue (db w') = sync_dead_letter_queue (db w)
  ∧ sync_queue_columns (db w') = sync_queue_columns (db w)
  ∧ length (outbox w') = S (length (outbox w)).
Proof.
  intros Hcol Hq Hlt.
  rewrite (sync_failing_pass w row _ Hcol Hq ltac:(lia)
             (Escalation.handleSyncError_retries_eq rt this row message
                (dispatched rt row w) Hlt)).
  cbn. rewrite String.eqb_refl, length_app. cbn.
  repeat split; auto. lia.
Qed.

Lemma sync_escalates w row :
  "sync_status" ∈ sync_queue_columns (db w) →
  sync_queue (db w) = [row] →
  q_retry_count row < maxRetries this →
  maxRetries this <= q_retry_count row + 1 →
  dead_letter_free (q_id row) w →
  let w' := fst (sync rt this w) in
  sync_queue (db w') = []
  ∧ (∃ failed_at,
       sync_dead_letter_queue (db w')
       = sync_dead_letter_queue (db w)
           ++ [dead_letter_of row message failed_at])
  ∧ sync_queue_columns (db w') = sync_queue_columns (db w)
  ∧ length (outbox w') = S (length (outbox w)).
Proof.
  intros Hcol Hq Hlt Hmax Hfree.
  rewrite (sync_failing_pass w row _ Hcol Hq Hlt
             (Escalation.handleSyncError_escalates_eq rt this row message
                (dispatched rt row w) Hmax Hfree)).
  cbn. rewrite String.eqb_refl, length_app. cbn.
  repeat split; eauto. lia.
Qed.

Lemma sync_idle w :
  sync_queue (db w) = [] →
  db (fst (sync rt this w)) = db w
  ∧ outbox (fst (sync rt this w)) = outbox w.
Proof.
  intros Hq.
  assert (H : sync rt this w
              = (tick w, Returned (set_synced_items 0 empty_result))).
  { rewrite Pass.sync_eq.
    unfold sync_try, bind at 1. unfold lift at 1.
    rewrite Pass.checkConnectivity_eq, reachable. cbn [fst snd negb].
    unfold bind at 1. unfold lift at 1. cbn [fst snd].
    unfold getPendingSyncItemsChronological, bind at 1, db_query, ret.
    cbn [fst snd tick db]. unfold select_pending. rewrite Hq.
    reflexivity. }
  rewrite H. split; reflexivity.
Qed.

Lemma sync_times_succ k w :
  sync_times rt this (S k) w
  = fst (sync rt this (sync_times rt this k w)).
Proof.
  revert w. induction k as [|k IH]; intros w; [reflexivity|].
  change (sync_times rt this (S (S k)) w)
    with (sync_times rt this (S k) (fst (sync rt this w))).
  rewrite IH. reflexivity.
Qed.

Lemma row_at_succ row k :
  q_retry_count row = 0 →
  {| q_id := q_id (row_at message row k); q_task_id := q_task_id (row_at message row k);
     q_operation := q_operation (row_at message row k);
     q_data := q_data (row_at message row k);
     q_created_at := q_created_at (row_at message row k);
     q_retry_count := q_retry_count (row_at message row k) + 1;
     q_error_message := Some message;
     q_sync_status := Some "in-progress" |}
  = row_at message row (S k).
Proof.
  intros H0. destruct k as [|k]; cbn [row_at q_id q_task_id q_operation
    q_data q_created_at q_retry_count]; [rewrite H0|]; f_equal; lia.
Qed.

Lemma row_at_retry_count row k :
  q_retry_count row = 0 → q_retry_count (row_at message row k) = Z.of_nat k.
Proof. intros H0. destruct k; [exact H0 | reflexivity]. Qed.

Lemma row_at_id row k : q_id (row_at message row k) = q_id row.
Proof. destruct k; reflexivity. Qed.

(** The retry policy, on a store that accepts the in-progress marking.  A
    queue holds one new mutation and the remote rejects every batch.  While
    fewer than [maxRetries] passes have run, the entry is in the queue with
    [retry_count] equal to the number of passes, each of which has sent it
    once; the pass number [maxRetries] moves it to the dead-letter table,
    once, and removes it from the queue; later passes send nothing and
    change neither table. *)
Theorem rejected_mutation_is_dead_lettered row w :
  0 < maxRetries this →
  "sync_status" ∈ sync_queue_columns (db w) →
  sync_queue (db w) = [row] →
  q_retry_count row = 0 →
  dead_letter_free (q_id row) w →
  ∀ k,
    let wk := sync_times rt this k w in
    (Z.of_nat k < maxRetries this →
     sync_queue (db wk) = [row_at message row k]
     ∧ sync_dead_letter_queue (db wk) = sync_dead_letter_queue (db w)
     ∧ length (outbox wk) = (length (outbox w) + k)%nat)
    ∧ (maxRetries this <= Z.of_nat k →
       sync_queue (db wk) = []
       ∧ (∃ failed_at,
            sync_dead_letter_queue (db wk)
            = sync_dead_letter_queue (db w)
                ++ [dead_letter_of
                      (row_at message row (Z.to_nat (maxRetries this - 1)))
                      message failed_at])
       ∧ length (outbox wk)
         = (length (outbox w) + Z.to_nat (maxRetries this))%nat).
Proof.
  intros Hpos Hcol Hq H0 Hfree k. cbn zeta.
  assert (Hinv :
    "sync_status" ∈ sync_queue_columns (db (sync_times rt this k w))
    ∧ (Z.of_nat k < maxRetries this →
       sync_queue (db (sync_times rt this k w)) = [row_at message row k]
       ∧ sync_dead_letter_queue (db (sync_times rt this k w))
         = sync_dead_letter_queue (db w)
       ∧ length (outbox (sync_times rt this k w))
         = (length (outbox w) + k)%nat)
    ∧ (maxRetries this <= Z.of_nat k →
       sync_queue (db (sync_times rt this k w)) = []
       ∧ (∃ failed_at,
            sync_dead_letter_queue (db (sync_times rt this k w))
            = sync_dead_letter_queue (db w)
                ++ [dead_letter_of
                      (row_at message row (Z.to_nat (maxRetries this - 1)))
                      message failed_at])
       ∧ length (outbox (sync_times rt this k w))
         = (length (outbox w) + Z.to_nat (maxRetries this))%nat));
    [|tauto].
  induction k as [|k IH].
  - cbn [sync_times]. split; [exact Hcol|]. split.
    + intros _. cbn [row_at]. rewrite Nat.add_0_r. auto.
    + cbn. lia.
  - rewrite sync_times_succ.
    set (wk := sync_times rt this k w) in *.
    destruct IH as (Hc & Hlive & Hdead).
    destruct (Z.lt_ge_cases (Z.of_nat k) (maxRetries this)) as [Hk|Hk].
    + destruct (Hlive Hk) as (Hqk & Hdk & Hok).
      destruct (Z.lt_ge_cases (Z.of_nat (S k)) (maxRetries this)) as [Hk'|Hk'].
      * destruct (sync_retries wk (row_at message row k) Hc Hqk) as (A & B & C & D).
        { rewrite row_at_retry_count by exact H0. lia. }
        split; [rewrite C; exact Hc|]. split; [|lia].
        intros _. rewrite A, B, D, Hdk, Hok, row_at_succ by exact H0.
        repeat split; auto; lia.
      * destruct (sync_escalates wk (row_at message row k) Hc Hqk) as (A & B & C & D).
        { rewrite row_at_retry_count by exact H0. lia. }
        { rewrite row_at_retry_count by exact H0. lia. }
        { unfold dead_letter_free in *.
          rewrite row_at_id, Hdk. exact Hfree. }
        split; [rewrite C; exact Hc|]. split; [lia|].
        intros _. split; [exact A|].
        replace (Z.to_nat (maxRetries this - 1)) with k by lia.
        destruct B as [t B]. split; [exists t; rewrite B, Hdk; reflexivity|].
        rewrite D, Hok. lia.
    + destruct (Hdead Hk) as (Hqk & Hdk & Hok).
      destruct (sync_idle wk Hqk) as [A B].
      split; [rewrite A; exact Hc|]. split; [lia|].
      intros _. rewrite A, B. auto.
Qed.

End Rounds.

End Retry.

(* ================================================================== *)
(** * Theorems: the status report *)
(* ================================================================== *)

Module StatusReport.

(** C10.  In every world [getSyncStatus] returns, without changing the
    world, a report whose [inProgress] and [errors] are 0: the two fields
    are the literal 0, whatever the queue and the dead-letter table hold. *)
Theorem getSyncStatus_constant_fields (rt : Runtime) (this : SyncService)
    (w : World) :
  ∃ report,
    getSyncStatus rt this w = (w, Returned report)
    ∧ SyncStatus.inProgress report = 0
    ∧ SyncStatus.errors report = 0.
Proof. eexists. split; [reflexivity|]. split; reflexivity. Qed.

End StatusReport.


(* ================================================================== *)
(** * Theorems: concrete runs *)
(* ================================================================== *)

Module Runs.

Import Data.

(** C1 fails as stated: a pass that finds the remote unreachable returns
    [success = false] although [failed_items] is 0. *)
Lemma sync_unreachable_not_iff :
  ∃ r,
    snd (sync (runtime false accepted) new_SyncService new_world) = Returned r
    ∧ ¬ (success r = true ↔ failed_items r = 0).
Proof.
  eexists. split; [reflexivity|]. cbn. intros [_ H].
  specialize (H eq_refl). discriminate.
Qed.

Lemma sync_success_iff_witness :
  ∃ w' r,
    sync (runtime false accepted) new_SyncService new_world = (w', Returned r)
    ∧ (success r = true ↔
       (∃ u, snd (sync_try (runtime false accepted) new_SyncService
                    (new_world, empty_result)) = Returned u)
       ∧ failed_items r = 0)
    ∧ (axios_get (runtime false accepted) (calls new_world) = false →
       r = {| success := false; synced_items := 0; failed_items := 0;
              errors :=
                [global_error "No network connectivity"
                   (Date_now (runtime false accepted) (S (calls new_world)))] |}
       ∧ db w' = db new_world ∧ outbox w' = outbox new_world).
Proof.
  exact (Pass.sync_success_iff (runtime false accepted) new_SyncService
           new_world).
Defined.

(** C2, on a store that accepts the in-progress marking: the one mutation is
    sent, answered with success and removed from the queue, and the result
    counts it twice. *)
Lemma sync_counts_the_item_twice :
  match addToSyncQueue (runtime true accepted) "task-1" update
          {[ "title" := JStr "Updated Title" ]}
          {| db := store_with_status_column; calls := 0; outbox := [] |} with
  | (w1, Returned _) =>
      length (sync_queue (db w1)) = 1%nat
      ∧ ∃ w2,
          sync (runtime true accepted) new_SyncService w1
            = (w2,
               Returned {| success := true; synced_items := 2;
                           failed_items := 0; errors := [] |})
          ∧ sync_queue (db w2) = []
          ∧ length (outbox w2) = 1%nat
  | (_, Thrown _) => False
  end.
Proof. vm_compute. split; [reflexivity|]. eexists. repeat split. Qed.

(** The drain of a queue of four entries, one of them out of retries. *)
Lemma drain_orders_by_task_then_time :
  List.map it_id (drained runtime_with_iso_text new_SyncService world_of_2024)
  = ["q4"; "q2"; "q1"].
Proof. reflexivity. Qed.

(** C6 fails as stated: of two entries of one task written one millisecond
    apart, the drain returns the later one first when the earlier is the
    last millisecond of the year 9999, because the stored text of the later
    one starts with a sign. *)
Lemma drain_across_year_9999_not_chronological :
  ∃ first second,
    getPendingSyncItemsChronological runtime_with_iso_text new_SyncService
      world_of_9999
    = (world_of_9999, Returned [first; second])
    ∧ it_task_id first = it_task_id second
    ∧ it_created_at second < it_created_at first
    ∧ Date_toISOString runtime_with_iso_text (it_created_at first)
      = "+010000-01-01T00:00:00.000Z"
    ∧ Date_toISOString runtime_with_iso_text (it_created_at second)
      = "9999-12-31T23:59:59.999Z".
Proof. eexists _, _. split; [reflexivity|]. repeat split. Qed.

Lemma getPendingSyncItemsChronological_spec_witness :
  ∃ rows,
    getPendingSyncItemsChronological runtime_with_iso_text new_SyncService
      world_of_2024
    = (world_of_2024,
       Returned
         (List.map
            (fun r =>
               {| it_id := q_id r;
                  it_task_id := q_task_id r;
                  it_operation := q_operation r;
                  it_data := JSON_parse (q_data r);
                  it_created_at := q_created_at r;
                  it_retry_count := q_retry_count r;
                  it_error_message := q_error_message r |})
            rows))
    ∧ Permutation rows
        (List.filter (fun r => q_retry_count r <? maxRetries new_SyncService)
           (sync_queue (db world_of_2024)))
    ∧ StronglySorted (stored_before (Date_toISOString runtime_with_iso_text))
        rows
    ∧ (∀ i j a b, (i < j)%nat →
         rows !! i = Some a → rows !! j = Some b →
         q_task_id a = q_task_id b → q_created_at a <= q_created_at b).
Proof.
  destruct (Drain.getPendingSyncItemsChronological_spec runtime_with_iso_text
              new_SyncService world_of_2024)
    as (rows & Hrun & Hperm & Hsorted & _ & Hchron).
  exists rows. split; [exact Hrun|]. split; [exact Hperm|].
  split; [exact Hsorted|].
  apply Hchron. repeat constructor.
Defined.

Lemma createChronologicalBatches_partition_witness :
  let this := {| maxRetries := 3; batchSize := Some 2 |} in
  let batches := createChronologicalBatches this three_items in
  batches = [[item "q1" "task-1" 10; item "q2" "task-1" 20];
             [item "q3" "task-2" 5]]
  ∧ concat batches = three_items
  ∧ Forall (fun b => 0 < Z.of_nat (length b) <= 2) batches
  ∧ (∀ i b, batches !! i = Some b → (S i < length batches)%nat →
       Z.of_nat (length b) = 2).
Proof.
  split; [reflexivity|].
  exact (createChronologicalBatches_partition
           {| maxRetries := 3; batchSize := Some 2 |} 2 eq_refl eq_refl
           three_items).
Defined.

Lemma resolve_local_newer_witness :
  ∃ merged,
    resolveConflictWithPriority (runtime true accepted) local_version
      (Some remote_version) new_world
      = (tick (tick new_world), Returned merged)
    ∧ client_wins local_version remote_version merged
    ∧ (∀ v, remote_version !! "id" = Some v → merged !! "id" = Some v).
Proof.
  exact (Resolver.resolve_local_newer (runtime true accepted) local_version
           remote_version new_world 1714557600010 1714557600000
           eq_refl eq_refl eq_refl).
Defined.

(** The merge of the two versions above, property by property. *)
Lemma resolve_local_newer_run :
  snd (resolveConflictWithPriority (runtime true accepted) local_version
         (Some remote_version) new_world)
  = Returned
      {[ "id" := JStr "srv_77"; "title" := JStr "Local title";
         "completed" := JBool true;
         "description" := JStr "kept on the server";
         "server_id" := JUndefined;
         "sync_status" := JStr "synced";
         "last_synced_at" := JDate (Some 1700000000000);
         "updated_at" := JDate (Some 1700000000001) ]}.
Proof. vm_compute. reflexivity. Qed.

Lemma handleSyncError_dead_letters_witness :
  ∃ w',
    handleSyncError (runtime true accepted) new_SyncService
      (row_to_item exhausted_row) "Network Error" world_with_exhausted_row
      = (w', Returned tt)
    ∧ sync_dead_letter_queue (db w')
      = sync_dead_letter_queue (db world_with_exhausted_row)
          ++ [{| d_id := "dlq_" +:+ q_id exhausted_row;
                 d_task_id := q_task_id exhausted_row;
                 d_operation := q_operation exhausted_row;
                 d_data := q_data exhausted_row;
                 d_created_at := q_created_at exhausted_row;
                 d_retry_count := q_retry_count exhausted_row;
                 d_error_message := "Network Error";
                 d_failed_at :=
                   Date_now (runtime true accepted)
                     (calls world_with_exhausted_row);
                 d_original_sync_queue_id := q_id exhausted_row |}]
    ∧ sync_queue (db w')
      = List.filter (fun r => negb (String.eqb (q_id r) (q_id exhausted_row)))
          (sync_queue (db world_with_exhausted_row))
    ∧ Forall (fun r => q_id r ≠ q_id exhausted_row) (sync_queue (db w'))
    ∧ Forall2
        (fun old new =>
           if String.eqb (t_id old) (q_task_id exhausted_row)
           then t_sync_status new = SqlText "failed" ∧ t_id new = t_id old
           else new = old)
        (tasks (db world_with_exhausted_row)) (tasks (db w')).
Proof.
  exact (Escalation.handleSyncError_dead_letters (runtime true accepted)
           new_SyncService exhausted_row "Network Error"
           world_with_exhausted_row ltac:(vm_compute; discriminate) eq_refl).
Defined.

(** C5 fails as stated: the error outcome raises the retry count of the
    queued entry to the maximum, yet nothing is copied, the entry stays in
    the queue and the task is not marked failed, because a dead-letter row
    already has the id the copy would take. *)
Lemma handleSyncError_refused_keeps_entry :
  maxRetries new_SyncService <= q_retry_count exhausted_row + 1
  ∧ ∃ w' message,
      handleSyncError (runtime true accepted) new_SyncService
        (row_to_item exhausted_row) "Network Error"
        world_with_stale_dead_letter
      = (w', Thrown message)
      ∧ sync_queue (db w') = [exhausted_row]
      ∧ sync_dead_letter_queue (db w')
        = sync_dead_letter_queue (db world_with_stale_dead_letter)
      ∧ List.map t_sync_status (tasks (db w')) = [SqlText "error"].
Proof.
  split; [vm_compute; discriminate|].
  eexists _, _. split; [reflexivity|]. repeat split.
Qed.

(** How a store gets there: in a batch of two, the first item is
    escalated on its error outcome, the handling of the second throws, and
    the [catch] block handles the first item again. *)
Lemma escalated_item_is_handled_again :
  let second := queued "sync_2_b" "task-2" 1700000000001 0 in
  let reply :=
    PostResolved
      {| processed_items :=
           Some [Some {| client_id := "task-1"; server_id := None;
                         status := status_error; resolved_data := None;
                         error := Some "Rejected" |};
                 Some {| client_id := "task-2"; server_id := None;
                         status := status_conflict; resolved_data := None;
                         error := None |}] |} in
  let w :=
    {| db := {| tasks := [task_row "task-1" "error";
                          task_row "task-2" "pending"];
                sync_queue := [exhausted_row; second];
                sync_dead_letter_queue := [];
                sync_queue_columns := sync_queue_columns createTables |};
       calls := 0; outbox := [] |} in
  ∃ w',
    processBatchWithChecksum (runtime true reply) new_SyncService
      [row_to_item exhausted_row; row_to_item second] w
    = (w',
       Thrown
         "SQLITE_CONSTRAINT: UNIQUE constraint failed: sync_dead_letter_queue.id")
    ∧ List.map d_id (sync_dead_letter_queue (db w')) = ["dlq_sync_1_a"]
    ∧ List.map q_id (sync_queue (db w')) = ["sync_2_b"].
Proof. vm_compute. eexists. repeat split. Qed.



(** Three passes against a remote that rejects every batch, on a store that
    accepts the in-progress marking. *)
Lemma rejected_mutation_is_dead_lettered_witness :
  let rt := runtime true (PostRejected "Network Error") in
  let w3 := sync_times rt new_SyncService 3 world_with_status_column in
  sync_queue (db w3) = []
  ∧ (∃ failed_at,
       sync_dead_letter_queue (db w3)
       = sync_dead_letter_queue (db world_with_status_column)
           ++ [dead_letter_of
                 (row_at "Network Error" new_row
                    (Z.to_nat (maxRetries new_SyncService - 1)))
                 "Network Error" failed_at])
  ∧ length (outbox w3)
    = (length (outbox world_with_status_column)
       + Z.to_nat (maxRetries new_SyncService))%nat.
Proof.
  exact (proj2
           (Retry.rejected_mutation_is_dead_lettered
              (runtime true (PostRejected "Network Error")) new_SyncService
              50 "Network Error" eq_refl eq_refl
              (fun _ => eq_refl) (fun _ _ _ => eq_refl)
              new_row world_with_status_column eq_refl
              ltac:(apply (bool_decide_unpack _); reflexivity)
              eq_refl eq_refl eq_refl 3%nat)
           ltac:(vm_compute; discriminate)).
Defined.

(** After one rejected pass the queue entry is marked in-progress and
    carries an error message; the report still gives 0 for both fields. *)
Lemma getSyncStatus_after_rejected_pass :
  let rt := runtime true (PostRejected "Network Error") in
  let w1 := sync_times rt new_SyncService 1 world_with_status_column in
  List.map (fun r => (q_sync_status r, q_error_message r, q_retry_count r))
    (sync_queue (db w1))
  = [(Some "in-progress", Some "Network Error", 1)]
  ∧ snd (getSyncStatus rt new_SyncService w1)
    = Returned {| SyncStatus.pending := 1; SyncStatus.inProgress := 0;
                  SyncStatus.errors := 0; SyncStatus.deadLetter := 0;
                  SyncStatus.lastSync := None |}.
Proof. split; reflexivity. Qed.

(** Equal [updated_at]: the local title is kept. *)
Lemma resolve_tie_run :
  let rt := runtime true accepted in
  let serverTask := <["updated_at" := JStr "2024-05-01T10:00:00.010Z"]>
                      remote_version in
  ∃ merged,
    snd (resolveConflictWithPriority rt local_version (Some serverTask)
           new_world) = Returned merged
    ∧ merged !! "title" = Some (JStr "Local title")
    ∧ merged !! "id" = Some (JStr "srv_77")
    ∧ merged !! "sync_status" = Some (JStr "synced").
Proof. eexists. split; [reflexivity|]. repeat split. Qed.

Lemma resolve_tie_and_stamps_witness :
  ∃ merged,
    resolveConflictWithPriority (runtime true accepted) local_version
      (Some tied_version) new_world
    = (tick (tick new_world), Returned merged)
    ∧ merged !! "sync_status" = Some (JStr "synced")
    ∧ merged !! "last_synced_at"
      = Some (JDate (Some (Date_now (runtime true accepted)
                             (calls new_world))))
    ∧ merged !! "updated_at"
      = Some (JDate (Some (Date_now (runtime true accepted)
                             (S (calls new_world)))))
    ∧ mergeTasks (runtime true accepted) local_version tied_version client
        new_world
      = (tick (tick new_world), Returned merged)
    ∧ client_wins local_version tied_version merged.
Proof.
  destruct (Resolver.resolve_tie_and_stamps (runtime true accepted)
              local_version tied_version new_world)
    as (merged & Hrun & Hstatus & Hsynced & Hupdated & Htie).
  exists merged. split; [exact Hrun|]. split; [exact Hstatus|].
  split; [exact Hsynced|]. split; [exact Hupdated|].
  exact (Htie 1714557600010 eq_refl eq_refl).
Defined.

End Runs.

(* ================================================================== *)
(** * Theorems: what the methods keep *)
(* ================================================================== *)

Module Frame.

Section Keeps.
Context {St : Type} (R : St → St → Prop).
Hypothesis R_refl : ∀ s, R s s.
Hypothesis R_trans : ∀ a b c, R a b → R b c → R a c.

Lemma keeps_ret {A} (a : A) : keeps R (ret a).
Proof. intros s. apply R_refl. Qed.

Lemma keeps_throw {A} e : keeps R (@throw St A e).
Proof. intros s. apply R_refl. Qed.

Lemma keeps_bind {A B} (m : M St A) (k : A → M St B) :
  keeps R m → (∀ a, keeps R (k a)) → keeps R (bind m k).
Proof.
  intros Hm Hk s. unfold bind. specialize (Hm s).
  destruct (m s) as [s' [a|e]]; cbn in *; [|exact Hm].
  eapply R_trans; [exact Hm | apply Hk].
Qed.

Lemma keeps_try_catch {A} (m : M St A) (h : string → M St A) :
  keeps R m → (∀ e, keeps R (h e)) → keeps R (try_catch m h).
Proof.
  intros Hm Hh s. unfold try_catch. specialize (Hm s).
  destruct (m s) as [s' [a|e]]; cbn in *; [exact Hm|].
  eapply R_trans; [exact Hm | apply Hh].
Qed.

Lemma keeps_for_of {A} (l : list A) (body : A → M St unit) :
  (∀ x, keeps R (body x)) → keeps R (for_of l body).
Proof.
  intros Hb. induction l as [|x l IH]; cbn [for_of].
  - apply keeps_ret.
  - apply keeps_bind; auto.
Qed.

Lemma keeps_for_index {A} i (l : list A) (body : nat → A → M St unit) :
  (∀ j x, keeps R (body j x)) → keeps R (for_index i l body).
Proof.
  intros Hb. revert i. induction l as [|x l IH]; intros i; cbn [for_index].
  - apply keeps_ret.
  - apply keeps_bind; auto.
Qed.

End Keeps.

Section Lifted.
Context {L : Type} (R : World → World → Prop).

Lemma keeps_lift {A} (m : M World A) :
  keeps R m → keeps (@on_world L R) (lift m).
Proof.
  intros Hm s. unfold on_world, lift. specialize (Hm (fst s)).
  destruct (m (fst s)) as [w o]. exact Hm.
Qed.

Lemma keeps_update_local (f : L → L) :
  (∀ w, R w w) → keeps (@on_world L R) (update_local f).
Proof. intros Hr s. unfold on_world, update_local. cbn. apply Hr. Qed.


End Lifted.

End Frame.

Module Steps.

Import Frame.

(** Every step of the service, apart from the POST, keeps a relation that
    the primitive steps keep. *)
Section Generic.
Variable rt : Runtime.
Variable this : SyncService.
Variable R : World → World → Prop.
Hypothesis R_refl : ∀ w, R w w.
Hypothesis R_trans : ∀ a b c, R a b → R b c → R a c.
Hypothesis R_tick : ∀ w, R w (tick w).
Hypothesis R_progress :
  ∀ w id d, update_queue_in_progress id (db w) = inl d → R w (set_db d w).
Hypothesis R_retry :
  ∀ w k e id, R w (set_db (update_queue_retry k e id (db w)) w).
Hypothesis R_delete : ∀ w id, R w (set_db (delete_queue id (db w)) w).
Hypothesis R_dead :
  ∀ w row d, insert_dead_letter row (db w) = inl d → R w (set_db d w).
Hypothesis R_tasks :
  ∀ w f id, (∀ r, t_id (f r) = t_id r) →
    R w (set_db (update_tasks f id (db w)) w).

Lemma keeps_new_Date : keeps R (new_Date rt).
Proof. intros w. apply R_tick. Qed.


Lemma keeps_markItemsAsInProgress l : keeps R (markItemsAsInProgress l).
Proof.
  apply keeps_for_of; auto. intros item w. unfold db_run_checked.
  destruct (update_queue_in_progress (it_id item) (db w)) as [d|e] eqn:H;
    cbn; eauto.
Qed.

Lemma keeps_update_tasks f id :
  (∀ r, t_id (f r) = t_id r) → keeps R (db_run (update_tasks f id)).
Proof. intros Hf w. apply R_tasks, Hf. Qed.

Lemma keeps_updateTaskFromSync id updates :
  keeps R (updateTaskFromSync rt id updates).
Proof.
  apply keeps_bind; [exact R_trans|apply keeps_new_Date|intros now w].
  unfold db_run_checked.
  destruct (is_null _ && _); cbn; [apply R_refl|].
  apply R_tasks. reflexivity.
Qed.

Lemma keeps_markAsSynced id serverId : keeps R (markAsSynced rt id serverId).
Proof.
  apply keeps_bind; [exact R_trans|apply keeps_new_Date|intros now].
  apply keeps_update_tasks. reflexivity.
Qed.

Lemma keeps_markSyncError id : keeps R (markSyncError rt id).
Proof.
  apply keeps_bind; [exact R_trans|apply keeps_new_Date|intros now].
  apply keeps_update_tasks. reflexivity.
Qed.

Lemma keeps_markSyncFailed id : keeps R (markSyncFailed rt id).
Proof.
  apply keeps_bind; [exact R_trans|apply keeps_new_Date|intros now].
  apply keeps_update_tasks. reflexivity.
Qed.

Lemma keeps_removeFromSyncQueue id : keeps R (removeFromSyncQueue id).
Proof. intros w. apply R_delete. Qed.

Lemma keeps_handleSyncSuccess item serverId resolvedTask :
  keeps R (handleSyncSuccess rt item serverId resolvedTask).
Proof.
  apply keeps_bind;
    [exact R_trans| |intros; apply keeps_removeFromSyncQueue].
  destruct resolvedTask; [apply keeps_updateTaskFromSync|].
  destruct (nonempty serverId); [apply keeps_markAsSynced|].
  apply keeps_ret, R_refl.
Qed.

Lemma keeps_moveToDeadLetterQueue item e :
  keeps R (moveToDeadLetterQueue rt item e).
Proof.
  apply keeps_bind; [exact R_trans|apply keeps_new_Date|intros failed_at].
  apply keeps_bind;
    [exact R_trans| |intros; apply keeps_removeFromSyncQueue].
  intros w. unfold db_run_checked.
  destruct (insert_dead_letter _ (db w)) as [d|e'] eqn:H; cbn; eauto.
Qed.

Lemma keeps_handleSyncError item e : keeps R (handleSyncError rt this item e).
Proof.
  unfold handleSyncError. destruct (maxRetries this <=? _).
  - apply keeps_bind;
      [exact R_trans|apply keeps_moveToDeadLetterQueue
      |intros; apply keeps_markSyncFailed].
  - apply keeps_bind; [exact R_trans| |intros; apply keeps_markSyncError].
    intros w. apply R_retry.
Qed.

Lemma keeps_mergeTasks a b src : keeps R (mergeTasks rt a b src).
Proof.
  apply keeps_bind; [exact R_trans|apply keeps_new_Date|intros t1].
  apply keeps_bind; [exact R_trans|apply keeps_new_Date|intros t2].
  apply keeps_ret, R_refl.
Qed.

Lemma keeps_resolveConflictWithPriority a b :
  keeps R (resolveConflictWithPriority rt a b).
Proof.
  unfold resolveConflictWithPriority. destruct b; [|apply keeps_throw, R_refl].
  destruct (time_eq _ _); [apply keeps_mergeTasks|].
  destruct (time_gt _ _); apply keeps_mergeTasks.
Qed.

Lemma RW_refl (s : World * SyncResult) : on_world R s s.
Proof. apply R_refl. Qed.

Lemma RW_trans (a b c : World * SyncResult) :
  on_world R a b → on_world R b c → on_world R a c.
Proof. unfold on_world. apply R_trans. Qed.

Lemma keeps_local (f : SyncResult → SyncResult) :
  keeps (on_world R) (update_local f).
Proof. apply keeps_update_local, R_refl. Qed.

Lemma keeps_reconcile_item response i item :
  keeps (on_world R) (reconcile_item rt this response i item).
Proof.
  unfold reconcile_item.
  destruct (processed_items response) as [processed|];
    [|apply keeps_throw, RW_refl].
  destruct (mjoin (processed !! i)) as [p|].
  - destruct (status p).
    + apply keeps_bind; [apply RW_trans| |intros; apply keeps_local].
      apply keeps_lift, keeps_handleSyncSuccess.
    + apply keeps_bind; [apply RW_trans| |intros resolved].
      { apply keeps_lift, keeps_resolveConflictWithPriority. }
      apply keeps_bind; [apply RW_trans| |intros].
      { apply keeps_lift, keeps_handleSyncSuccess. }
      apply keeps_bind; [apply RW_trans|apply keeps_local|intros].
      apply keeps_bind; [apply RW_trans| |intros; apply keeps_local].
      apply keeps_lift, keeps_new_Date.
    + apply keeps_bind; [apply RW_trans| |intros].
      { apply keeps_lift, keeps_handleSyncError. }
      apply keeps_bind; [apply RW_trans|apply keeps_local|intros].
      apply keeps_bind; [apply RW_trans| |intros; apply keeps_local].
      apply keeps_lift, keeps_new_Date.
  - apply keeps_bind; [apply RW_trans| |intros; apply keeps_local].
    apply keeps_lift, keeps_handleSyncError.
Qed.

(** The loop over an answered batch. *)
Lemma keeps_reconcile response l :
  keeps (on_world R) (for_index 0 l (reconcile_item rt this response)).
Proof.
  apply keeps_for_index; [apply RW_refl|apply RW_trans|].
  intros. apply keeps_reconcile_item.
Qed.

(** The [catch] block of [processBatchWithChecksum]. *)
Lemma keeps_fail_all l e :
  keeps (on_world R)
    (for_of l
       (fun item =>
          do* lift (handleSyncError rt this item e) in
          do* update_local count_failed in
          let* ts := lift (new_Date rt) in
          update_local (push_errors [item_error item e ts]))).
Proof.
  apply keeps_for_of; [apply RW_refl|apply RW_trans|]. intros item.
  apply keeps_bind; [apply RW_trans| |intros].
  { apply keeps_lift, keeps_handleSyncError. }
  apply keeps_bind; [apply RW_trans|apply keeps_local|intros].
  apply keeps_bind; [apply RW_trans| |intros; apply keeps_local].
  apply keeps_lift, keeps_new_Date.
Qed.

(** With the POST among the steps: a batch and a whole pass. *)
Section WithPost.
Hypothesis R_post :
  ∀ w sent,
    R w {| db := db w; calls := S (calls w); outbox := outbox w ++ [sent] |}.





End WithPost.

End Generic.

(** ** The relations of the statements are kept by the primitive steps *)















End Steps.

(* ================================================================== *)
(** * Theorems: the requests a pass sends *)
(* ================================================================== *)

Module Requests.

Import Frame Steps.

Lemma same_outbox_refl w : same_outbox w w.
Proof. reflexivity. Qed.

Lemma same_outbox_trans a b c :
  same_outbox a b → same_outbox b c → same_outbox a c.
Proof. unfold same_outbox. congruence. Qed.

(** A computation that starts with [m], inside a [try] whose handler and
    continuation keep [R], ends in a state [R]-related to the one [m]
    leaves. *)
Lemma after_first_step {St A B C} (R : St → St → Prop)
    (m : M St A) (k : A → M St B) (h : string → M St B) (k2 : B → M St C) s :
  (∀ s, R s s) → (∀ a b c, R a b → R b c → R a c) →
  (∀ a, keeps R (k a)) → (∀ e, keeps R (h e)) → (∀ b, keeps R (k2 b)) →
  R (fst (m s)) (fst (bind (try_catch (bind m k) h) k2 s)).
Proof.
  intros Hrefl Htrans Hk Hh Hk2. unfold bind, try_catch.
  destruct (m s) as [s1 [a|e]]; cbn [fst].
  - pose proof (Hk a s1) as H1. destruct (k a s1) as [s2 [b|e]]; cbn in *.
    + eapply Htrans; [exact H1|apply Hk2].
    + pose proof (Hh e s2) as H2. destruct (h e s2) as [s3 [b|e']]; cbn in *.
      * eapply Htrans; [exact H1|]. eapply Htrans; [exact H2|apply Hk2].
      * eapply Htrans; eauto.
  - pose proof (Hh e s1) as H2. destruct (h e s1) as [s3 [b|e']]; cbn in *.
    + eapply Htrans; [exact H2|apply Hk2].
    + exact H2.
Qed.

Section Sent.
Variable rt : Runtime.
Variable this : SyncService.

(** Whatever the remote answers and whatever the handling of the outcomes
    does, a batch adds one request to the ones sent: the batch itself with
    its checksum. *)
Lemma processBatch_outbox l w :
  outbox (fst (processBatchWithChecksum rt this l w))
  = outbox w ++ [request_of rt l w].
Proof.
  unfold processBatchWithChecksum, bind at 1, new_Date.
  unfold with_local.
  match goal with
  | |- context [bind (try_catch (bind ?m ?k) ?h) ?k2 ?s] =>
      assert (H : on_world same_outbox (fst (m s))
                    (fst (bind (try_catch (bind m k) h) k2 s)))
  end.
  { apply after_first_step.
    - intros; apply same_outbox_refl.
    - intros a b c; apply same_outbox_trans.
    - intros;
        apply (keeps_reconcile rt this same_outbox same_outbox_refl
                 same_outbox_trans); intros; reflexivity.
    - intros;
        apply (keeps_fail_all rt this same_outbox same_outbox_refl
                 same_outbox_trans); intros; reflexivity.
    - intros; apply keeps_update_local, same_outbox_refl. }
  unfold on_world, same_outbox in H.
  destruct (bind _ _ _) as [[w' r] [u|e]]; cbn [fst] in *; rewrite H;
    unfold lift, post_batch; cbn [fst snd tick db calls outbox];
    destruct (axios_post _ _ _ _); reflexivity.
Qed.

Lemma sent_batches_prefix batches w :
  List.map (fun x => items (fst x)) (sent_batches rt this batches w)
    `prefix_of` batches.
Proof.
  revert w. induction batches as [|batch rest IH]; intros w;
    cbn [sent_batches List.map].
  - apply prefix_nil.
  - change (items (fst (request_of rt batch w))) with batch.
    apply prefix_cons.
    destruct (processBatchWithChecksum rt this batch w) as [w' [r|e]];
      [apply IH | apply prefix_nil].
Qed.

Lemma sent_batches_summed batches w :
  Forall (well_summed rt) (sent_batches rt this batches w).
Proof.
  revert w. induction batches as [|batch rest IH]; intros w;
    cbn [sent_batches].
  - constructor.
  - constructor; [reflexivity|].
    destruct (processBatchWithChecksum rt this batch w) as [w' [r|e]];
      [apply IH | constructor].
Qed.

(** The body of the loop returns exactly when the handling of the batch
    returns, in the world the handling left. *)
Lemma batch_turn_world batch (s : World * SyncResult) :
  match processBatchWithChecksum rt this batch (fst s) with
  | (w1, Returned _) =>
      ∃ r1,
        (let* batchResult := lift (processBatchWithChecksum rt this batch) in
         do* update_local
               (fun r =>
                  set_synced_items
                    (synced_items r + synced_items batchResult) r) in
         do* update_local
               (fun r =>
                  set_failed_items
                    (failed_items r + failed_items batchResult) r) in
         if 0 <? Z.of_nat (length (errors batchResult))
         then update_local (push_errors (errors batchResult))
         else ret tt) s
        = ((w1, r1), Returned tt)
  | (w1, Thrown e) =>
      (let* batchResult := lift (processBatchWithChecksum rt this batch) in
       do* update_local
             (fun r =>
                set_synced_items
                  (synced_items r + synced_items batchResult) r) in
       do* update_local
             (fun r =>
                set_failed_items
                  (failed_items r + failed_items batchResult) r) in
       if 0 <? Z.of_nat (length (errors batchResult))
       then update_local (push_errors (errors batchResult))
       else ret tt) s
      = ((w1, snd s), Thrown e)
  end.
Proof.
  destruct (processBatchWithChecksum rt this batch (fst s))
    as [w1 [br|e]] eqn:Hbatch.
  - unfold bind at 1, lift. rewrite Hbatch.
    unfold bind, update_local, ret. cbn [fst snd].
    destruct (0 <? _); eexists; reflexivity.
  - unfold bind at 1, lift. rewrite Hbatch. reflexivity.
Qed.

(** The loop of [sync] over the batches sends the batches one after the
    other and stops after the first whose handling throws. *)
Lemma batches_outbox batches (s : World * SyncResult) :
  outbox
    (fst (fst
       (for_of batches
          (fun batch =>
             let* batchResult :=
               lift (processBatchWithChecksum rt this batch) in
             do* update_local
                   (fun r =>
                      set_synced_items
                        (synced_items r + synced_items batchResult) r) in
             do* update_local
                   (fun r =>
                      set_failed_items
                        (failed_items r + failed_items batchResult) r) in
             if 0 <? Z.of_nat (length (errors batchResult))
             then update_local (push_errors (errors batchResult))
             else ret tt) s)))
  = outbox (fst s) ++ sent_batches rt this batches (fst s).
Proof.
  revert s. induction batches as [|batch rest IH]; intros s.
  - cbn. rewrite app_nil_r. reflexivity.
  - cbn [for_of sent_batches]. unfold bind at 1.
    pose proof (batch_turn_world batch s) as Hturn.
    pose proof (processBatch_outbox batch (fst s)) as Hout.
    destruct (processBatchWithChecksum rt this batch (fst s))
      as [w1 [br|e]]; cbn [fst] in Hout.
    + destruct Hturn as [r1 ->]. rewrite IH. cbn [fst].
      rewrite Hout, <- app_assoc. reflexivity.
    + rewrite Hturn. cbn [fst]. exact Hout.
Qed.

(** X2.  The requests a pass sends, whatever the store and the remote.
    None is sent when the probe fails, when nothing is drained or when the
    in-progress marking is refused.  Otherwise the batches of
    [createChronologicalBatches] of the drained items are sent one after
    the other, each with the checksum of that batch, from the first on, and
    the batch after one is sent exactly when the handling of that one
    returned: sending stops after the first batch whose handling throws,
    and every batch is sent when none does. *)
Theorem sync_sends_batches_in_order w :
  ∃ sent,
    outbox (fst (sync rt this w)) = outbox w ++ sent
    ∧ sent
      = (if axios_get rt (calls w) then
           match drained rt this w with
           | [] => []
           | _ :: _ =>
               match markItemsAsInProgress (drained rt this w) (tick w) with
               | (w1, Returned _) =>
                   sent_batches rt this
                     (createChronologicalBatches this (drained rt this w)) w1
               | (_, Thrown _) => []
               end
           end
         else [])
    ∧ List.map (fun x => items (fst x)) sent
        `prefix_of` createChronologicalBatches this (drained rt this w)
    ∧ Forall (well_summed rt) sent.
Proof.
  eexists. split; [|split; [reflexivity|]].
  - rewrite Pass.sync_eq.
    assert (Htry :
      outbox (fst (fst (sync_try rt this (w, empty_result))))
      = outbox w
          ++ (if axios_get rt (calls w) then
                match drained rt this w with
                | [] => []
                | _ :: _ =>
                    match
                      markItemsAsInProgress (drained rt this w) (tick w)
                    with
                    | (w1, Returned _) =>
                        sent_batches rt this
                          (createChronologicalBatches this
                             (drained rt this w)) w1
                    | (_, Thrown _) => []
                    end
                end
              else [])).
    { unfold sync_try, bind at 1. unfold lift at 1.
      rewrite Pass.checkConnectivity_eq. cbn [fst snd].
      destruct (axios_get rt (calls w)); cbn [negb];
        [|cbn; rewrite app_nil_r; reflexivity].
      unfold bind at 1. unfold lift at 1. cbn [fst snd].
      unfold getPendingSyncItemsChronological, bind at 1, db_query, ret.
      cbn [fst snd tick db]. fold (drained rt this w).
      unfold bind at 1, update_local at 1. cbn [fst snd].
      destruct (drained rt this w) as [|item rest] eqn:Hd;
        [cbn; rewrite app_nil_r; reflexivity|].
      replace (Z.of_nat (length (item :: rest)) =? 0) with false
        by (symmetry; apply Z.eqb_neq; cbn [length]; lia).
      unfold bind at 1, lift at 1. cbn [fst snd].
      pose proof (keeps_markItemsAsInProgress same_outbox
                    same_outbox_refl same_outbox_trans
                    (fun _ _ _ _ => eq_refl) (item :: rest) (tick w)) as Hm.
      unfold same_outbox in Hm. cbn [outbox tick] in Hm.
      change {| db := db w; calls := S (calls w); outbox := outbox w |}
        with (tick w).
      destruct (markItemsAsInProgress (item :: rest) (tick w))
        as [w1 [u|e]]; cbn [fst snd] in *.
      - unfold bind at 1. rewrite <- Hm.
        pose proof (batches_outbox
                      (createChronologicalBatches this (item :: rest))
                      (w1, set_synced_items
                             (Z.of_nat (length (item :: rest)))
                             empty_result)) as Hb.
        cbn [fst] in Hb.
        destruct (for_of _ _ _) as [s3 [u3|e3]];
          unfold update_local; cbn [fst snd] in *; exact Hb.
      - rewrite app_nil_r. exact Hm. }
    destruct (sync_try rt this (w, empty_result)) as [[w1 r1] [u|e]];
      cbn [fst] in *; exact Htry.
  - destruct (axios_get rt (calls w));
      [|split; [apply prefix_nil | constructor]].
    destruct (drained rt this w) as [|item rest];
      [split; [apply prefix_nil | constructor]|].
    destruct (markItemsAsInProgress (item :: rest) (tick w))
      as [w1 [u|e]];
      [|split; [apply prefix_nil | constructor]].
    split; [apply sent_batches_prefix | apply sent_batches_summed].
Qed.

End Sent.

End Requests.

(* ================================================================== *)
(** * Theorems: ORDER BY *)
(* ================================================================== *)

Module Sorting.

Section SortWith.
Context {A : Type} (leb : A → A → bool).
Hypothesis leb_total : ∀ a b, leb a b = true ∨ leb b a = true.
Hypothesis leb_trans : ∀ a b c, leb a b = true → leb b c = true → leb a c = true.

Lemma insert_with_perm x l : Permutation (insert_with leb x l) (x :: l).
Proof.
  induction l as [|y l IH]; cbn; [reflexivity|].
  destruct (leb x y); [reflexivity|].
  rewrite IH. apply perm_swap.
Qed.

Lemma sort_with_perm l : Permutation (sort_with leb l) l.
Proof.
  induction l as [|x l IH]; cbn; [reflexivity|].
  rewrite insert_with_perm, IH. reflexivity.
Qed.

Lemma insert_with_sorted x l :
  StronglySorted (fun a b => leb a b = true) l →
  StronglySorted (fun a b => leb a b = true) (insert_with leb x l).
Proof.
  induction 1 as [|y l Hs IH Hy]; cbn.
  - repeat constructor.
  - destruct (leb x y) eqn:Hxy.
    + constructor; [constructor; assumption|].
      constructor; [exact Hxy|].
      eapply Forall_impl; [exact Hy|].
      intros z Hz. exact (leb_trans _ _ _ Hxy Hz).
    + constructor; [exact IH|].
      assert (Hyx : leb y x = true)
        by (destruct (leb_total x y); congruence).
      rewrite Forall_forall. intros z Hz.
      rewrite insert_with_perm in Hz.
      apply elem_of_cons in Hz as [->|Hz]; [exact Hyx|].
      rewrite Forall_forall in Hy. auto.
Qed.

Lemma sort_with_sorted l :
  StronglySorted (fun a b => leb a b = true) (sort_with leb l).
Proof.
  induction l as [|x l IH]; cbn; [constructor|].
  apply insert_with_sorted, IH.
Qed.

End SortWith.

End Sorting.

(* ================================================================== *)
(** * Theorems: the queue and the dead-letter table *)
(* ================================================================== *)

Module Queue.

Section Entries.
Variable rt : Runtime.
Variable this : SyncService.

(** X3.  An error outcome that leaves the new retry count below
    [maxRetries]: [handleSyncError] returns; every queue entry of the
    item's id now carries the new count and the error message and is
    otherwise as before, the other entries are untouched; the dead-letter
    table is untouched; every task row of the item's task has
    [sync_status] error, the other task rows are untouched. *)
Theorem handleSyncError_keeps_in_queue item message w :
  it_retry_count item + 1 < maxRetries this →
  ∃ w',
    handleSyncError rt this item message w = (w', Returned tt)
    ∧ Forall2
        (fun old new =>
           if String.eqb (q_id old) (it_id item)
           then q_retry_count new = it_retry_count item + 1
                ∧ q_error_message new = Some message
                ∧ same_mutation old new
                ∧ q_sync_status new = q_sync_status old
           else new = old)
        (sync_queue (db w)) (sync_queue (db w'))
    ∧ sync_dead_letter_queue (db w') = sync_dead_letter_queue (db w)
    ∧ Forall2
        (fun old new =>
           if String.eqb (t_id old) (it_task_id item)
           then t_sync_status new = SqlText "error" ∧ t_id new = t_id old
           else new = old)
        (tasks (db w)) (tasks (db w'))
    ∧ outbox w' = outbox w.
Proof.
  intros Hlt. unfold handleSyncError.
  replace (maxRetries this <=? _) with false
    by (symmetry; apply Z.leb_gt; exact Hlt).
  eexists. split; [reflexivity|]. cbn.
  split; [|split; [reflexivity|split; [|reflexivity]]].
  - induction (sync_queue (db w)) as [|r l IH]; cbn; constructor; auto.
    destruct (String.eqb (q_id r) (it_id item)); cbn; auto.
    repeat split.
  - induction (tasks (db w)) as [|t l IH]; cbn; constructor; auto.
    destruct (String.eqb (t_id t) (it_task_id item)); cbn; auto.
Qed.

(** X4.  An error outcome that exhausts the retries while the dead-letter
    table already holds a row of id ["dlq_" + id]: the INSERT is refused,
    [handleSyncError] throws, and the store is as before: the entry is
    still in the queue with its old retry count, and no task is marked
    failed. *)
Theorem handleSyncError_dead_letter_id_taken item message w :
  maxRetries this <= it_retry_count item + 1 →
  existsb (fun r => String.eqb (d_id r) ("dlq_" +:+ it_id item))
    (sync_dead_letter_queue (db w)) = true →
  handleSyncError rt this item message w
  = (tick w,
     Thrown
       "SQLITE_CONSTRAINT: UNIQUE constraint failed: sync_dead_letter_queue.id")
  ∧ db (tick w) = db w.
Proof.
  intros Hmax Htaken. unfold handleSyncError.
  replace (maxRetries this <=? _) with true
    by (symmetry; apply Z.leb_le; exact Hmax).
  unfold bind, moveToDeadLetterQueue, bind, new_Date, db_run_checked,
    insert_dead_letter.
  cbn [tick db calls outbox d_id]. rewrite Htaken. split; reflexivity.
Qed.

Lemma filter_all {A} (f : A → bool) l :
  Forall (fun x => f x = true) l → List.filter f l = l.
Proof.
  induction 1 as [|x l Hx _ IH]; cbn; [reflexivity|].
  rewrite Hx, IH. reflexivity.
Qed.

Lemma filter_filter_same {A} (f : A → bool) l :
  List.filter f (List.filter f l) = List.filter f l.
Proof.
  apply filter_all, Forall_forall. intros x Hx.
  apply list_elem_of_In, filter_In in Hx as [_ Hx]. exact Hx.
Qed.

(** X5.  [removeFromSyncQueue] never throws; it leaves a queue without the
    id; removing an id that no entry has changes nothing, and removing
    twice is removing once. *)
Theorem removeFromSyncQueue_idempotent id w :
  let w1 := fst (removeFromSyncQueue id w) in
  snd (removeFromSyncQueue id w) = Returned tt
  ∧ Forall (fun r => q_id r ≠ id) (sync_queue (db w1))
  ∧ (Forall (fun r => q_id r ≠ id) (sync_queue (db w)) → w1 = w)
  ∧ fst (removeFromSyncQueue id w1) = w1.
Proof.
  cbn zeta. unfold removeFromSyncQueue, db_run. cbn [fst snd].
  split; [reflexivity|]. split; [apply Escalation.delete_queue_no_entry|].
  assert (Hsame : ∀ d,
    Forall (fun r => q_id r ≠ id) (sync_queue d) → delete_queue id d = d).
  { intros d Hd. unfold delete_queue. rewrite filter_all.
    - destruct d; reflexivity.
    - eapply Forall_impl; [exact Hd|]. intros r Hr. cbv beta in *.
      apply negb_true_iff, String.eqb_neq, Hr. }
  split.
  - intros Habs. rewrite (Hsame _ Habs). destruct w; reflexivity.
  - cbn [set_db db]. rewrite (Hsame (delete_queue id (db w))).
    + reflexivity.
    + apply Escalation.delete_queue_no_entry.
Qed.

(** The id [addToSyncQueue] gives the entry it writes at [w]. *)
Lemma addToSyncQueue_fresh taskId operation data w :
  let id := "sync_" +:+ string_of_Z (Date_now rt (calls w)) +:+ "_"
            +:+ Math_random rt (S (calls w)) in
  existsb (fun r => String.eqb (q_id r) id) (sync_queue (db w)) = false →
  addToSyncQueue rt taskId operation data w
  = ({| db :=
          set_sync_queue
            (sync_queue (db w)
               ++ [{| q_id := id; q_task_id := taskId;
                      q_operation := operation;
                      q_data := JSON_stringify (Date_toISOString rt) data;
                      q_created_at := Date_now rt (S (S (calls w)));
                      q_retry_count := 0; q_error_message := None;
                      q_sync_status := None |}])
            (db w);
        calls := S (S (S (calls w)));
        outbox := outbox w |},
     Returned tt).
Proof.
  cbn zeta. intros Hfresh.
  unfold addToSyncQueue, bind, new_Date, random_suffix, db_run_checked,
    insert_queue.
  cbn [tick db calls outbox q_id]. rewrite Hfresh. reflexivity.
Qed.

(** X6.  Enqueue, then drain.  When the id drawn for the new entry is not
    taken and [maxRetries] is positive, [addToSyncQueue] returns and the
    next drain returns the items it would have returned before together
    with one item for the new mutation: the task id and operation given,
    retry count 0, no error message, and as payload the data as JSON
    carries it. *)
Theorem addToSyncQueue_then_drain taskId operation data w :
  0 < maxRetries this →
  existsb
    (fun r =>
       String.eqb (q_id r)
         ("sync_" +:+ string_of_Z (Date_now rt (calls w)) +:+ "_"
            +:+ Math_random rt (S (calls w))))
    (sync_queue (db w)) = false →
  ∃ w1,
    addToSyncQueue rt taskId operation data w = (w1, Returned tt)
    ∧ Permutation (drained rt this w1)
        ({| it_id := "sync_" +:+ string_of_Z (Date_now rt (calls w)) +:+ "_"
                     +:+ Math_random rt (S (calls w));
            it_task_id := taskId;
            it_operation := operation;
            it_data :=
              JSON_parse (JSON_stringify (Date_toISOString rt) data);
            it_created_at := Date_now rt (S (S (calls w)));
            it_retry_count := 0;
            it_error_message := None |} :: drained rt this w).
Proof.
  intros Hpos Hfresh. eexists.
  split; [apply addToSyncQueue_fresh; exact Hfresh|].
  unfold drained, select_pending. cbn [db set_sync_queue sync_queue].
  rewrite !Drain.order_by_perm, List.filter_app. cbn [List.filter q_retry_count].
  replace (0 <? maxRetries this) with true
    by (symmetry; apply Z.ltb_lt; exact Hpos).
  rewrite map_app. cbn [List.map row_to_item q_id q_task_id q_operation
    q_data q_created_at q_retry_count q_error_message].
  rewrite Permutation_app_comm. reflexivity.
Qed.

(** X7.  When the id drawn for the new entry is already the id of a queue
    entry, the INSERT is refused: [addToSyncQueue] throws and the store is
    as before. *)
Theorem addToSyncQueue_id_taken taskId operation data w :
  existsb
    (fun r =>
       String.eqb (q_id r)
         ("sync_" +:+ string_of_Z (Date_now rt (calls w)) +:+ "_"
            +:+ Math_random rt (S (calls w))))
    (sync_queue (db w)) = true →
  ∃ w1,
    addToSyncQueue rt taskId operation data w
    = (w1, Thrown "SQLITE_CONSTRAINT: UNIQUE constraint failed: sync_queue.id")
    ∧ db w1 = db w ∧ outbox w1 = outbox w.
Proof.
  intros Htaken. eexists.
  unfold addToSyncQueue, bind, new_Date, random_suffix, db_run_checked,
    insert_queue.
  cbn [tick db calls outbox q_id]. rewrite Htaken.
  split; [reflexivity|]. split; reflexivity.
Qed.

End Entries.

End Queue.

(* ================================================================== *)
(** * Theorems: reports *)
(* ================================================================== *)

Module Reports.



Section Status.
Variable rt : Runtime.
Variable this : SyncService.

(** X8.  [getSyncStatus] agrees with the two lists it summarises: [pending]
    is the number of items the drain returns in the same world, and
    [deadLetter] is the number of items [getDeadLetterQueue] returns. *)
Theorem getSyncStatus_counts w :
  ∃ report pendingItems deadItems,
    getSyncStatus rt this w = (w, Returned report)
    ∧ getPendingSyncItemsChronological rt this w = (w, Returned pendingItems)
    ∧ getDeadLetterQueue w = (w, Returned deadItems)
    ∧ SyncStatus.pending report = Z.of_nat (length pendingItems)
    ∧ SyncStatus.deadLetter report = Z.of_nat (length deadItems).
Proof.
  eexists _, _, _. split; [reflexivity|]. split; [reflexivity|].
  split; [reflexivity|]. cbn [SyncStatus.pending SyncStatus.deadLetter].
  unfold count_pending, count_dead_letter, select_pending,
    select_dead_letters.
  rewrite !length_map.
  rewrite (Permutation_length (Drain.order_by_perm _ _)).
  rewrite (Permutation_length (Sorting.sort_with_perm _ _)).
  split; reflexivity.
Qed.


(** X10.  Escalation, then the dead-letter report.  After [handleSyncError]
    has moved a queue entry to the dead-letter table, [getDeadLetterQueue]
    returns an item for it whose id is ["dlq_"] followed by the entry's id
    and whose task id, operation, payload, [created_at] and [retry_count]
    are the entry's, with the message of the error. *)
Theorem dead_lettered_entry_is_reported row message w :
  maxRetries this <= q_retry_count row + 1 →
  dead_letter_free (q_id row) w →
  ∃ w' deadItems,
    handleSyncError rt this (row_to_item row) message w = (w', Returned tt)
    ∧ getDeadLetterQueue w' = (w', Returned deadItems)
    ∧ {| it_id := "dlq_" +:+ q_id row;
         it_task_id := q_task_id row;
         it_operation := q_operation row;
         it_data := JSON_parse (q_data row);
         it_created_at := q_created_at row;
         it_retry_count := q_retry_count row;
         it_error_message := Some message |} ∈ deadItems.
Proof.
  intros Hmax Hfree. eexists _, _.
  split; [apply Escalation.handleSyncError_escalates_eq; assumption|].
  split; [reflexivity|].
  apply list_elem_of_fmap.
  exists (dead_letter_of row message (Date_now rt (calls w))).
  split; [reflexivity|].
  unfold select_dead_letters. rewrite Sorting.sort_with_perm.
  cbn. apply list_elem_of_In, in_or_app. right. left. reflexivity.
Qed.

(** X11.  A pass that finds the remote reachable and nothing to drain
    returns [{success: true, synced_items: 0, failed_items: 0, errors: []}],
    sends no batch and leaves the store as it was; this does not depend on
    the columns of [sync_queue]. *)
Theorem sync_nothing_to_drain w :
  axios_get rt (calls w) = true →
  drained rt this w = [] →
  sync rt this w = (tick w, Returned empty_result)
  ∧ db (tick w) = db w ∧ outbox (tick w) = outbox w.
Proof.
  intros Hget Hd. split; [|split; reflexivity].
  rewrite Pass.sync_eq.
  unfold sync_try, bind at 1. unfold lift at 1.
  rewrite Pass.checkConnectivity_eq. cbn [fst snd]. rewrite Hget.
  cbn [negb]. unfold bind at 1. unfold lift at 1. cbn [fst snd].
  unfold getPendingSyncItemsChronological, bind at 1, db_query, ret.
  cbn [fst snd tick db]. fold (drained rt this w). rewrite Hd.
  reflexivity.
Qed.

End Status.

End Reports.

(* ================================================================== *)
(** * Theorems: a batch whose items all fail *)
(* ================================================================== *)

Module Failures.

(** ** The queue after a row of error outcomes *)

Lemma queue_after_errors_cons message x l d :
  queue_after_errors message (x :: l) d
  = queue_after_errors message l
      (update_queue_retry (it_retry_count x + 1) message (it_id x) d).
Proof. reflexivity. Qed.

Lemma queue_after_errors_ext message l d1 d2 :
  sync_queue d1 = sync_queue d2 →
  sync_queue (queue_after_errors message l d1)
  = sync_queue (queue_after_errors message l d2).
Proof.
  revert d1 d2. induction l as [|x l IH]; intros d1 d2 H; [exact H|].
  rewrite !queue_after_errors_cons. apply IH. cbn. rewrite H. reflexivity.
Qed.

(** An entry whose id is not the id of an item stays as it is. *)
Lemma queue_after_errors_other message l d r :
  r ∈ sync_queue d → q_id r ∉ List.map it_id l →
  r ∈ sync_queue (queue_after_errors message l d).
Proof.
  revert d. induction l as [|x l IH]; intros d Hr Hid; [exact Hr|].
  rewrite queue_after_errors_cons. apply IH.
  - cbn. apply list_elem_of_fmap. exists r. split; [|exact Hr].
    destruct (String.eqb (q_id r) (it_id x)) eqn:E; [|reflexivity].
    apply String.eqb_eq in E. exfalso. apply Hid. cbn. rewrite E. left.
  - intros H. apply Hid. cbn. right. exact H.
Qed.

(** With distinct item ids, the entry of an item gets that item's new
    count and the message. *)
Lemma queue_after_errors_item message l d x r :
  NoDup (List.map it_id l) → x ∈ l → r ∈ sync_queue d → q_id r = it_id x →
  requeued message x r ∈ sync_queue (queue_after_errors message l d).
Proof.
  revert d r. induction l as [|y l IH]; intros d r Hnd Hx Hr Hid.
  - inversion Hx.
  - cbn in Hnd. apply NoDup_cons in Hnd as [Hy Hnd].
    rewrite queue_after_errors_cons.
    apply elem_of_cons in Hx as [->|Hx].
    + apply queue_after_errors_other; [|cbn; rewrite Hid; exact Hy].
      cbn. apply list_elem_of_fmap. exists r. split; [|exact Hr].
      apply String.eqb_eq in Hid. rewrite Hid. reflexivity.
    + apply IH; auto. cbn. apply list_elem_of_fmap. exists r.
      split; [|exact Hr].
      destruct (String.eqb (q_id r) (it_id y)) eqn:E; [|reflexivity].
      apply String.eqb_eq in E. exfalso. apply Hy.
      rewrite <- E, Hid. apply list_elem_of_fmap. eauto.
Qed.

Section Batch.
Variable rt : Runtime.
Variable this : SyncService.

(** One error outcome below the maximum, as far as the statements below
    need it. *)
Lemma handleSyncError_requeues item message w :
  it_retry_count item + 1 < maxRetries this →
  ∃ w',
    handleSyncError rt this item message w = (w', Returned tt)
    ∧ sync_queue (db w')
      = sync_queue
          (update_queue_retry (it_retry_count item + 1) message (it_id item)
             (db w))
    ∧ sync_dead_letter_queue (db w') = sync_dead_letter_queue (db w)
    ∧ outbox w' = outbox w.
Proof.
  intros Hlt. unfold handleSyncError.
  replace (maxRetries this <=? _) with false
    by (symmetry; apply Z.leb_gt; exact Hlt).
  eexists. split; [reflexivity|]. repeat split.
Qed.

(** The [catch] block of [processBatchWithChecksum] on items below the
    maximum. *)
Lemma fail_all_below l message (s : World * SyncResult) :
  Forall (fun x => it_retry_count x + 1 < maxRetries this) l →
  ∃ w' r',
    for_of l
      (fun item =>
         do* lift (handleSyncError rt this item message) in
         do* update_local count_failed in
         let* ts := lift (new_Date rt) in
         update_local (push_errors [item_error item message ts])) s
    = ((w', r'), Returned tt)
    ∧ success r' = success (snd s)
    ∧ synced_items r' = synced_items (snd s)
    ∧ failed_items r' = failed_items (snd s) + Z.of_nat (length l)
    ∧ List.map error_text (errors r')
      = List.map error_text (errors (snd s))
          ++ List.map
               (fun x =>
                  (it_task_id x, Operation_text (it_operation x), message)) l
    ∧ sync_queue (db w')
      = sync_queue (queue_after_errors message l (db (fst s)))
    ∧ sync_dead_letter_queue (db w') = sync_dead_letter_queue (db (fst s))
    ∧ outbox w' = outbox (fst s).
Proof.
  intros Hl. revert s. induction Hl as [|x l Hx Hl IH]; intros [w r].
  - eexists _, _. split; [reflexivity|]. cbn.
    rewrite Z.add_0_r, app_nil_r. repeat split.
  - cbn [for_of]. unfold bind at 1, bind at 1, lift at 1. cbn [fst snd].
    destruct (handleSyncError_requeues x message w Hx)
      as (w1 & Hh & Hq & Hd & Ho).
    rewrite Hh. unfold bind at 1, update_local at 1. cbn [fst snd].
    unfold bind at 1, lift at 1, new_Date. cbn [fst snd].
    unfold update_local at 1. cbn [fst snd].
    destruct (IH (tick w1,
                  push_errors
                    [item_error x message (Date_now rt (calls w1))]
                    (count_failed r)))
      as (w' & r' & Hloop & H1 & H2 & H3 & H4 & H5 & H6 & H7).
    exists w', r'. split; [exact Hloop|].
    cbn [fst snd] in *. rewrite H1, H2, H3, H4, H5, H6, H7.
    cbn [tick db outbox success synced_items failed_items errors
         push_errors count_failed set_failed_items].
    rewrite Hd, Ho, map_app, <- app_assoc. cbn [List.map length].
    repeat split; try lia.
    rewrite queue_after_errors_cons. apply queue_after_errors_ext, Hq.
Qed.

(** X12.  A batch whose POST is rejected, all of its items being below the
    maximum of retries and of distinct ids: the batch returns
    [synced_items = 0], [failed_items] = the number of items and one error
    entry per item, in order, with the message of the rejection; the entry
    of each item stays in the queue with the item's retry count plus one
    and that message, the other entries and the dead-letter table are
    untouched, and one request was sent. *)
Theorem processBatch_rejected_all_fail l message w :
  axios_post rt (S (calls w)) (fst (request_of rt l w))
    (createBatchChecksum rt l) = PostRejected message →
  Forall (fun x => it_retry_count x + 1 < maxRetries this) l →
  NoDup (List.map it_id l) →
  ∃ w' r,
    processBatchWithChecksum rt this l w = (w', Returned r)
    ∧ synced_items r = 0
    ∧ failed_items r = Z.of_nat (length l)
    ∧ success r = (Z.of_nat (length l) =? 0)
    ∧ List.map error_text (errors r)
      = List.map
          (fun x => (it_task_id x, Operation_text (it_operation x), message))
          l
    ∧ (∀ x row, x ∈ l → row ∈ sync_queue (db w) → q_id row = it_id x →
         requeued message x row ∈ sync_queue (db w'))
    ∧ (∀ row, row ∈ sync_queue (db w) → q_id row ∉ List.map it_id l →
         row ∈ sync_queue (db w'))
    ∧ sync_dead_letter_queue (db w') = sync_dead_letter_queue (db w)
    ∧ outbox w' = outbox w ++ [request_of rt l w].
Proof.
  intros Hpost Hbelow Hnd.
  unfold processBatchWithChecksum, bind at 1, new_Date at 1.
  unfold with_local, bind at 1, try_catch, bind at 1, lift at 1, post_batch.
  cbn [fst snd tick db calls outbox].
  unfold request_of in Hpost. cbn [fst] in Hpost. rewrite Hpost.
  match goal with
  | |- context [for_of l ?body ?s] =>
      destruct (fail_all_below l message s Hbelow)
        as (w' & r' & Hloop & H1 & H2 & H3 & H4 & H5 & H6 & H7)
  end.
  rewrite Hloop. unfold update_local. cbn [fst snd] in *.
  exists w', (set_success (failed_items r' =? 0) r').
  split; [reflexivity|].
  cbn [set_success success synced_items failed_items errors].
  rewrite H2, H3, H4, H6, H7. cbn.
  repeat split; auto.
  - intros x row Hx Hrow Hid. rewrite H5.
    apply queue_after_errors_item; auto.
  - intros row Hrow Hid. rewrite H5.
    apply queue_after_errors_other; auto.
Qed.

(** The loop over an answered batch when the answer has no outcome from
    position [i] on. *)
Lemma reconcile_unanswered response processed l i (s : World * SyncResult) :
  processed_items response = Some processed →
  (∀ k, (k < length l)%nat → mjoin (processed !! (i + k)%nat) = None) →
  Forall (fun x => it_retry_count x + 1 < maxRetries this) l →
  ∃ w' r',
    for_index i l (reconcile_item rt this response) s
    = ((w', r'), Returned tt)
    ∧ success r' = success (snd s)
    ∧ synced_items r' = synced_items (snd s)
    ∧ failed_items r' = failed_items (snd s) + Z.of_nat (length l)
    ∧ errors r' = errors (snd s)
    ∧ sync_queue (db w')
      = sync_queue
          (queue_after_errors "No response from server" l (db (fst s)))
    ∧ sync_dead_letter_queue (db w') = sync_dead_letter_queue (db (fst s))
    ∧ outbox w' = outbox (fst s).
Proof.
  intros Hp Hnone Hl. revert i s Hnone.
  induction Hl as [|x l Hx Hl IH]; intros i [w r] Hnone.
  - eexists _, _. split; [reflexivity|]. cbn.
    rewrite Z.add_0_r. repeat split.
  - cbn [for_index]. unfold bind at 1, reconcile_item at 1.
    rewrite Hp. specialize (Hnone 0%nat) as H0.
    rewrite Nat.add_0_r in H0. rewrite H0 by (cbn; lia).
    unfold bind at 1, lift at 1. cbn [fst snd].
    destruct (handleSyncError_requeues x "No response from server" w Hx)
      as (w1 & Hh & Hq & Hd & Ho).
    rewrite Hh. unfold update_local at 1. cbn [fst snd].
    destruct (IH (S i) (w1, count_failed r))
      as (w' & r' & Hloop & H1 & H2 & H3 & H4 & H5 & H6 & H7).
    { intros k Hk. replace (S i + k)%nat with (i + S k)%nat by lia.
      apply Hnone. cbn. lia. }
    exists w', r'. split; [exact Hloop|].
    cbn [fst snd] in *. rewrite H1, H2, H3, H4, H5, H6, H7.
    cbn [success synced_items failed_items errors count_failed
         set_failed_items length].
    rewrite Hd, Ho. repeat split; try lia.
    rewrite queue_after_errors_cons. apply queue_after_errors_ext, Hq.
Qed.

(** X13.  A batch whose POST is answered with no outcome at any position of
    the batch (an answer shorter than the batch, or holes), all items being
    below the maximum of retries and of distinct ids: every item is counted
    as failed, nothing as synced, and NO error entry is returned; the entry
    of each item stays in the queue with the item's retry count plus one and
    the message [No response from server]. *)
Theorem processBatch_unanswered_all_fail l response processed w :
  axios_post rt (S (calls w)) (fst (request_of rt l w))
    (createBatchChecksum rt l) = PostResolved response →
  processed_items response = Some processed →
  (∀ k, (k < length l)%nat → mjoin (processed !! k) = None) →
  Forall (fun x => it_retry_count x + 1 < maxRetries this) l →
  NoDup (List.map it_id l) →
  ∃ w' r,
    processBatchWithChecksum rt this l w = (w', Returned r)
    ∧ synced_items r = 0
    ∧ failed_items r = Z.of_nat (length l)
    ∧ success r = (Z.of_nat (length l) =? 0)
    ∧ errors r = []
    ∧ (∀ x row, x ∈ l → row ∈ sync_queue (db w) → q_id row = it_id x →
         requeued "No response from server" x row ∈ sync_queue (db w'))
    ∧ (∀ row, row ∈ sync_queue (db w) → q_id row ∉ List.map it_id l →
         row ∈ sync_queue (db w'))
    ∧ sync_dead_letter_queue (db w') = sync_dead_letter_queue (db w)
    ∧ outbox w' = outbox w ++ [request_of rt l w].
Proof.
  intros Hpost Hp Hnone Hbelow Hnd.
  unfold processBatchWithChecksum, bind at 1, new_Date at 1.
  unfold with_local, bind at 1, try_catch, bind at 1, lift at 1, post_batch.
  cbn [fst snd tick db calls outbox].
  unfold request_of in Hpost. cbn [fst] in Hpost. rewrite Hpost.
  match goal with
  | |- context [for_index 0 l _ ?s] =>
      destruct (reconcile_unanswered response processed l 0 s Hp Hnone Hbelow)
        as (w' & r' & Hloop & H1 & H2 & H3 & H4 & H5 & H6 & H7)
  end.
  rewrite Hloop. unfold update_local. cbn [fst snd] in *.
  exists w', (set_success (failed_items r' =? 0) r').
  split; [reflexivity|].
  cbn [set_success success synced_items failed_items errors].
  rewrite H2, H3, H4, H6, H7. cbn.
  repeat split; auto.
  - intros x row Hx Hrow Hid. rewrite H5.
    apply queue_after_errors_item; auto.
  - intros row Hrow Hid. rewrite H5.
    apply queue_after_errors_other; auto.
Qed.

End Batch.

End Failures.

(* ================================================================== *)
(** * Theorems: the counts of a result *)
(* ================================================================== *)

Module Counts.

Lemma counts_grow_refl r : counts_grow r r.
Proof. unfold counts_grow. lia. Qed.

Lemma counts_grow_trans a b c :
  counts_grow a b → counts_grow b c → counts_grow a c.
Proof. unfold counts_grow. lia. Qed.

Lemma on_local_refl (s : World * SyncResult) : on_local counts_grow s s.
Proof. apply counts_grow_refl. Qed.

Lemma on_local_trans (a b c : World * SyncResult) :
  on_local counts_grow a b → on_local counts_grow b c →
  on_local counts_grow a c.
Proof. apply counts_grow_trans. Qed.

Lemma keeps_lift_local {A} (m : M World A) :
  keeps (on_local counts_grow) (@lift SyncResult A m).
Proof.
  intros s. unfold on_local, lift. destruct (m (fst s)) as [w o].
  apply counts_grow_refl.
Qed.

Lemma keeps_update (f : SyncResult → SyncResult) :
  (∀ r, counts_grow r (f r)) →
  keeps (on_local counts_grow) (@update_local SyncResult f).
Proof. intros Hf s. apply Hf. Qed.

(** A continuation may rely on what the first part returned. *)
Lemma keeps_bind_returned {St A B} (R : St → St → Prop)
    (m : M St A) (k : A → M St B) :
  (∀ a b c, R a b → R b c → R a c) →
  keeps R m →
  (∀ s s' a, m s = (s', Returned a) → R s' (fst (k a s'))) →
  keeps R (bind m k).
Proof.
  intros Htrans Hm Hk s. unfold bind. specialize (Hm s).
  destruct (m s) as [s' [a|e]] eqn:E; cbn in *; [|exact Hm].
  eapply Htrans; [exact Hm | eapply Hk, E].
Qed.

Lemma count_synced_grows r : counts_grow r (count_synced r).
Proof. unfold counts_grow. cbn. lia. Qed.

Lemma count_failed_grows r : counts_grow r (count_failed r).
Proof. unfold counts_grow. cbn. lia. Qed.

Lemma push_errors_grows l r : counts_grow r (push_errors l r).
Proof. unfold counts_grow. cbn. lia. Qed.

Lemma set_success_grows b r : counts_grow r (set_success b r).
Proof. unfold counts_grow. cbn. lia. Qed.

Create HintDb counts.

#[local] Hint Resolve on_local_refl on_local_trans keeps_lift_local
  count_synced_grows count_failed_grows push_errors_grows
  set_success_grows : counts.

Section Pass.
Variable rt : Runtime.
Variable this : SyncService.

Ltac step :=
  first
    [ apply keeps_lift_local
    | apply keeps_update; intros; auto with counts
    | apply Frame.keeps_ret; exact on_local_refl
    | apply Frame.keeps_throw; exact on_local_refl
    | apply Frame.keeps_bind; [exact on_local_trans | | intros] ].

Lemma reconcile_item_counts response i item :
  keeps (on_local counts_grow) (reconcile_item rt this response i item).
Proof.
  unfold reconcile_item.
  destruct (processed_items response) as [processed|]; [|step].
  destruct (mjoin (processed !! i)) as [p|]; [|repeat step].
  destruct (status p); repeat step.
Qed.

Lemma fail_item_counts message item :
  keeps (on_local counts_grow)
    (do* lift (handleSyncError rt this item message) in
     do* update_local count_failed in
     let* ts := lift (new_Date rt) in
     update_local (push_errors [item_error item message ts])).
Proof. repeat step. Qed.

(** A batch result has no negative count. *)
Lemma processBatch_counts l w w' r :
  processBatchWithChecksum rt this l w = (w', Returned r) →
  0 <= synced_items r ∧ 0 <= failed_items r.
Proof.
  unfold processBatchWithChecksum, bind at 1, new_Date at 1.
  cbn [fst snd]. unfold with_local.
  match goal with
  | |- context [bind ?m ?k (?w0, empty_result)] =>
      assert (H : keeps (on_local counts_grow) (bind m k));
      [| specialize (H (w0, empty_result));
         destruct (bind m k (w0, empty_result)) as [[w1 r1] [u|e]] ]
  end.
  - step; [|step].
    apply Frame.keeps_try_catch; [exact on_local_trans | |].
    + step; [step|].
      apply Frame.keeps_for_index;
        [exact on_local_refl | exact on_local_trans |].
      intros. apply reconcile_item_counts.
    + intros e. apply Frame.keeps_for_of;
        [exact on_local_refl | exact on_local_trans |].
      intros. apply fail_item_counts.
  - intros [= <- <-]. exact H.
  - discriminate.
Qed.

Lemma batch_turn_counts batch :
  keeps (on_local counts_grow)
    (let* batchResult := lift (processBatchWithChecksum rt this batch) in
     do* update_local
           (fun r =>
              set_synced_items
                (synced_items r + synced_items batchResult) r) in
     do* update_local
           (fun r =>
              set_failed_items
                (failed_items r + failed_items batchResult) r) in
     if 0 <? Z.of_nat (length (errors batchResult))
     then update_local (push_errors (errors batchResult))
     else ret tt).
Proof.
  apply keeps_bind_returned; [exact on_local_trans | step |].
  intros [w r] [w' r'] b Hb.
  assert (0 <= synced_items b ∧ 0 <= failed_items b) as [H1 H2].
  { unfold lift in Hb. cbn [fst snd] in Hb.
    destruct (processBatchWithChecksum rt this batch w) as [w1 [b1|e]] eqn:E;
      [|discriminate].
    injection Hb as <- <- <-. eapply processBatch_counts, E. }
  assert (H : keeps (on_local counts_grow)
    (do* update_local
           (fun r => set_synced_items (synced_items r + synced_items b) r) in
     do* update_local
           (fun r => set_failed_items (failed_items r + failed_items b) r) in
     if 0 <? Z.of_nat (length (errors b))
     then update_local (push_errors (errors b))
     else ret tt)); [|apply H].
  step; [apply keeps_update; intros; unfold counts_grow; cbn; lia|].
  step; [apply keeps_update; intros; unfold counts_grow; cbn; lia|].
  destruct (0 <? _); step.
Qed.

(** X14.  [sync] always returns a result (it never rejects), with no
    negative count; when the probe succeeded, [synced_items] is at least the
    number of drained items, whatever became of them. *)
Theorem sync_counts w :
  ∃ r,
    snd (sync rt this w) = Returned r
    ∧ 0 <= synced_items r ∧ 0 <= failed_items r
    ∧ (axios_get rt (calls w) = true →
       Z.of_nat (length (drained rt this w)) <= synced_items r).
Proof.
  rewrite Pass.sync_eq.
  assert (Hrest : ∀ pendingItems,
    keeps (on_local counts_grow)
      (if Z.of_nat (length pendingItems) =? 0 then ret tt
       else
         do* lift (markItemsAsInProgress pendingItems) in
         let batches := createChronologicalBatches this pendingItems in
         do* for_of batches
               (fun batch =>
                  let* batchResult :=
                    lift (processBatchWithChecksum rt this batch) in
                  do* update_local
                        (fun r =>
                           set_synced_items
                             (synced_items r + synced_items batchResult) r) in
                  do* update_local
                        (fun r =>
                           set_failed_items
                             (failed_items r + failed_items batchResult) r) in
                  if 0 <? Z.of_nat (length (errors batchResult))
                  then update_local (push_errors (errors batchResult))
                  else ret tt) in
         update_local (fun r => set_success (failed_items r =? 0) r))).
  { intros p. destruct (_ =? 0); [step|].
    step; [step|]. step; [|step].
    apply Frame.keeps_for_of; [exact on_local_refl | exact on_local_trans |].
    intros. apply batch_turn_counts. }
  unfold sync_try, bind at 1, lift at 1.
  rewrite Pass.checkConnectivity_eq. cbn [fst snd].
  destruct (axios_get rt (calls w)); cbn [negb].
  - unfold bind at 1, lift at 1. cbn [fst snd].
    unfold getPendingSyncItemsChronological, bind at 1, db_query, ret at 1.
    cbn [fst snd tick db].
    fold (drained rt this w).
    unfold bind at 1, update_local at 1. cbn [fst snd].
    match goal with
    | |- context [(if ?c then ?a else ?b) ?s] =>
        specialize (Hrest (drained rt this w) s);
        destruct ((if c then a else b) s) as [[w1 r1] [u|e]]
    end;
    unfold on_local, counts_grow in Hrest; cbn in Hrest;
    eexists; (split; [reflexivity|]); cbn; lia.
  - unfold throw. eexists. split; [reflexivity|]. cbn. lia.
Qed.

End Pass.

End Counts.

(* ================================================================== *)
(** * Theorems: the remote version wins, and the local write *)
(* ================================================================== *)

Module Succeeded.

Section Write.
Variable rt : Runtime.

(** X15.  Unless both [updated_at] are valid instants with the local one
    not before the remote one, the merge is won by the remote version:
    this is so when the remote version is the later one, and also when
    either [updated_at] is missing or not a date. *)
Theorem resolve_server_wins localTask serverTask w :
  (∀ tl ts,
     newDate (Date_parse rt) (prop localTask "updated_at") = Some tl →
     newDate (Date_parse rt) (prop serverTask "updated_at") = Some ts →
     tl < ts) →
  ∃ merged,
    resolveConflictWithPriority rt localTask (Some serverTask) w
      = (tick (tick w), Returned merged)
    ∧ mergeTasks rt serverTask localTask server w
      = (tick (tick w), Returned merged)
    ∧ server_wins localTask serverTask merged.
Proof.
  intros Hlater. unfold resolveConflictWithPriority.
  assert (time_eq (newDate (Date_parse rt) (prop localTask "updated_at"))
            (newDate (Date_parse rt) (prop serverTask "updated_at")) = false)
    as ->.
  { destruct (newDate _ (prop localTask _)) as [tl|]; [|reflexivity].
    destruct (newDate _ (prop serverTask _)) as [ts|]; [|reflexivity].
    cbn. apply Z.eqb_neq. specialize (Hlater tl ts eq_refl eq_refl). lia. }
  assert (time_gt (newDate (Date_parse rt) (prop localTask "updated_at"))
            (newDate (Date_parse rt) (prop serverTask "updated_at")) = false)
    as ->.
  { destruct (newDate _ (prop localTask _)) as [tl|]; [|reflexivity].
    destruct (newDate _ (prop serverTask _)) as [ts|]; [|reflexivity].
    cbn. apply Z.ltb_ge. specialize (Hlater tl ts eq_refl eq_refl). lia. }
  eexists. split; [apply Resolver.mergeTasks_eq|].
  split; [apply Resolver.mergeTasks_eq|].
  pose proof (Resolver.mergeTasks_eq rt serverTask localTask server w) as H.
  repeat split.
  - intros k Hk Hs.
    rewrite (Resolver.merged_other_key _ _ _ _ _ _ _ H Hk).
    apply Resolver.spread_winner, Hs.
  - intros k Hk Hs.
    rewrite (Resolver.merged_other_key _ _ _ _ _ _ _ H Hk).
    apply Resolver.spread_loser, Hs.
  - rewrite !lookup_insert_ne by discriminate. apply lookup_insert_eq.
  - rewrite !lookup_insert_ne by discriminate. apply lookup_insert_eq.
Qed.

Lemma update_tasks_other f id d row :
  row ∈ tasks d → t_id row ≠ id → row ∈ tasks (update_tasks f id d).
Proof.
  intros Hrow Hid. unfold update_tasks. cbn.
  apply list_elem_of_fmap. exists row. split; [|exact Hrow].
  destruct (String.eqb (t_id row) id) eqn:E; [|reflexivity].
  apply String.eqb_eq in E. contradiction.
Qed.

Lemma update_tasks_target f id d row' :
  (∀ r, t_id (f r) = t_id r) →
  row' ∈ tasks (update_tasks f id d) → t_id row' = id →
  ∃ row, row ∈ tasks d ∧ t_id row = id ∧ row' = f row.
Proof.
  intros Hf Hrow Hid. unfold update_tasks in Hrow. cbn in Hrow.
  apply list_elem_of_fmap in Hrow as (row & -> & Hrow).
  destruct (String.eqb (t_id row) id) eqn:E.
  - apply String.eqb_eq in E. eauto.
  - apply String.eqb_neq in E. contradiction.
Qed.

Lemma existsb_task_id id (l : list TaskRow) :
  existsb (fun r => String.eqb (t_id r) id) l = true →
  id ∈ List.map t_id l.
Proof.
  intros H. apply existsb_exists in H as (r & Hr & E).
  apply String.eqb_eq in E. subst id.
  apply list_elem_of_In, in_map, Hr.
Qed.

(** X16.  [handleSyncSuccess] removes the queue entry exactly when the
    local write went through.  When it returns, the queue has lost the
    entries of the item's id and no other, the rows of other tasks are
    untouched, and the task's row, if something was written, is marked
    synced.  It throws only when the resolved version has no title and the
    task's row exists, and then the store is as before: the entry is still
    in the queue. *)
Theorem handleSyncSuccess_outcome item serverId resolvedTask w :
  match handleSyncSuccess rt item serverId resolvedTask w with
  | (w', Returned _) =>
      sync_queue (db w')
      = List.filter (fun r => negb (String.eqb (q_id r) (it_id item)))
          (sync_queue (db w))
      ∧ (∀ row, row ∈ tasks (db w) → t_id row ≠ it_task_id item →
           row ∈ tasks (db w'))
      ∧ (∀ row', row' ∈ tasks (db w') → t_id row' = it_task_id item →
           is_Some resolvedTask ∨ nonempty serverId = true →
           t_sync_status row' = SqlText "synced")
      ∧ sync_dead_letter_queue (db w') = sync_dead_letter_queue (db w)
  | (w', Thrown _) =>
      db w' = db w
      ∧ ∃ task,
          resolvedTask = Some task
          ∧ bind_param (prop task "title") = SqlNull
          ∧ it_task_id item ∈ List.map t_id (tasks (db w))
  end.
Proof.
  unfold handleSyncSuccess, bind at 1.
  destruct resolvedTask as [task|].
  - unfold updateTaskFromSync, bind at 1, new_Date, db_run_checked.
    cbn [fst snd tick db].
    destruct (is_null (bind_param (prop task "title"))) eqn:Hnull;
      cbn [andb].
    + destruct (existsb _ (tasks (db w))) eqn:Hex.
      * split; [reflexivity|]. exists task. split; [reflexivity|].
        split; [|apply existsb_task_id, Hex].
        destruct (bind_param (prop task "title")); try discriminate.
        reflexivity.
      * cbn. repeat split.
        -- intros row Hrow Hid. apply update_tasks_other; auto.
        -- intros row' Hrow' Hid _.
           apply update_tasks_target in Hrow' as (row & _ & _ & ->);
             [reflexivity | reflexivity | exact Hid].
    + cbn. repeat split.
      * intros row Hrow Hid. apply update_tasks_other; auto.
      * intros row' Hrow' Hid _.
        apply update_tasks_target in Hrow' as (row & _ & _ & ->);
          [reflexivity | reflexivity | exact Hid].
  - destruct (nonempty serverId) eqn:Hs.
    + cbn. repeat split.
      * intros row Hrow Hid. apply update_tasks_other; auto.
      * intros row' Hrow' Hid _.
        apply update_tasks_target in Hrow' as (row & _ & _ & ->);
          [reflexivity | reflexivity | exact Hid].
    + cbn. repeat split; auto.
      intros row' _ _ [[t Ht]|Hf]; discriminate.
Qed.

End Write.

End Succeeded.

(* ================================================================== *)
(** * Theorems: batching with a size that is not a positive number *)
(* ================================================================== *)

Module Sizes.

Section Degenerate.
Variable this : SyncService.

Lemma batches_loop_nan items batches currentBatch :
  batchSize this = None →
  batches_loop this items batches currentBatch
  = (batches, currentBatch ++ items).
Proof.
  intros Hsize. revert currentBatch.
  induction items as [|x rest IH]; intros currentBatch; cbn [batches_loop].
  - rewrite app_nil_r. reflexivity.
  - rewrite Hsize. cbn [length_ge]. rewrite IH, <- app_assoc. reflexivity.
Qed.

(** X17.  When the configured batch size is not a number, no batch is ever
    closed: all the items go out as one batch, however many they are. *)
Theorem createChronologicalBatches_nan items :
  batchSize this = None →
  createChronologicalBatches this items
  = match items with [] => [] | _ => [items] end.
Proof.
  intros Hsize. unfold createChronologicalBatches.
  rewrite batches_loop_nan by exact Hsize. cbn [app].
  destruct items; reflexivity.
Qed.

Lemma batches_loop_nonpositive n items batches currentBatch :
  batchSize this = Some n → n <= 0 →
  match batches_loop this items batches currentBatch with
  | (batches', current') =>
      batches' ++ [current']
      = batches ++ [currentBatch] ++ List.map (fun y => [y]) items
      ∧ (0 < Z.of_nat (length currentBatch) ∨ items ≠ [] →
         0 < Z.of_nat (length current'))
  end.
Proof.
  intros Hsize Hn. revert batches currentBatch.
  induction items as [|x rest IH]; intros batches currentBatch.
  - cbn. split; [reflexivity|]. intros [?|?]; [lia|congruence].
  - cbn [batches_loop]. rewrite Hsize. cbn [length_ge].
    replace (n <=? Z.of_nat (length currentBatch)) with true
      by (symmetry; apply Z.leb_le; lia).
    specialize (IH (batches ++ [currentBatch]) [x]).
    destruct (batches_loop this rest (batches ++ [currentBatch]) [x])
      as [batches' current'].
    destruct IH as [H1 H2]. split.
    + rewrite H1, <- app_assoc. reflexivity.
    + intros _. apply H2. left. cbn. lia.
Qed.

(** X18.  When the configured batch size is zero or negative, the first
    batch is closed before it holds anything: the batches are one EMPTY
    batch followed by every item in a batch of its own. *)
Theorem createChronologicalBatches_nonpositive n items :
  batchSize this = Some n → n <= 0 → items ≠ [] →
  createChronologicalBatches this items
  = [] :: List.map (fun y => [y]) items.
Proof.
  intros Hsize Hn Hitems. unfold createChronologicalBatches.
  pose proof (batches_loop_nonpositive n items [] [] Hsize Hn) as H.
  destruct (batches_loop this items [] []) as [batches' current'].
  destruct H as [H1 H2].
  replace (0 <? Z.of_nat (length current')) with true
    by (symmetry; apply Z.ltb_lt, H2; right; exact Hitems).
  exact H1.
Qed.

End Degenerate.

End Sizes.

(* ================================================================== *)
(** * Theorems: the task service *)
(* ================================================================== *)

Module Tasks.

Lemma find_none_all {A} (p : A → bool) (l : list A) :
  Forall (fun x => p x = false) l → List.find p l = None.
Proof.
  induction 1 as [|x l Hx Hl IH]; cbn; [reflexivity|].
  rewrite Hx. exact IH.
Qed.

Lemma find_app_last {A} (p : A → bool) (l : list A) (x : A) :
  Forall (fun y => p y = false) l → p x = true →
  List.find p (l ++ [x]) = Some x.
Proof.
  induction 1 as [|y l Hy Hl IH]; intros Hx; cbn.
  - rewrite Hx. reflexivity.
  - rewrite Hy. apply IH, Hx.
Qed.

Lemma find_some_holds {A} (p : A → bool) (l : list A) (x : A) :
  List.find p l = Some x → x ∈ l ∧ p x = true.
Proof.
  intros H. apply find_some in H as [H1 H2].
  split; [apply list_elem_of_In, H1 | exact H2].
Qed.

Lemma sql_leb_total a b : sql_leb a b = true ∨ sql_leb b a = true.
Proof.
  destruct a as [|x|x], b as [|y|y]; cbn; auto.
  - rewrite !Z.leb_le. lia.
  - apply String.leb_total.
Qed.

Lemma sql_leb_trans a b c :
  sql_leb a b = true → sql_leb b c = true → sql_leb a c = true.
Proof.
  destruct a as [|x|x], b as [|y|y], c as [|z|z]; cbn; auto;
    try discriminate.
  - rewrite !Z.leb_le. lia.
  - apply Drain.string_leb_trans.
Qed.

Lemma created_later_first_total a b :
  created_later_first a b = true ∨ created_later_first b a = true.
Proof. unfold created_later_first. apply sql_leb_total. Qed.

Lemma created_later_first_trans a b c :
  created_later_first a b = true → created_later_first b c = true →
  created_later_first a c = true.
Proof.
  unfold created_later_first. intros H1 H2.
  exact (sql_leb_trans _ _ _ H2 H1).
Qed.

Section Service.
Variable rt : Runtime.
Variable uuidv4 : nat → string.

Lemma getTask_eq id w :
  getTask rt id w
  = (w, Returned (option_map (mapRowToTask rt) (select_task id (db w)))).
Proof. reflexivity. Qed.

(** A table in which every row of the id is deleted has no task of that
    id. *)
Lemma select_task_deleted id f d :
  (∀ r, t_id (f r) = t_id r) →
  (∀ r, not_deleted (f r) = false) →
  select_task id (update_tasks f id d) = None.
Proof.
  intros Hid Hdel. unfold select_task, update_tasks. cbn.
  apply find_none_all. rewrite Forall_forall. intros r' Hr'.
  apply list_elem_of_fmap in Hr' as (r & -> & _).
  destruct (String.eqb (t_id r) id) eqn:E.
  - rewrite Hdel. apply andb_false_r.
  - rewrite E. reflexivity.
Qed.

Lemma update_tasks_ids f id d :
  (∀ r, t_id (f r) = t_id r) →
  List.map t_id (tasks (update_tasks f id d)) = List.map t_id (tasks d).
Proof.
  intros Hid. unfold update_tasks. cbn. rewrite List.map_map.
  apply List.map_ext. intros r. destruct (String.eqb (t_id r) id); auto.
Qed.

(** X19.  Create, then read.  When the identifier drawn is not taken and
    the clock reading survives the store's text form, [createTask] returns
    a task that is pending, not completed and not deleted, with the title
    given and the description given (or the empty string); [getTask] with
    its id then returns the very same task; the queue is not touched. *)
Theorem createTask_then_getTask taskData w :
  uuidv4 (calls w) ∉ List.map t_id (tasks (db w)) →
  Date_parse rt (Date_toISOString rt (Date_now rt (S (calls w))))
  = Some (Date_now rt (S (calls w))) →
  ∃ w' task,
    createTask rt uuidv4 taskData w = (w', Returned task)
    ∧ task = new_task (uuidv4 (calls w)) taskData (Date_now rt (S (calls w)))
    ∧ getTask rt (uuidv4 (calls w)) w' = (w', Returned (Some task))
    ∧ sync_queue (db w') = sync_queue (db w)
    ∧ (∀ row, row ∈ tasks (db w) → row ∈ tasks (db w')).
Proof.
  intros Hfresh Hdate.
  assert (Hnone : Forall
            (fun r => String.eqb (t_id r) (uuidv4 (calls w)) = false)
            (tasks (db w))).
  { rewrite Forall_forall. intros r Hr. apply String.eqb_neq. intros E.
    apply Hfresh. rewrite <- E. apply list_elem_of_fmap. eauto. }
  unfold createTask, bind at 1, new_uuid. cbn [fst snd].
  unfold bind at 1, new_Date. cbn [fst snd tick calls].
  unfold bind at 1, db_run_checked, insert_task. cbn [fst snd tick db].
  cbn [new_task_row t_id].
  replace (existsb _ (tasks (db w))) with false.
  2:{ symmetry. apply not_true_is_false. intros H.
      apply existsb_exists in H as (r & Hr & E).
      rewrite Forall_forall in Hnone.
      apply list_elem_of_In in Hr. rewrite (Hnone r Hr) in E.
      discriminate. }
  eexists _, _. split; [reflexivity|]. split; [reflexivity|].
  split; [|split; [reflexivity|]].
  - rewrite getTask_eq. cbn [db set_db set_tasks tasks].
    unfold select_task, set_tasks. cbn [tasks].
    rewrite find_app_last.
    + cbn [option_map]. unfold mapRowToTask, new_task, column_Date.
      cbn. rewrite Hdate. reflexivity.
    + eapply Forall_impl; [exact Hnone|]. intros r Hr. cbv beta.
      rewrite Hr. reflexivity.
    + cbn. rewrite String.eqb_refl. reflexivity.
  - intros row Hrow. cbn. apply elem_of_app. left. exact Hrow.
Qed.

(** [deleteTask], by whether a live task has the id. *)
Lemma deleteTask_eq id w :
  deleteTask rt id w
  = match select_task id (db w) with
    | Some _ =>
        (set_db
           (update_tasks (delete_task_row rt (Date_now rt (calls w))) id
              (db w))
           (tick w),
         Returned true)
    | None => (w, Returned false)
    end.
Proof.
  unfold deleteTask, bind at 1. rewrite getTask_eq. cbn [fst snd].
  destruct (select_task id (db w)); reflexivity.
Qed.

Lemma select_task_after_delete id now d :
  select_task id (update_tasks (delete_task_row rt now) id d) = None.
Proof. apply select_task_deleted; reflexivity. Qed.

(** X20.  [deleteTask] is a soft delete and never throws.  When it returns
    true, the task was there, [getTask] no longer returns it, a second
    [deleteTask] returns false and changes nothing, yet every row is still
    in the table under its id and the rows of other tasks are untouched.
    When it returns false, no live task has the id and nothing, not even
    the clock, has changed. *)
Theorem deleteTask_soft id w :
  match deleteTask rt id w with
  | (w', Returned true) =>
      is_Some (select_task id (db w))
      ∧ getTask rt id w' = (w', Returned None)
      ∧ deleteTask rt id w' = (w', Returned false)
      ∧ List.map t_id (tasks (db w')) = List.map t_id (tasks (db w))
      ∧ (∀ row, row ∈ tasks (db w) → t_id row ≠ id → row ∈ tasks (db w'))
      ∧ sync_queue (db w') = sync_queue (db w)
  | (w', Returned false) => w' = w ∧ select_task id (db w) = None
  | (_, Thrown _) => False
  end.
Proof.
  rewrite deleteTask_eq.
  destruct (select_task id (db w)) as [row|] eqn:Hsel;
    [|split; reflexivity].
  split; [eauto|]. split.
  { rewrite getTask_eq. cbn [db set_db].
    rewrite select_task_after_delete. reflexivity. }
  split.
  { rewrite deleteTask_eq. cbn [db set_db].
    rewrite select_task_after_delete. reflexivity. }
  split; [apply update_tasks_ids; reflexivity|].
  split; [|reflexivity].
  intros r Hr Hid. apply Succeeded.update_tasks_other; auto.
Qed.

(** X21.  [getAllTasks] returns one task per row that is not deleted, and
    no other, latest [created_at] first, and changes nothing. *)
Theorem getAllTasks_lists_live_tasks w :
  ∃ rows,
    getAllTasks rt w = (w, Returned (List.map (mapRowToTask rt) rows))
    ∧ Permutation rows (List.filter not_deleted (tasks (db w)))
    ∧ StronglySorted
        (fun a b => sql_leb (t_created_at b) (t_created_at a) = true) rows.
Proof.
  exists (select_all_tasks (db w)). split; [reflexivity|].
  split; [apply Sorting.sort_with_perm|].
  apply (Sorting.sort_with_sorted created_later_first
           created_later_first_total created_later_first_trans).
Qed.

(** X22.  [updateTask].  It returns null exactly when no live task has the
    id, and then nothing has changed.  When it returns a task, that task
    is pending with [updated_at] the clock reading, carries every property
    of [updates] and otherwise those of the task read; the row of the id
    holds the new text title and description and is pending, and the
    columns outside the statement ([id], [created_at], [is_deleted],
    [server_id], [last_synced_at]) are as before in every row, whatever
    [updates] says about them.  It throws only when the merged title is
    null, and then the store is as before. *)
Theorem updateTask_outcome id updates w :
  match updateTask rt id updates w with
  | (w', Returned None) => w' = w ∧ select_task id (db w) = None
  | (w', Returned (Some task)) =>
      ∃ row,
        select_task id (db w) = Some row
        ∧ task !! "sync_status" = Some (JStr "pending")
        ∧ task !! "updated_at" = Some (JDate (Some (Date_now rt (calls w))))
        ∧ (∀ k, k ≠ "sync_status" → k ≠ "updated_at" →
             is_Some (updates !! k) → task !! k = updates !! k)
        ∧ (∀ k, k ≠ "sync_status" → k ≠ "updated_at" →
             updates !! k = None → task !! k = mapRowToTask rt row !! k)
        ∧ (∀ r', r' ∈ tasks (db w') → t_id r' = id →
             (∀ s, prop task "title" = JStr s → t_title r' = SqlText s)
             ∧ (∀ s, prop task "description" = JStr s →
                  t_description r' = SqlText s)
             ∧ t_completed r'
               = SqlInt (if truthy (prop task "completed") then 1 else 0)
             ∧ t_sync_status r' = SqlText "pending"
             ∧ t_updated_at r'
               = SqlText (Date_toISOString rt (Date_now rt (calls w))))
        ∧ List.map unwritten_columns (tasks (db w'))
          = List.map unwritten_columns (tasks (db w))
        ∧ (∀ r, r ∈ tasks (db w) → t_id r ≠ id → r ∈ tasks (db w'))
  | (w', Thrown _) =>
      db w' = db w
      ∧ ∃ row,
          select_task id (db w) = Some row
          ∧ bind_param
              (prop (updated_task (mapRowToTask rt row) updates
                       (Date_now rt (calls w))) "title") = SqlNull
  end.
Proof.
  unfold updateTask, bind at 1. rewrite getTask_eq. cbn [fst snd].
  destruct (select_task id (db w)) as [row|] eqn:Hsel; cbn [option_map];
    [|split; reflexivity].
  unfold bind at 1, new_Date. cbn [fst snd].
  set (task := updated_task (mapRowToTask rt row) updates
                 (Date_now rt (calls w))).
  unfold bind at 1, db_run_checked. cbn [fst snd tick db].
  apply find_some_holds in Hsel as Hrow. destruct Hrow as [Hin Hp].
  apply andb_prop in Hp as [Hp _]. apply String.eqb_eq in Hp.
  assert (Hex : existsb (fun r => String.eqb (t_id r) id) (tasks (db w))
                = true).
  { apply existsb_exists. exists row. split.
    - apply list_elem_of_In, Hin.
    - apply String.eqb_eq, Hp. }
  rewrite Hex, andb_true_r.
  destruct (is_null (bind_param (prop task "title"))) eqn:Hnull.
  - split; [reflexivity|]. exists row. split; [reflexivity|].
    fold task. destruct (bind_param (prop task "title")); try discriminate.
    reflexivity.
  - unfold ret. exists row. split; [reflexivity|].
    split; [apply lookup_insert_eq|].
    split.
    { unfold task, updated_task.
      rewrite lookup_insert_ne by discriminate. apply lookup_insert_eq. }
    split.
    { intros k Hk1 Hk2 Hu. unfold task, updated_task.
      rewrite !lookup_insert_ne by congruence.
      apply Resolver.spread_winner, Hu. }
    split.
    { intros k Hk1 Hk2 Hu. unfold task, updated_task.
      rewrite !lookup_insert_ne by congruence.
      apply Resolver.spread_loser, Hu. }
    split.
    { intros r' Hr' Hid. cbn [db set_db] in Hr'.
      apply Succeeded.update_tasks_target in Hr' as (r & _ & _ & ->);
        [|reflexivity|exact Hid].
      cbn. repeat split.
      - intros s Hs. rewrite Hs. reflexivity.
      - intros s Hs. rewrite Hs. reflexivity.
      - unfold task, updated_task, prop.
        rewrite lookup_insert_eq. reflexivity. }
    split.
    { cbn [db set_db]. unfold update_tasks. cbn. rewrite List.map_map.
      apply List.map_ext. intros r.
      destruct (String.eqb (t_id r) id); reflexivity. }
    intros r Hr Hid. apply Succeeded.update_tasks_other; auto.
Qed.

End Service.

End Tasks.

(* ================================================================== *)
(** * Theorems: deleting a task through the route *)
(* ================================================================== *)

Module Routes.

Section Delete.
Variable rt : Runtime.

(** A row that is not deleted is read as a task that is not deleted. *)
Lemma live_row_payload row :
  not_deleted row = true →
  JSON_stringify (Date_toISOString rt) (mapRowToTask rt row) !! "is_deleted"
  = Some (JsonBool false).
Proof.
  intros Hlive. unfold JSON_stringify. rewrite lookup_omap.
  unfold mapRowToTask.
  rewrite !lookup_insert_ne by discriminate.
  unfold not_deleted in Hlive.
  destruct (t_is_deleted row) as [|n|s]; try discriminate.
  apply Z.eqb_eq in Hlive. subst n.
  repeat (first [rewrite lookup_insert_eq | rewrite lookup_insert_ne by discriminate | rewrite lookup_singleton_eq]).
  reflexivity.
Qed.

(** X23.  The DELETE route.  It answers 204 only for a live task, and then
    the task is no longer returned by reads and exactly one entry was
    added to the queue: a delete for that task with retry count 0, whose
    payload is the task as it was read BEFORE the deletion, so with
    [is_deleted] false.  It answers 404 when no live task has the id,
    changing nothing.  It answers 500 only when the enqueue was refused,
    and then the task is deleted locally although no mutation was
    queued.  It never leaves the handler with an exception. *)
Theorem delete_route_outcome id w :
  match delete_route rt id w with
  | (w', Returned NoContent) =>
      ∃ row entry,
        select_task id (db w) = Some row
        ∧ select_task id (db w') = None
        ∧ sync_queue (db w') = sync_queue (db w) ++ [entry]
        ∧ q_task_id entry = id
        ∧ q_operation entry = delete
        ∧ q_retry_count entry = 0
        ∧ q_data entry
          = JSON_stringify (Date_toISOString rt) (mapRowToTask rt row)
        ∧ q_data entry !! "is_deleted" = Some (JsonBool false)
  | (w', Returned (ErrorReply status _ _)) =>
      (status = 404 ∧ select_task id (db w) = None ∧ db w' = db w)
      ∨ (status = 500
         ∧ is_Some (select_task id (db w))
         ∧ select_task id (db w') = None
         ∧ sync_queue (db w') = sync_queue (db w))
  | (_, Thrown _) => False
  end.
Proof.
  unfold delete_route, try_catch, bind at 1.
  rewrite Tasks.getTask_eq. cbn [fst snd].
  destruct (select_task id (db w)) as [row|] eqn:Hsel; cbn [option_map].
  2:{ left. repeat split. }
  unfold bind at 1. rewrite Tasks.deleteTask_eq, Hsel.
  set (w1 := set_db
               (update_tasks (delete_task_row rt (Date_now rt (calls w))) id
                  (db w))
               (tick w)).
  assert (Hgone : select_task id (db w1) = None)
    by apply Tasks.select_task_after_delete.
  assert (Hq : sync_queue (db w1) = sync_queue (db w)) by reflexivity.
  cbn [fst snd negb].
  unfold bind at 1.
  destruct (existsb
              (fun r =>
                 String.eqb (q_id r)
                   ("sync_" +:+ string_of_Z (Date_now rt (calls w1)) +:+ "_"
                      +:+ Math_random rt (S (calls w1))))
              (sync_queue (db w1))) eqn:Hfresh.
  - assert (Hrefused :
      ∃ w2 e, addToSyncQueue rt id delete (mapRowToTask rt row) w1
              = (w2, Thrown e) ∧ db w2 = db w1).
    { unfold addToSyncQueue, bind, new_Date, random_suffix, db_run_checked,
        insert_queue.
      cbn [tick db calls outbox q_id fst snd]. rewrite Hfresh.
      eexists _, _. split; reflexivity. }
    destruct Hrefused as (w2 & e & -> & Hdb).
    cbn [fst snd]. right.
    repeat split; eauto; cbn; rewrite Hdb; auto.
  - rewrite (Queue.addToSyncQueue_fresh rt _ _ _ _ Hfresh).
    cbn [fst snd]. unfold ret.
    apply Tasks.find_some_holds in Hsel as Hrow.
    destruct Hrow as [_ Hp]. apply andb_prop in Hp as [_ Hlive].
    eexists row, _. split; [reflexivity|].
    split; [exact Hgone|].
    split; [reflexivity|].
    repeat split. cbn. apply live_row_payload, Hlive.
Qed.

End Delete.

End Routes.

(* ================================================================== *)
(** * Theorems: the reference endpoint *)
(* ================================================================== *)

Module Endpoint.

Section Batch.
Variable rt : Runtime.
Variable random_below_tenth : nat → bool.
Variable TypeError_message : bool → string → string.











End Batch.

End Endpoint.

(* ================================================================== *)
(** * Theorems: a batch whose items are accepted, and a conflict *)
(* ================================================================== *)

Module Accepted.

Lemma filter_twice {A} (f g : A → bool) l :
  List.filter f (List.filter g l) = List.filter (fun x => g x && f x) l.
Proof.
  induction l as [|x l IH]; cbn; [reflexivity|].
  destruct (g x); cbn; [destruct (f x)|]; rewrite IH; reflexivity.
Qed.

Lemma in_filter {A} (f : A → bool) l x :
  x ∈ List.filter f l ↔ x ∈ l ∧ f x = true.
Proof. rewrite !list_elem_of_In. apply filter_In. Qed.

Lemma existsb_eqb_elem (s : string) (l : list string) :
  existsb (String.eqb s) l = true ↔ s ∈ l.
Proof.
  rewrite existsb_exists. split.
  - intros (y & Hy & E). apply String.eqb_eq in E. subst y.
    apply list_elem_of_In, Hy.
  - intros H. exists s. split; [apply list_elem_of_In, H|].
    apply String.eqb_refl.
Qed.

Section Batch.
Variable rt : Runtime.
Variable this : SyncService.

(** A success outcome without a resolved version never throws and removes
    the entry. *)
Lemma handleSyncSuccess_plain item serverId w :
  ∃ w',
    handleSyncSuccess rt item serverId None w = (w', Returned tt)
    ∧ sync_queue (db w')
      = List.filter (fun r => negb (String.eqb (q_id r) (it_id item)))
          (sync_queue (db w))
    ∧ sync_dead_letter_queue (db w') = sync_dead_letter_queue (db w)
    ∧ outbox w' = outbox w.
Proof.
  unfold handleSyncSuccess. destruct (nonempty serverId);
    eexists; (split; [reflexivity|]); repeat split.
Qed.

(** The loop over an answered batch whose outcomes from position [i] on
    are successes without a resolved version. *)
Lemma reconcile_accepted response processed l i (s : World * SyncResult) :
  processed_items response = Some processed →
  (∀ k, (k < length l)%nat →
     ∃ p, mjoin (processed !! (i + k)%nat) = Some p
          ∧ status p = status_success ∧ resolved_data p = None) →
  ∃ w' r',
    for_index i l (reconcile_item rt this response) s
    = ((w', r'), Returned tt)
    ∧ success r' = success (snd s)
    ∧ synced_items r' = synced_items (snd s) + Z.of_nat (length l)
    ∧ failed_items r' = failed_items (snd s)
    ∧ errors r' = errors (snd s)
    ∧ sync_queue (db w')
      = List.filter
          (fun r => negb (existsb (String.eqb (q_id r)) (List.map it_id l)))
          (sync_queue (db (fst s)))
    ∧ sync_dead_letter_queue (db w') = sync_dead_letter_queue (db (fst s))
    ∧ outbox w' = outbox (fst s).
Proof.
  intros Hp. revert i s.
  induction l as [|x l IH]; intros i [w r] Hok.
  - eexists _, _. split; [reflexivity|]. cbn.
    rewrite Z.add_0_r. repeat split.
    symmetry. apply Queue.filter_all. apply Forall_forall. auto.
  - cbn [for_index]. unfold bind at 1, reconcile_item at 1.
    rewrite Hp. destruct (Hok 0%nat) as (p & Hp0 & Hst & Hres);
      [cbn; lia|].
    rewrite Nat.add_0_r in Hp0. rewrite Hp0, Hst, Hres.
    unfold bind at 1, lift at 1. cbn [fst snd].
    destruct (handleSyncSuccess_plain x (server_id p) w)
      as (w1 & Hh & Hq & Hd & Ho).
    rewrite Hh. unfold update_local at 1. cbn [fst snd].
    destruct (IH (S i) (w1, count_synced r))
      as (w' & r' & Hloop & H1 & H2 & H3 & H4 & H5 & H6 & H7).
    { intros k Hk. replace (S i + k)%nat with (i + S k)%nat by lia.
      apply Hok. cbn. lia. }
    exists w', r'. split; [exact Hloop|].
    cbn [fst snd] in *. rewrite H1, H2, H3, H4, H5, H6, H7.
    cbn [success synced_items failed_items errors count_synced
         set_synced_items length].
    rewrite Hd, Ho, Hq, filter_twice. repeat split; try lia.
    apply filter_ext. intros row. cbn [List.map existsb].
    rewrite negb_orb. reflexivity.
Qed.

(** X25.  A batch whose POST is answered with a success outcome, without a
    resolved version, at every position: every item is counted as synced,
    none as failed, no error entry is returned and the result is a
    success; the queue has lost exactly the entries of the items' ids; the
    dead-letter table is untouched. *)
Theorem processBatch_accepted_all_synced l response processed w :
  axios_post rt (S (calls w)) (fst (request_of rt l w))
    (createBatchChecksum rt l) = PostResolved response →
  processed_items response = Some processed →
  (∀ k, (k < length l)%nat →
     ∃ p, mjoin (processed !! k) = Some p
          ∧ status p = status_success ∧ resolved_data p = None) →
  ∃ w' r,
    processBatchWithChecksum rt this l w = (w', Returned r)
    ∧ success r = true
    ∧ synced_items r = Z.of_nat (length l)
    ∧ failed_items r = 0
    ∧ errors r = []
    ∧ (∀ row, row ∈ sync_queue (db w') ↔
         row ∈ sync_queue (db w) ∧ q_id row ∉ List.map it_id l)
    ∧ sync_dead_letter_queue (db w') = sync_dead_letter_queue (db w)
    ∧ outbox w' = outbox w ++ [request_of rt l w].
Proof.
  intros Hpost Hp Hok.
  unfold processBatchWithChecksum, bind at 1, new_Date at 1.
  unfold with_local, bind at 1, try_catch, bind at 1, lift at 1, post_batch.
  cbn [fst snd tick db calls outbox].
  unfold request_of in Hpost. cbn [fst] in Hpost. rewrite Hpost.
  match goal with
  | |- context [for_index 0 l _ ?s] =>
      destruct (reconcile_accepted response processed l 0 s Hp Hok)
        as (w' & r' & Hloop & H1 & H2 & H3 & H4 & H5 & H6 & H7)
  end.
  rewrite Hloop. unfold update_local. cbn [fst snd] in *.
  exists w', (set_success (failed_items r' =? 0) r').
  split; [reflexivity|].
  cbn [set_success success synced_items failed_items errors].
  rewrite H2, H3, H4, H6, H7. cbn.
  do 4 (split; [first [reflexivity | lia]|]).
  split; [|split; reflexivity].
  intros row. rewrite H5, in_filter. split.
  - intros [Hrow Hn]. split; [exact Hrow|].
    apply negb_true_iff in Hn. intros Hin.
    apply existsb_eqb_elem in Hin. congruence.
  - intros [Hrow Hid]. split; [exact Hrow|].
    apply negb_true_iff, not_true_is_false. intros E.
    apply Hid, existsb_eqb_elem, E.
Qed.

(** A merge carries the title of its winner. *)
Lemma merged_title winner loser source w t :
  winner !! "title" = Some (JStr t) →
  ∃ merged,
    mergeTasks rt winner loser source w = (tick (tick w), Returned merged)
    ∧ merged !! "title" = Some (JStr t).
Proof.
  intros H. eexists. split; [apply Resolver.mergeTasks_eq|].
  rewrite !lookup_insert_ne by discriminate.
  unfold spread. apply lookup_union_Some_l, H.
Qed.

(** The merge of two versions that both carry a text title carries one of
    the two titles. *)
Lemma resolved_title localTask serverTask a b w :
  localTask !! "title" = Some (JStr a) →
  serverTask !! "title" = Some (JStr b) →
  ∃ merged,
    resolveConflictWithPriority rt localTask (Some serverTask) w
    = (tick (tick w), Returned merged)
    ∧ (prop merged "title" = JStr a ∨ prop merged "title" = JStr b).
Proof.
  intros Ha Hb. unfold resolveConflictWithPriority.
  destruct (time_eq _ _); [|destruct (time_gt _ _)].
  - destruct (merged_title localTask serverTask client w a Ha)
      as (m & Hm & Ht).
    exists m. split; [exact Hm|]. left. unfold prop. rewrite Ht. reflexivity.
  - destruct (merged_title localTask serverTask client w a Ha)
      as (m & Hm & Ht).
    exists m. split; [exact Hm|]. left. unfold prop. rewrite Ht. reflexivity.
  - destruct (merged_title serverTask localTask server w b Hb)
      as (m & Hm & Ht).
    exists m. split; [exact Hm|]. right. unfold prop. rewrite Ht. reflexivity.
Qed.

(** X26.  A conflict outcome is counted as synced AND reported among the
    errors.  For a batch of one item answered with a conflict, both
    versions carrying a text title: the result is a success with
    [synced_items = 1], [failed_items = 0] and one error entry, whose
    message is [Conflict resolved using last-write-wins]; the entry has
    left the queue, and the task's row is synced under one of the two
    titles. *)
Theorem processBatch_conflict_synced_and_reported item p serverTask a b w :
  axios_post rt (S (calls w)) (fst (request_of rt [item] w))
    (createBatchChecksum rt [item])
  = PostResolved {| processed_items := Some [Some p] |} →
  status p = status_conflict →
  resolved_data p = Some serverTask →
  it_data item !! "title" = Some (JStr a) →
  serverTask !! "title" = Some (JStr b) →
  ∃ w' r,
    processBatchWithChecksum rt this [item] w = (w', Returned r)
    ∧ success r = true
    ∧ synced_items r = 1
    ∧ failed_items r = 0
    ∧ List.map error_text (errors r)
      = [(it_task_id item, Operation_text (it_operation item),
          "Conflict resolved using last-write-wins")]
    ∧ Forall (fun row => q_id row ≠ it_id item) (sync_queue (db w'))
    ∧ (∀ row', row' ∈ tasks (db w') → t_id row' = it_task_id item →
         t_sync_status row' = SqlText "synced"
         ∧ (t_title row' = SqlText a ∨ t_title row' = SqlText b))
    ∧ sync_dead_letter_queue (db w') = sync_dead_letter_queue (db w).
Proof.
  intros Hpost Hst Hres Ha Hb.
  unfold processBatchWithChecksum, bind at 1, new_Date at 1.
  unfold with_local, bind at 1, try_catch, bind at 1, lift at 1, post_batch.
  cbn [fst snd tick db calls outbox].
  unfold request_of in Hpost. cbn [fst] in Hpost. rewrite Hpost.
  cbn [for_index]. unfold bind at 1, reconcile_item.
  cbn [processed_items]. cbn [lookup list_lookup mjoin option_join].
  change (mjoin ([Some p] !! 0%nat)) with (Some p).
  rewrite Hst, Hres.
  unfold bind at 1, lift at 1. cbn [fst snd].
  match goal with
  | |- context [resolveConflictWithPriority rt _ _ ?w0] =>
      destruct (resolved_title (it_data item) serverTask a b w0 Ha Hb)
        as (merged & Hmerge & Htitle)
  end.
  rewrite Hmerge. cbn [fst snd].
  unfold bind at 1, lift at 1. cbn [fst snd].
  assert (Hnull : is_null (bind_param (prop merged "title")) = false).
  { destruct Htitle as [-> | ->]; reflexivity. }
  unfold handleSyncSuccess, bind at 1, updateTaskFromSync, bind at 1,
    new_Date at 1, db_run_checked.
  cbn [fst snd tick db calls outbox]. rewrite Hnull. cbn [andb].
  unfold removeFromSyncQueue, db_run. cbn [fst snd].
  unfold bind at 1, update_local at 1. cbn [fst snd].
  unfold bind at 1, lift at 1, new_Date at 1. cbn [fst snd].
  unfold update_local at 1. cbn [fst snd]. unfold ret at 1.
  cbn [fst snd]. unfold update_local. cbn [fst snd].
  eexists _, _. split; [reflexivity|].
  cbn [set_success success synced_items failed_items errors push_errors
       count_synced set_synced_items empty_result].
  do 4 (split; [reflexivity|]).
  split; [apply Escalation.delete_queue_no_entry|].
  split; [|reflexivity].
  intros row' Hrow' Hid. cbn [db set_db] in Hrow'.
  unfold delete_queue, set_sync_queue in Hrow'. cbn [tasks] in Hrow'.
  apply Succeeded.update_tasks_target in Hrow' as (row & _ & _ & ->);
    [|reflexivity | exact Hid].
  cbn. split; [reflexivity|]. destruct Htitle as [-> | ->]; auto.
Qed.

End Batch.

End Accepted.

(* ================================================================== *)
(** * Theorems: further concrete runs *)
(* ================================================================== *)

Module Checks.

Import Data Samples.

(** An error outcome for a new entry with three retries allowed. *)
Lemma handleSyncError_keeps_in_queue_witness :
  ∃ w',
    handleSyncError (runtime true accepted) new_SyncService
      (row_to_item new_row) "Network Error" world_with_status_column
    = (w', Returned tt)
    ∧ Forall2
        (fun old new =>
           if String.eqb (q_id old) (it_id (row_to_item new_row))
           then q_retry_count new = it_retry_count (row_to_item new_row) + 1
                ∧ q_error_message new = Some "Network Error"
                ∧ same_mutation old new
                ∧ q_sync_status new = q_sync_status old
           else new = old)
        (sync_queue (db world_with_status_column)) (sync_queue (db w'))
    ∧ sync_dead_letter_queue (db w')
      = sync_dead_letter_queue (db world_with_status_column)
    ∧ Forall2
        (fun old new =>
           if String.eqb (t_id old) (it_task_id (row_to_item new_row))
           then t_sync_status new = SqlText "error" ∧ t_id new = t_id old
           else new = old)
        (tasks (db world_with_status_column)) (tasks (db w'))
    ∧ outbox w' = outbox world_with_status_column.
Proof.
  exact (Queue.handleSyncError_keeps_in_queue (runtime true accepted)
           new_SyncService (row_to_item new_row) "Network Error"
           world_with_status_column eq_refl).
Defined.

(** The escalation of an entry whose dead-letter row is already there. *)
Lemma handleSyncError_dead_letter_id_taken_witness :
  handleSyncError (runtime true accepted) new_SyncService
    (row_to_item exhausted_row) "Network Error" world_with_dead_letter
  = (tick world_with_dead_letter,
     Thrown
       "SQLITE_CONSTRAINT: UNIQUE constraint failed: sync_dead_letter_queue.id")
  ∧ db (tick world_with_dead_letter) = db world_with_dead_letter.
Proof.
  exact (Queue.handleSyncError_dead_letter_id_taken (runtime true accepted)
           new_SyncService (row_to_item exhausted_row) "Network Error"
           world_with_dead_letter ltac:(vm_compute; discriminate) eq_refl).
Defined.

(** An enqueue into the new store, then the drain. *)
Lemma addToSyncQueue_then_drain_witness :
  ∃ w1,
    addToSyncQueue (runtime true accepted) "task-1" update
      {[ "title" := JStr "Updated Title" ]} new_world
    = (w1, Returned tt)
    ∧ Permutation (drained (runtime true accepted) new_SyncService w1)
        ({| it_id :=
              "sync_"
                +:+ string_of_Z
                      (Date_now (runtime true accepted) (calls new_world))
                +:+ "_"
                +:+ Math_random (runtime true accepted) (S (calls new_world));
            it_task_id := "task-1";
            it_operation := update;
            it_data :=
              JSON_parse
                (JSON_stringify (Date_toISOString (runtime true accepted))
                   {[ "title" := JStr "Updated Title" ]});
            it_created_at :=
              Date_now (runtime true accepted) (S (S (calls new_world)));
            it_retry_count := 0;
            it_error_message := None |} :: drained (runtime true accepted) new_SyncService new_world).
Proof.
  exact (Queue.addToSyncQueue_then_drain (runtime true accepted)
           new_SyncService "task-1" update
           {[ "title" := JStr "Updated Title" ]} new_world eq_refl eq_refl).
Defined.

(** An enqueue that draws the id of an entry of the queue. *)
Lemma addToSyncQueue_id_taken_witness :
  ∃ w1,
    addToSyncQueue (runtime true accepted) "task-1" update
      {[ "title" := JStr "Updated Title" ]} world_with_drawn_id
    = (w1, Thrown "SQLITE_CONSTRAINT: UNIQUE constraint failed: sync_queue.id")
    ∧ db w1 = db world_with_drawn_id
    ∧ outbox w1 = outbox world_with_drawn_id.
Proof.
  exact (Queue.addToSyncQueue_id_taken (runtime true accepted) "task-1"
           update {[ "title" := JStr "Updated Title" ]} world_with_drawn_id
           eq_refl).
Defined.

(** The escalation of the exhausted entry, then the dead-letter report. *)
Lemma dead_lettered_entry_is_reported_witness :
  ∃ w' deadItems,
    handleSyncError (runtime true accepted) new_SyncService
      (row_to_item exhausted_row) "Network Error" world_with_exhausted_row
    = (w', Returned tt)
    ∧ getDeadLetterQueue w' = (w', Returned deadItems)
    ∧ {| it_id := "dlq_" +:+ q_id exhausted_row;
         it_task_id := q_task_id exhausted_row;
         it_operation := q_operation exhausted_row;
         it_data := JSON_parse (q_data exhausted_row);
         it_created_at := q_created_at exhausted_row;
         it_retry_count := q_retry_count exhausted_row;
         it_error_message := Some "Network Error" |} ∈ deadItems.
Proof.
  exact (Reports.dead_lettered_entry_is_reported (runtime true accepted)
           new_SyncService exhausted_row "Network Error"
           world_with_exhausted_row ltac:(vm_compute; discriminate) eq_refl).
Defined.

(** A pass over the new store with the remote reachable. *)
Lemma sync_nothing_to_drain_witness :
  sync (runtime true accepted) new_SyncService new_world
  = (tick new_world, Returned empty_result)
  ∧ db (tick new_world) = db new_world
  ∧ outbox (tick new_world) = outbox new_world.
Proof.
  exact (Reports.sync_nothing_to_drain (runtime true accepted)
           new_SyncService new_world eq_refl eq_refl).
Defined.

(** A batch of one new entry that the remote refuses. *)
Lemma processBatch_rejected_all_fail_witness :
  ∃ w' r,
    processBatchWithChecksum (runtime true refused) new_SyncService
      [row_to_item new_row] world_with_status_column
    = (w', Returned r)
    ∧ synced_items r = 0
    ∧ failed_items r = Z.of_nat (length [row_to_item new_row])
    ∧ success r = (Z.of_nat (length [row_to_item new_row]) =? 0)
    ∧ List.map error_text (errors r)
      = List.map
          (fun x =>
             (it_task_id x, Operation_text (it_operation x), "Network Error"))
          [row_to_item new_row]
    ∧ (∀ x row,
         x ∈ [row_to_item new_row] →
         row ∈ sync_queue (db world_with_status_column) →
         q_id row = it_id x →
         requeued "Network Error" x row ∈ sync_queue (db w'))
    ∧ (∀ row,
         row ∈ sync_queue (db world_with_status_column) →
         q_id row ∉ List.map it_id [row_to_item new_row] →
         row ∈ sync_queue (db w'))
    ∧ sync_dead_letter_queue (db w')
      = sync_dead_letter_queue (db world_with_status_column)
    ∧ outbox w'
      = outbox world_with_status_column
          ++ [request_of (runtime true refused) [row_to_item new_row]
                world_with_status_column].
Proof.
  exact (Failures.processBatch_rejected_all_fail (runtime true refused)
           new_SyncService [row_to_item new_row] "Network Error"
           world_with_status_column eq_refl
           ltac:(repeat constructor)
           ltac:(apply (bool_decide_unpack _); vm_compute; exact I)).
Defined.

(** A batch of one new entry that the remote answers with no outcome. *)
Lemma processBatch_unanswered_all_fail_witness :
  ∃ w' r,
    processBatchWithChecksum (runtime true unanswered) new_SyncService
      [row_to_item new_row] world_with_status_column
    = (w', Returned r)
    ∧ synced_items r = 0
    ∧ failed_items r = Z.of_nat (length [row_to_item new_row])
    ∧ success r = (Z.of_nat (length [row_to_item new_row]) =? 0)
    ∧ errors r = []
    ∧ (∀ x row,
         x ∈ [row_to_item new_row] →
         row ∈ sync_queue (db world_with_status_column) →
         q_id row = it_id x →
         requeued "No response from server" x row ∈ sync_queue (db w'))
    ∧ (∀ row,
         row ∈ sync_queue (db world_with_status_column) →
         q_id row ∉ List.map it_id [row_to_item new_row] →
         row ∈ sync_queue (db w'))
    ∧ sync_dead_letter_queue (db w')
      = sync_dead_letter_queue (db world_with_status_column)
    ∧ outbox w'
      = outbox world_with_status_column
          ++ [request_of (runtime true unanswered) [row_to_item new_row]
                world_with_status_column].
Proof.
  exact (Failures.processBatch_unanswered_all_fail (runtime true unanswered)
           new_SyncService [row_to_item new_row]
           {| processed_items := Some [] |} [] world_with_status_column
           eq_refl eq_refl
           ltac:(intros k _; reflexivity)
           ltac:(repeat constructor)
           ltac:(apply (bool_decide_unpack _); vm_compute; exact I)).
Defined.

(** The two sample versions with their roles exchanged: the local one is
    the earlier. *)
Lemma resolve_server_wins_witness :
  ∃ merged,
    resolveConflictWithPriority (runtime true accepted) remote_version
      (Some local_version) new_world
    = (tick (tick new_world), Returned merged)
    ∧ mergeTasks (runtime true accepted) local_version remote_version server
        new_world
      = (tick (tick new_world), Returned merged)
    ∧ server_wins remote_version local_version merged.
Proof.
  exact (Succeeded.resolve_server_wins (runtime true accepted)
           remote_version local_version new_world
           ltac:(intros tl ts H1 H2; vm_compute in H1, H2;
                 injection H1 as <-; injection H2 as <-; reflexivity)).
Defined.

(** Three items and a batch size that is no number. *)
Lemma createChronologicalBatches_nan_witness :
  createChronologicalBatches service_without_size three_items
  = match three_items with [] => [] | _ => [three_items] end.
Proof.
  exact (Sizes.createChronologicalBatches_nan service_without_size
           three_items eq_refl).
Defined.

(** Three items and a batch size of zero. *)
Lemma createChronologicalBatches_nonpositive_witness :
  createChronologicalBatches service_with_size_zero three_items
  = [] :: List.map (fun y => [y]) three_items.
Proof.
  exact (Sizes.createChronologicalBatches_nonpositive service_with_size_zero
           0 three_items eq_refl ltac:(discriminate) ltac:(discriminate)).
Defined.

(** A task created in the new store and read back. *)
Lemma createTask_then_getTask_witness :
  ∃ w' task,
    createTask runtime_reading_back uuid task_data new_world
    = (w', Returned task)
    ∧ task
      = new_task (uuid (calls new_world)) task_data
          (Date_now runtime_reading_back (S (calls new_world)))
    ∧ getTask runtime_reading_back (uuid (calls new_world)) w'
      = (w', Returned (Some task))
    ∧ sync_queue (db w') = sync_queue (db new_world)
    ∧ (∀ row, row ∈ tasks (db new_world) → row ∈ tasks (db w')).
Proof.
  exact (Tasks.createTask_then_getTask runtime_reading_back uuid task_data
           new_world ltac:(vm_compute; apply not_elem_of_nil) eq_refl).
Defined.

(** A batch of one new entry that the remote accepts. *)
Lemma processBatch_accepted_all_synced_witness :
  ∃ w' r,
    processBatchWithChecksum (runtime true accepted) new_SyncService
      [row_to_item new_row] world_with_status_column
    = (w', Returned r)
    ∧ success r = true
    ∧ synced_items r = Z.of_nat (length [row_to_item new_row])
    ∧ failed_items r = 0
    ∧ errors r = []
    ∧ (∀ row,
         row ∈ sync_queue (db w') ↔
         row ∈ sync_queue (db world_with_status_column)
         ∧ q_id row ∉ List.map it_id [row_to_item new_row])
    ∧ sync_dead_letter_queue (db w')
      = sync_dead_letter_queue (db world_with_status_column)
    ∧ outbox w'
      = outbox world_with_status_column
          ++ [request_of (runtime true accepted) [row_to_item new_row]
                world_with_status_column].
Proof.
  exact (Accepted.processBatch_accepted_all_synced (runtime true accepted)
           new_SyncService [row_to_item new_row] _ _
           world_with_status_column eq_refl eq_refl
           ltac:(intros k Hk; destruct k;
                 [eexists; repeat split | cbn in Hk; lia])).
Defined.

(** A batch of one new entry that the remote answers with a conflict. *)
Lemma processBatch_conflict_synced_and_reported_witness :
  ∃ w' r,
    processBatchWithChecksum (runtime true conflicting) new_SyncService
      [row_to_item new_row] world_with_status_column
    = (w', Returned r)
    ∧ success r = true
    ∧ synced_items r = 1
    ∧ failed_items r = 0
    ∧ List.map error_text (errors r)
      = [(it_task_id (row_to_item new_row),
          Operation_text (it_operation (row_to_item new_row)),
          "Conflict resolved using last-write-wins")]
    ∧ Forall (fun row => q_id row ≠ it_id (row_to_item new_row))
        (sync_queue (db w'))
    ∧ (∀ row',
         row' ∈ tasks (db w') →
         t_id row' = it_task_id (row_to_item new_row) →
         t_sync_status row' = SqlText "synced"
         ∧ (t_title row' = SqlText "Updated Title"
            ∨ t_title row' = SqlText "Server title"))
    ∧ sync_dead_letter_queue (db w')
      = sync_dead_letter_queue (db world_with_status_column).
Proof.
  exact (Accepted.processBatch_conflict_synced_and_reported
           (runtime true conflicting) new_SyncService (row_to_item new_row)
           _ remote_version "Updated Title" "Server title"
           world_with_status_column eq_refl eq_refl eq_refl eq_refl eq_refl).
Defined.

(** The merge of the exchanged versions, property by property. *)
Lemma resolve_server_wins_run :
  snd (resolveConflictWithPriority (runtime true accepted) remote_version
         (Some local_version) new_world)
  = Returned
      {[ "id" := JStr "task-1"; "title" := JStr "Local title";
         "completed" := JBool true;
         "description" := JStr "kept on the server";
         "server_id" := JUndefined;
         "sync_status" := JStr "synced";
         "last_synced_at" := JDate (Some 1700000000000);
         "updated_at" := JDate (Some 1700000000001) ]}.
Proof. vm_compute. reflexivity. Qed.

(** The batches of three items under the two degenerate sizes. *)
Lemma degenerate_sizes_run :
  List.map (List.map it_id)
    (createChronologicalBatches service_without_size three_items)
  = [["q1"; "q2"; "q3"]]
  ∧ List.map (List.map it_id)
      (createChronologicalBatches service_with_size_zero three_items)
    = [[]; ["q1"]; ["q2"]; ["q3"]].
Proof. split; reflexivity. Qed.


(** The outcomes for these four items. *)
Lemma batch_route_run :
  match
    batch_route (runtime true accepted) (fun _ => false) type_error
      (Some received_items) new_world
  with
  | (_, Returned (BatchOk processed)) =>
      List.map (fun o => (o_client_id o, o_status o, o_server_id o, o_error o))
        processed
      = [ (VStr "task-1", status_success,
           VStr "srv_1700000000000_k3j9x0ab1", None);
          (VStr "task-2", status_error, VNull,
           Some "Unknown operation: archive");
          (VStr "task-3", status_error, VNull,
           Some "Cannot read properties of undefined (reading 'server_id')");
          (VStr "task-4", status_success, VStr "srv_9", None) ]
  | _ => False
  end.
Proof. vm_compute. reflexivity. Qed.

(** The same body with a [null] item put first. *)
Lemma batch_route_null_item_run :
  snd (batch_route (runtime true accepted) (fun _ => false) type_error
         (Some (item_null :: received_items)) new_world)
  = Returned (BatchError 500 "Batch sync failed" "1700000000000").
Proof. vm_compute. reflexivity. Qed.

(** A pass over two batches of one item each, the remote refusing every
    batch: the handling of the first batch throws, because the escalation
    of its item is refused, and the second batch is never sent. *)
Lemma sync_stops_after_throwing_batch :
  let rt := runtime true refused in
  List.map (List.map it_id)
    (createChronologicalBatches service_with_size_one
       (drained rt service_with_size_one world_with_two_entries))
  = [["sync_1_a"]; ["sync_2_b"]]
  ∧ List.map (fun x => List.map it_id (items (fst x)))
      (outbox (fst (sync rt service_with_size_one world_with_two_entries)))
    = [["sync_1_a"]]
  ∧ ∃ r,
      snd (sync rt service_with_size_one world_with_two_entries) = Returned r
      ∧ success r = false
      ∧ List.map se_error (errors r)
        = ["SQLITE_CONSTRAINT: UNIQUE constraint failed: sync_dead_letter_queue.id"].
Proof. vm_compute. split; [reflexivity|]. split; [reflexivity|].
  eexists. repeat split. Qed.

End Checks.
